(** * Index_Dashboard: the price cache of [weekly_prices.py]

    A shallow embedding of the range-reconciliation cache of
    [src/weekly_prices.py]: the [asset_prices] table, the two cache reads,
    [upsert_prices], [resolve_date_range] and the two per-asset loops of
    [fetch_asset_history].

    Conventions of the embedding.
    - A calendar date is its day ordinal, an integer; [timedelta(days=k)] is
      the integer [k].  The table keeps dates as [%Y-%m-%d] text and compares
      them as text, which for four-digit years is the order of the ordinals,
      so a stored date is its ordinal here and [parse_date(row[0])] is the
      identity.  Below the year 1000 [strftime] may leave the year unpadded
      and the text order is another: the windows read are taken to be of
      four-digit years.  Python confines [date] to the years 1..9999:
      [range_end + timedelta(days=1)] raises [OverflowError] on the last day
      of that calendar, inside the loop, and is modelled;
      [end_date - timedelta(days=1)] of line 254 raises it on the first day,
      before the loop, and a window is taken to end after that day.
    - A close is a binary64 float, as the [REAL] column and Python's [float];
      sqlite3 binds a NaN as [NULL], which [close REAL NOT NULL] refuses.
    - A [DataFrame] of daily bars is the list of its rows, index date and
      [Close], in index order; [sort_index] is a stable sort by date.
    - A Python dict read by key only ([chart_data], [chart_dates],
      [chart_changes]) is a finite map; [assets], which is iterated, is the
      list of its items in order.
    - The clock, the date parser of the standard library and yfinance are the
      fields of a [world]; each call of yfinance is logged in the state.
      Of sqlite3 the two errors the data can cause are modelled, the
      [IntegrityError] of a NaN close and the [OverflowError] of a [LIMIT]
      beyond 64 bits; a failing disk is outside the model. *)

From Stdlib Require Import ZArith List String Bool Lia.
From Stdlib Require Import PrimFloat.
From Stdlib Require DecimalString.
From stdpp Require Import base option list sorting gmap strings.

Local Open Scope Z_scope.

(** ** Dates, rows and the table *)

Definition date := Z.

(** [date.min] and [date.max], [0001-01-01] and [9999-12-31], and the
    first day of the year 1000, as ordinals. *)
Definition date_min : date := 1.
Definition date_max : date := 3652059.
Definition year_1000 : date := 364878.

(** The exceptions the code can meet.  [UpstreamError] stands for whatever
    yfinance raises; all are subclasses of [Exception]. *)
Inductive exn : Type :=
| IndexError
| ZeroDivisionError
| ValueError
| OverflowError
| IntegrityError
| UpstreamError (msg : string).

(** One row of a cache read: [(date, close)]. *)
Definition price_row : Type := date * float.

(** A [DataFrame] of daily bars, in index order. *)
Definition dataframe : Type := list (date * float).

(** [asset_prices]: primary key [(ticker, date)], columns [close] and
    [updated_at]. *)
Abbreviation store := (gmap (string * Z) (float * string)).

(** The rows of one ticker, in the table's enumeration order. *)
Definition ticker_rows (ticker : string) (db : store) : list price_row :=
  omap (fun kv : (string * Z) * (float * string) =>
          if decide (kv.1.1 = ticker) then Some (kv.1.2, kv.2.1) else None)
       (map_to_list db).

Definition date_asc (r1 r2 : price_row) : Prop := r1.1 <= r2.1.
Definition date_desc (r1 r2 : price_row) : Prop := r2.1 <= r1.1.

#[global] Instance date_asc_dec r1 r2 : Decision (date_asc r1 r2).
Proof. unfold date_asc. apply _. Defined.
#[global] Instance date_desc_dec r1 r2 : Decision (date_desc r1 r2).
Proof. unfold date_desc. apply _. Defined.

Definition in_window (start_date end_date : date) (r : price_row) : Prop :=
  start_date <= r.1 /\ r.1 <= end_date.

#[global] Instance in_window_dec s e r : Decision (in_window s e r).
Proof. unfold in_window. apply _. Defined.

(** [SELECT date, close FROM asset_prices
     WHERE ticker = ? AND date BETWEEN ? AND ? ORDER BY date ASC] *)
Definition fetch_cached_prices (ticker : string) (start_date end_date : date)
    (db : store) : list price_row :=
  merge_sort date_asc (filter (in_window start_date end_date) (ticker_rows ticker db)).

(** [SELECT date, close FROM asset_prices WHERE ticker = ?
     ORDER BY date DESC LIMIT ?], then [list(reversed(rows))]. *)
Definition last_n_rows (ticker : string) (limit_count : nat)
    (db : store) : list price_row :=
  reverse (take limit_count (merge_sort date_desc (ticker_rows ticker db))).

(** The largest integer sqlite3 binds to a parameter. *)
Definition sqlite_max_int : Z := 2 ^ 63 - 1.

(** [fetch_cached_last_n]: binding a [limit_count] beyond 64 bits raises
    [OverflowError]; otherwise the rows of the statement. *)
Definition fetch_cached_last_n (ticker : string) (limit_count : nat)
    (db : store) : exn + list price_row :=
  if Z.of_nat limit_count <=? sqlite_max_int
  then inr (last_n_rows ticker limit_count db)
  else inl OverflowError.

(** [hist.sort_index()] and [hist.tail(n)]. *)
Definition sort_index (hist : dataframe) : dataframe := merge_sort date_asc hist.
Definition tail (n : nat) (hist : dataframe) : dataframe :=
  drop (length hist - n)%nat hist.

(** What [upsert_prices] writes when every row is accepted: nothing on an
    empty frame; otherwise one [INSERT OR REPLACE] per row, in row order,
    all stamped [now_str]. *)
Definition insert_or_replace (ticker now_str : string) (db : store)
    (r : date * float) : store :=
  <[(ticker, r.1) := (r.2, now_str)]> db.

Definition write_rows (now_str ticker : string) (hist_df : dataframe)
    (db : store) : store :=
  match hist_df with
  | [] => db
  | _ => foldl (insert_or_replace ticker now_str) db hist_df
  end.

(** A float that is not a number: the only one that differs from itself. *)
Definition is_nan (c : float) : bool := negb (PrimFloat.eqb c c).

Definition has_nan_close (hist_df : dataframe) : bool :=
  existsb (fun r : date * float => is_nan r.2) hist_df.

(** [upsert_prices]: a NaN close is bound as [NULL] and refused by the
    [NOT NULL] column; [executemany] raises [IntegrityError] and the
    [with] block rolls the whole batch back.  Otherwise the rows are
    written. *)
Definition upsert_prices (now_str ticker : string) (hist_df : dataframe)
    (db : store) : exn + store :=
  if has_nan_close hist_df then inl IntegrityError
  else inr (write_rows now_str ticker hist_df db).

(** The table after a call that may have raised: rolled back to what it
    was, or as written. *)
Definition table_after (db : store) (written : exn + store) : store :=
  match written with
  | inr db' => db'
  | inl _ => db
  end.

(** ** The fetch plan of the calendar-window loop *)

(** The closure [add_range]: a sub-window whose start is after its end is
    not appended. *)
Definition add_range (range_start range_end : date)
    (fetch_ranges : list (date * date)) : list (date * date) :=
  if range_end <? range_start then fetch_ranges
  else fetch_ranges ++ [(range_start, range_end)].

(** [min(cached_dates) if cached_dates else None], and [max]. *)
Definition cached_min (cached_dates : list date) : option date :=
  match cached_dates with
  | [] => None
  | d :: rest => Some (foldl Z.min d rest)
  end.

Definition cached_max (cached_dates : list date) : option date :=
  match cached_dates with
  | [] => None
  | d :: rest => Some (foldl Z.max d rest)
  end.

(** Lines 267-290: [fetch_ranges] as the loop body leaves it.  A [date] is
    always truthy, so [cached_min and cached_min > start_date] tests for
    [None] and then compares. *)
Definition plan_fetch_ranges (stale_only force_refresh : bool)
    (start_date end_date refresh_start : date)
    (cached_rows : list price_row) : list (date * date) :=
  let cached_dates := map fst cached_rows in
  let fetch_ranges := [] in
  if negb stale_only then
    let fetch_ranges :=
      if force_refresh then add_range start_date end_date fetch_ranges
      else add_range refresh_start end_date fetch_ranges in
    match cached_rows with
    | [] => add_range start_date end_date fetch_ranges
    | _ =>
      let fetch_ranges :=
        match cached_min cached_dates with
        | Some m =>
          if start_date <? m then add_range start_date (m - 1) fetch_ranges
          else fetch_ranges
        | None => fetch_ranges
        end in
      match cached_max cached_dates with
      | Some m =>
        if m <? end_date then add_range (m + 1) end_date fetch_ranges
        else fetch_ranges
      | None => fetch_ranges
      end
    end
  else fetch_ranges.

(** Line 254: [refresh_start = max(start_date, end_date - timedelta(days=1))],
    for an [end_date] after [date.min]. *)
Definition refresh_start_of (start_date end_date : date) : date :=
  Z.max start_date (end_date - 1).

(** The plan of one ticker against the table. *)
Definition planned_ranges (stale_only force_refresh : bool)
    (start_date end_date : date) (ticker : string) (db : store)
    : list (date * date) :=
  plan_fetch_ranges stale_only force_refresh start_date end_date
    (refresh_start_of start_date end_date)
    (fetch_cached_prices ticker start_date end_date db).

(** ** The world outside, the state, and the effects of the code *)

(** What [stock.history] is asked: [period="1mo"], or [start=, end=] with
    the end exclusive. *)
Inductive history_request : Type :=
| HistPeriod (period : string)
| HistRange (fetch_start fetch_end : date).

Inductive upstream_call : Type :=
| CallTicker (ticker : string)
| CallHistory (ticker : string) (req : history_request).

(** [today] is [datetime.now().date()], [now_str k] the formatted clock at
    the [k]-th upsert, [strptime_ymd s] is
    [datetime.strptime(s, "%Y-%m-%d").date()] ([None]: it raises
    [ValueError]), and [yf_history ticker req k] is what [stock.history]
    answers to the [k]-th upstream call of the batch. *)
Record world : Type := {
  today : date;
  now_str : nat -> string;
  strptime_ymd : string -> option date;
  yf_history : string -> history_request -> nat -> exn + dataframe
}.

(** The lines [log_message] prints in [fetch_asset_history] (the elapsed
    seconds left out). *)
Inductive log_event : Type :=
| LogCacheLookup (korean_name ticker : string)
| LogFetchStart (korean_name ticker : string)
| LogCacheDone (korean_name ticker : string)
| LogFetchDone (korean_name ticker : string)
| LogFailed (korean_name ticker : string).

(** One [result_row]: the asset, the ticker, the current price, the period
    change and the closes of the numbered columns.  The source stores the
    last three as text ([f"{v:.2f}"], the arrow and [f"{c:+.2f}%"] or
    ["N/A"]), a rendering of the values kept here. *)
Record result_row : Type := {
  row_asset : string;
  row_ticker : string;
  row_current : float;
  row_change : option float;
  row_closes : list float
}.

Record state : Type := {
  db : store;
  upstream_calls : list upstream_call;
  upserts : nat;
  console : list log_event;
  results : list result_row;
  chart_data : gmap string (list float);
  chart_dates : gmap string (list date);
  chart_changes : gmap string (option float)
}.

(** How a block of Python ends: normally, by [continue], or by raising. *)
Inductive signal (A : Type) : Type :=
| Normal (a : A)
| Continue
| Raised (e : exn).
Arguments Normal {A} a.
Arguments Continue {A}.
Arguments Raised {A} e.

Definition M (A : Type) : Type := state -> state * signal A.

Definition ret {A} (a : A) : M A := fun st => (st, Normal a).
Definition bind {A B} (m : M A) (k : A -> M B) : M B :=
  fun st =>
    match m st with
    | (st', Normal a) => k a st'
    | (st', Continue) => (st', Continue)
    | (st', Raised e) => (st', Raised e)
    end.
Definition raise {A} (e : exn) : M A := fun st => (st, Raised e).
Definition continue {A} : M A := fun st => (st, Continue).

Notation "'let*' x ':=' m 'in' k" := (bind m (fun x => k))
  (at level 10, x name, m at level 100, k at level 200).
Notation "m1 '>>' m2" := (bind m1 (fun _ => m2))
  (at level 61, left associativity).

Definition log_message (ev : log_event) : M unit := fun st =>
  ({| db := db st; upstream_calls := upstream_calls st; upserts := upserts st;
      console := console st ++ [ev]; results := results st;
      chart_data := chart_data st; chart_dates := chart_dates st;
      chart_changes := chart_changes st |}, Normal tt).

Definition record_call (c : upstream_call) (st : state) : state :=
  {| db := db st; upstream_calls := upstream_calls st ++ [c];
     upserts := upserts st; console := console st; results := results st;
     chart_data := chart_data st; chart_dates := chart_dates st;
     chart_changes := chart_changes st |}.

(** A value or the exception raised instead of it. *)
Definition lift {A} (r : exn + A) : M A := fun st =>
  match r with
  | inr a => (st, Normal a)
  | inl e => (st, Raised e)
  end.

(** A cache read, and one that can raise. *)
Definition query {A} (q : store -> A) : M A := fun st => (st, Normal (q (db st))).
Definition try_query {A} (q : store -> exn + A) : M A := fun st => lift (q (db st)) st.

(** [yf.Ticker(ticker)]: builds the handle, here the ticker itself. *)
Definition yf_Ticker (ticker : string) : M string := fun st =>
  (record_call (CallTicker ticker) st, Normal ticker).

(** [stock.history(...)]. *)
Definition stock_history (w : world) (stock : string) (req : history_request)
    : M dataframe := fun st =>
  let k := length (upstream_calls st) in
  let st' := record_call (CallHistory stock req) st in
  match yf_history w stock req k with
  | inl e => (st', Raised e)
  | inr hist => (st', Normal hist)
  end.

(** [upsert_prices(ticker, hist, db_path)], reading the clock once. *)
Definition do_upsert (w : world) (ticker : string) (hist : dataframe) : M unit :=
  fun st =>
    match hist with
    | [] => (st, Normal tt)
    | _ =>
      let written := upsert_prices (now_str w (upserts st)) ticker hist (db st) in
      ({| db := table_after (db st) written;
          upstream_calls := upstream_calls st; upserts := S (upserts st);
          console := console st; results := results st;
          chart_data := chart_data st; chart_dates := chart_dates st;
          chart_changes := chart_changes st |},
       match written with
       | inr _ => Normal tt
       | inl e => Raised e
       end)
    end.

(** [results.append(result_row)] and the three [chart_*[korean_name] = ...]. *)
Definition publish (row : result_row) (dates : list date) : M unit := fun st =>
  ({| db := db st; upstream_calls := upstream_calls st; upserts := upserts st;
      console := console st; results := results st ++ [row];
      chart_data := <[row_asset row := row_closes row]> (chart_data st);
      chart_dates := <[row_asset row := dates]> (chart_dates st);
      chart_changes := <[row_asset row := row_change row]> (chart_changes st) |},
   Normal tt).

(** ** Lines 212-245 and 307-340: the series of one asset *)

(** [xs[0]] and [xs[-1]]. *)
Definition item_first (xs : list float) : M float :=
  match xs with
  | x :: _ => ret x
  | [] => raise IndexError
  end.

Definition item_last (xs : list float) : M float :=
  match last xs with
  | Some x => ret x
  | None => raise IndexError
  end.

(** Python's [a / b] on floats. *)
Definition float_div (a b : float) : M float :=
  if PrimFloat.eqb b 0%float then raise ZeroDivisionError
  else ret (PrimFloat.div a b).

Definition change_percent (close_values : list float) : M (option float) :=
  if (2 <=? length close_values)%nat then
    let* start_price := item_first close_values in
    let* end_price := item_last close_values in
    let* ratio := float_div (PrimFloat.sub end_price start_price) start_price in
    ret (Some (PrimFloat.mul ratio 100%float))
  else ret None.

Definition emit_series (stale_only : bool) (korean_name ticker : string)
    (cached_rows : list price_row) : M unit :=
  let cached_dates := map fst cached_rows in
  let close_values := map snd cached_rows in
  let* current_price := item_last close_values in
  let* change_pct := change_percent close_values in
  let result_row :=
    {| row_asset := korean_name; row_ticker := ticker;
       row_current := current_price; row_change := change_pct;
       row_closes := close_values |} in
  publish result_row cached_dates >>
  log_message (if stale_only then LogCacheDone korean_name ticker
               else LogFetchDone korean_name ticker).

(** ** Lines 191-248: one asset of the trading-day loop *)

Definition trading_body (w : world) (trading_days : nat)
    (force_refresh stale_only : bool) (asset : string * string) : M unit :=
  let korean_name := asset.1 in
  let ticker := asset.2 in
  let* cached_rows :=
    if stale_only then
      log_message (LogCacheLookup korean_name ticker) >>
      try_query (fetch_cached_last_n ticker trading_days)
    else
      log_message (LogFetchStart korean_name ticker) >>
      let* stock := yf_Ticker ticker in
      let* cached_rows := try_query (fetch_cached_last_n ticker trading_days) in
      (if force_refresh || (length cached_rows <? trading_days)%nat then
         let* hist := stock_history w stock (HistPeriod "1mo") in
         match hist with
         | [] => ret tt
         | _ => do_upsert w ticker (tail trading_days (sort_index hist))
         end
       else ret tt) >>
      try_query (fetch_cached_last_n ticker trading_days) in
  match cached_rows with
  | [] => continue
  | _ => emit_series stale_only korean_name ticker cached_rows
  end.

(** ** Lines 256-343: one asset of the calendar-window loop *)

(** [d + timedelta(days=1)]. *)
Definition next_day (d : date) : exn + date :=
  if d <? date_max then inr (d + 1) else inl OverflowError.

(** Lines 295-301: the fetch of one planned sub-window. *)
Definition fetch_range (w : world) (stock ticker : string)
    (range : date * date) : M unit :=
  let fetch_start := range.1 in
  let* fetch_end := lift (next_day range.2) in
  let* hist := stock_history w stock (HistRange fetch_start fetch_end) in
  match hist with
  | [] => ret tt
  | _ => do_upsert w ticker (sort_index hist)
  end.

Fixpoint for_each {A} (f : A -> M unit) (xs : list A) : M unit :=
  match xs with
  | [] => ret tt
  | x :: rest => f x >> for_each f rest
  end.

Definition calendar_body (w : world) (stale_only force_refresh : bool)
    (start_date end_date refresh_start : date) (asset : string * string)
    : M unit :=
  let korean_name := asset.1 in
  let ticker := asset.2 in
  let* stock_rows :=
    if stale_only then
      log_message (LogCacheLookup korean_name ticker) >>
      let* rows := query (fetch_cached_prices ticker start_date end_date) in
      ret (None, rows)
    else
      log_message (LogFetchStart korean_name ticker) >>
      let* stock := yf_Ticker ticker in
      let* rows := query (fetch_cached_prices ticker start_date end_date) in
      ret (Some stock, rows) in
  let stock : option string := stock_rows.1 in
  let cached_rows : list price_row := stock_rows.2 in
  let fetch_ranges :=
    plan_fetch_ranges stale_only force_refresh start_date end_date
      refresh_start cached_rows in
  let* cached_rows :=
    if negb stale_only then
      match stock with
      | None => continue
      | Some stock =>
        for_each (fetch_range w stock ticker) fetch_ranges >>
        let* rows := query (fetch_cached_prices ticker start_date end_date) in
        match rows with
        | [] => continue
        | _ => ret rows
        end
      end
    else ret cached_rows in
  emit_series stale_only korean_name ticker cached_rows.

(** ** [try: ... except Exception: log; continue] around each asset *)

Definition try_asset (body : string * string -> M unit) (st : state)
    (asset : string * string) : state :=
  match body asset st with
  | (st', Raised _) => (log_message (LogFailed asset.1 asset.2) st').1
  | (st', _) => st'
  end.

(** [for korean_name, ticker in assets.items()]: the items in dict order. *)
Definition for_assets (body : string * string -> M unit)
    (assets : list (string * string)) (st : state) : state :=
  foldl (try_asset body) st assets.

(** ** [parse_date] and [resolve_date_range] *)

Definition parse_date (w : world) (date_str : string) : exn + date :=
  match strptime_ymd w date_str with
  | Some d => inr d
  | None => inl ValueError
  end.

(** Truthiness of an optional string argument: neither [None] nor [""]. *)
Definition truthy_str (s : option string) : bool :=
  match s with
  | Some (String _ _) => true
  | _ => false
  end.

(** [period_map.get(period or "7d", 7)]. *)
Definition period_days (period : option string) : Z :=
  let key := if truthy_str period then default "7d"%string period
             else "7d"%string in
  if String.eqb key "7d" then 7
  else if String.eqb key "1mo" then 30
  else if String.eqb key "3mo" then 90
  else if String.eqb key "6mo" then 180
  else if String.eqb key "1y" then 365
  else 7.

Definition resolve_date_range (w : world) (period start end_ : option string)
    : exn + (date * date) :=
  if truthy_str start && truthy_str end_ then
    match parse_date w (default EmptyString start) with
    | inl e => inl e
    | inr s =>
      match parse_date w (default EmptyString end_) with
      | inl e => inl e
      | inr e => inr (s, e)
      end
    end
  else
    let days := period_days period in
    let end_date := today w in
    let start_date := end_date - days in
    inr (start_date, end_date).

(** ** [fetch_asset_history] *)

(** The four values returned. *)
Record outputs : Type := {
  out_results : list result_row;
  out_chart_data : gmap string (list float);
  out_chart_dates : gmap string (list date);
  out_chart_changes : gmap string (option float)
}.

Definition outputs_of (st : state) : outputs :=
  {| out_results := results st; out_chart_data := chart_data st;
     out_chart_dates := chart_dates st; out_chart_changes := chart_changes st |}.

(** The state at the top of [fetch_asset_history]: the table as found
    ([init_db] only creates it when absent), the four accumulators empty. *)
Definition initial_state (db0 : store) : state :=
  {| db := db0; upstream_calls := []; upserts := 0%nat; console := [];
     results := []; chart_data := ∅; chart_dates := ∅; chart_changes := ∅ |}.

(** Truthiness of [trading_days], a count: neither [None] nor [0]. *)
Definition truthy_days (trading_days : option nat) : option nat :=
  match trading_days with
  | Some (S n) => Some (S n)
  | _ => None
  end.

(** The final state, and what the call gives back: the exception that
    left it, or the four outputs. *)
Definition fetch_asset_history (w : world) (assets : list (string * string))
    (period start end_ : option string) (force_refresh : bool)
    (trading_days : option nat) (stale_only : bool) (db0 : store)
    : state * (exn + outputs) :=
  let st := initial_state db0 in
  match truthy_days trading_days with
  | Some n =>
    let st := for_assets (trading_body w n force_refresh stale_only) assets st in
    (st, inr (outputs_of st))
  | None =>
    match resolve_date_range w period start end_ with
    | inl e => (st, inl e)
    | inr (start_date, end_date) =>
      let refresh_start := refresh_start_of start_date end_date in
      let st :=
        for_assets
          (calendar_body w stale_only force_refresh start_date end_date
             refresh_start) assets st in
      (st, inr (outputs_of st))
    end
  end.

(** * Vocabulary of the properties *)

(** ** Fetch plans *)

(** What the two gap checks append for a non-empty slice of extent
    [[mn, mx]] in the window. *)
Definition gap_windows (s e mn mx : date) : list (date * date) :=
  (if s <? mn then [(s, mn - 1)] else []) ++
  (if mx <? e then [(mx + 1, e)] else []).

(** A sub-window that is not empty and lies in the window [[s, e]]. *)
Definition inside (s e : date) (range : date * date) : Prop :=
  s <= range.1 ∧ range.1 <= range.2 ∧ range.2 <= e.

(** The table already holds every bar the provider has to give for the
    ticker, whatever it is asked. *)
Definition fully_cached (w : world) (ticker : string) (db0 : store) : Prop :=
  ∀ req k hist, yf_history w ticker req k = inr hist →
    ∀ d c, (d, c) ∈ hist → ∃ ts, db0 !! (ticker, d) = Some (c, ts).

(** ** The table *)

(** The table without its [updated_at] column. *)
Definition closes_of (db0 : store) : gmap (string * Z) float := fst <$> db0.

(** The keyed rows of a frame, the last written first. *)
Definition keyed_rows (ticker : string) (hist : dataframe)
    : list ((string * Z) * float) :=
  reverse (map (fun r : date * float => ((ticker, r.1), r.2)) hist).

(** ** Computations *)

(** [keeps f m]: running [m] never changes the component [f] of the state,
    however it ends. *)
Definition keeps {X A : Type} (f : state → X) (m : M A) : Prop :=
  ∀ st, f (m st).1 = f st.

(** [grows m]: running [m] only adds lines to the console. *)
Definition grows {A : Type} (m : M A) : Prop :=
  ∀ st, console st `prefix_of` console (m st).1.

(** ** Series and outputs *)

(** The period change as the specification words it: null below two
    points, otherwise [(last - first) / first * 100]. *)
Definition period_change_percent (closes : list float) : option float :=
  if (length closes <? 2)%nat then None
  else
    let first_close := hd 0%float closes in
    let last_close := List.last closes 0%float in
    Some (PrimFloat.mul
            (PrimFloat.div (PrimFloat.sub last_close first_close) first_close)
            100%float).

(** The series of [rows] for an asset, as a row of [results]. *)
Definition series_row (korean_name ticker : string) (rows : list price_row)
    : result_row :=
  {| row_asset := korean_name; row_ticker := ticker;
     row_current := List.last (map snd rows) 0%float;
     row_change := period_change_percent (map snd rows);
     row_closes := map snd rows |}.

(** The outputs with one more series. *)
Definition add_series (row : result_row) (dates : list date) (o : outputs)
    : outputs :=
  {| out_results := out_results o ++ [row];
     out_chart_data := <[row_asset row := row_closes row]> (out_chart_data o);
     out_chart_dates := <[row_asset row := dates]> (out_chart_dates o);
     out_chart_changes := <[row_asset row := row_change row]> (out_chart_changes o) |}.

(** [emits name ticker m]: when [m] ends normally it has published exactly
    one series, that of some non-empty list of rows; when it ends by
    [continue] or by raising, the outputs are as before. *)
Definition emits (korean_name ticker : string) (m : M unit) : Prop :=
  ∀ st,
    match (m st).2 with
    | Normal _ =>
      ∃ rows, rows ≠ [] ∧
        outputs_of (m st).1 =
          add_series (series_row korean_name ticker rows) (map fst rows)
            (outputs_of st)
    | _ => outputs_of (m st).1 = outputs_of st
    end.

(** Every published series carries the change the formula gives. *)
Definition series_ok (o : outputs) : Prop :=
  (∀ row, row ∈ out_results o →
     row_change row = period_change_percent (row_closes row)) ∧
  (∀ name closes, out_chart_data o !! name = Some closes →
     out_chart_changes o !! name = Some (period_change_percent closes)).

(** No series of the outputs is under any name but [names]. *)
Definition names_within (names : list string) (o : outputs) : Prop :=
  (∀ row, row ∈ out_results o → row_asset row ∈ names) ∧
  (∀ n, is_Some (out_chart_data o !! n) → n ∈ names) ∧
  (∀ n, is_Some (out_chart_dates o !! n) → n ∈ names) ∧
  (∀ n, is_Some (out_chart_changes o !! n) → n ∈ names).

(** An asset is absent from all four outputs. *)
Definition absent (korean_name : string) (o : outputs) : Prop :=
  (∀ row, row ∈ out_results o → row_asset row ≠ korean_name) ∧
  out_chart_data o !! korean_name = None ∧
  out_chart_dates o !! korean_name = None ∧
  out_chart_changes o !! korean_name = None.

(** ** The loops *)

(** The loop body a call runs, or the exception that leaves the call before
    any asset is looked at (only [resolve_date_range] can raise there). *)
Definition loop_body (w : world) (period start end_ : option string)
    (force_refresh : bool) (trading_days : option nat) (stale_only : bool)
    : exn + (string * string → M unit) :=
  match truthy_days trading_days with
  | Some n => inr (trading_body w n force_refresh stale_only)
  | None =>
    match resolve_date_range w period start end_ with
    | inl e => inl e
    | inr (start_date, end_date) =>
      inr (calendar_body w stale_only force_refresh start_date end_date
             (refresh_start_of start_date end_date))
    end
  end.

(** The state after the handler of a failed asset: the failure line is
    printed and the loop goes on. *)
Definition after_failure (asset : string * string) (st : state) : state :=
  (log_message (LogFailed asset.1 asset.2) st).1.

(** The state of an asset's turn in the trading-day loop once the start
    line is printed and the [Ticker] built. *)
Definition turn_started (asset : string * string) (st : state) : state :=
  record_call (CallTicker asset.2)
    (log_message (LogFetchStart asset.1 asset.2) st).1.

(** The same once [stock.history(period="1mo")] has been asked. *)
Definition month_asked (asset : string * string) (st : state) : state :=
  record_call (CallHistory asset.2 (HistPeriod "1mo")) (turn_started asset st).

(** The end of that turn: the last [n] cached rows are read again and the
    series built from them, the asset being passed over when there are none. *)
Definition reread_last_n (n : nat) (asset : string * string) : M unit :=
  let* cached_rows := try_query (fetch_cached_last_n asset.2 n) in
  match cached_rows with
  | [] => continue
  | _ => emit_series false asset.1 asset.2 cached_rows
  end.

(** ** Example data *)

(** A table with one row of ticker ["X"], on day 5. *)
Definition db_one_row : store :=
  <[("X"%string, 5) := (100%float, "2024-01-01 00:00:00"%string)]> ∅.

(** A table with rows of ["X"] on days 1 and 10. *)
Definition db_full_window : store :=
  <[("X"%string, 1) := (100%float, "2024-01-01 00:00:00"%string)]>
    (<[("X"%string, 10) := (110%float, "2024-01-01 00:00:00"%string)]> ∅).

(** A world: today is day 100, the date parser knows two strings, and
    yfinance fails for ticker ["B"], answers one bar without a close (NaN)
    for ticker ["N"], and otherwise three bars. *)
Definition world_example : world :=
  {| today := 100;
     now_str := fun _ => "2024-01-08 09:00:00"%string;
     strptime_ymd := fun s =>
       if String.eqb s "2024-01-01" then Some 1
       else if String.eqb s "2024-01-10" then Some 10
       else None;
     yf_history := fun ticker _ _ =>
       if String.eqb ticker "B" then inl (UpstreamError "no data")
       else if String.eqb ticker "N" then inr [(4, PrimFloat.nan)]
       else inr [(3, 110%float); (2, 100%float); (5, 99%float)] |}.

(** A provider with bars for days 2, 5 and 10 only, answering a request
    with those of the days asked; and the table that holds them all. *)
Definition bars_after_holiday : dataframe :=
  [(2, 100%float); (5, 102%float); (10, 104%float)].

Definition world_holiday : world :=
  {| today := 100;
     now_str := fun _ => "2024-01-08 09:00:00"%string;
     strptime_ymd := strptime_ymd world_example;
     yf_history := fun _ req _ =>
       match req with
       | HistPeriod _ => inr bars_after_holiday
       | HistRange fetch_start fetch_end =>
         inr (filter (fun bar : date * float => fetch_start <= bar.1 < fetch_end)
                bars_after_holiday)
       end |}.

Definition db_after_holiday : store :=
  write_rows "2024-01-01 00:00:00" "X" bars_after_holiday ∅.

Definition assets_example : list (string * string) :=
  [("a", "A"); ("b", "B"); ("c", "C")]%string.

(** The same with an asset whose bars the table refuses. *)
Definition assets_with_failures : list (string * string) :=
  [("a", "A"); ("b", "B"); ("n", "N"); ("c", "C")]%string.

(** The calendar-window body of the window [[1, 10]] under Live, and the
    state in which asset ["b"] takes its turn. *)
Definition body_example : string * string → M unit :=
  calendar_body world_example false false 1 10 (refresh_start_of 1 10).

Definition state_before_b : state :=
  for_assets body_example [("a", "A")]%string (initial_state ∅).

(** ** Cache reads *)

(** Strictly ascending by date: ascending, one row per date. *)
Definition date_lt (r1 r2 : price_row) : Prop := r1.1 < r2.1.

(** Every row of a ticker, oldest first. *)
Definition all_cached (ticker : string) (db0 : store) : list price_row :=
  merge_sort date_asc (ticker_rows ticker db0).

(** ** Upstream requests *)

(** The request [stock.history(start=, end=)] made for a planned
    sub-window: its end is exclusive, hence one day later. *)
Definition range_request (stock : string) (range : date * date) : upstream_call :=
  CallHistory stock (HistRange range.1 (range.2 + 1)).

Definition is_history (c : upstream_call) : bool :=
  match c with
  | CallHistory _ _ => true
  | CallTicker _ => false
  end.

(** The number of [stock.history] calls among the calls made. *)
Definition history_count (calls : list upstream_call) : nat :=
  length (filter (fun c => is_history c = true) calls).

(** A call the calendar-window loop may make for the window [[s, e]]: a
    [Ticker] of one of the tickers, or a history request for one of them
    over days of the window only. *)
Definition call_within (s e : date) (tickers : list string)
    (c : upstream_call) : Prop :=
  match c with
  | CallTicker t => t ∈ tickers
  | CallHistory t (HistRange fetch_start fetch_end) =>
    t ∈ tickers ∧ s <= fetch_start ∧ fetch_start < fetch_end ∧ fetch_end <= e + 1
  | CallHistory _ (HistPeriod _) => False
  end.

(** A call the trading-day loop may make: a [Ticker] of one of the tickers,
    or its trailing month. *)
Definition call_of_month (tickers : list string) (c : upstream_call) : Prop :=
  match c with
  | CallTicker t => t ∈ tickers
  | CallHistory t (HistPeriod p) => t ∈ tickers ∧ p = "1mo"%string
  | CallHistory _ (HistRange _ _) => False
  end.

(** [follows R m]: running [m] takes every state to one related to it by
    [R], however it ends. *)
Definition follows (R : relation state) {A : Type} (m : M A) : Prop :=
  ∀ st, R st (m st).1.

(** Between two states the table changed by writes for [tickers] only:
    every key holds what it held, or is of one of the tickers and holds
    a row. *)
Definition writes_only (tickers : list string) (st st' : state) : Prop :=
  ∀ k : string * Z,
    db st' !! k = db st !! k ∨ (k.1 ∈ tickers ∧ is_Some (db st' !! k)).

(** The four outputs agree with each other: the three chart dicts have the
    same keys, and under each key lie a non-empty close list, as many dates,
    and the change of a row of [results] with that name and those closes;
    every row of [results] is non-empty, shows its last close as current
    price, and has its name among the chart keys. *)
Definition outputs_agree (o : outputs) : Prop :=
  (∀ row, row ∈ out_results o →
     row_closes row ≠ [] ∧
     last (row_closes row) = Some (row_current row) ∧
     is_Some (out_chart_data o !! row_asset row)) ∧
  (∀ name closes, out_chart_data o !! name = Some closes →
     closes ≠ [] ∧
     (∃ dates, out_chart_dates o !! name = Some dates ∧
               length dates = length closes) ∧
     (∃ row, row ∈ out_results o ∧ row_asset row = name ∧
             row_closes row = closes ∧
             out_chart_changes o !! name = Some (row_change row))) ∧
  dom (out_chart_dates o) = dom (out_chart_data o) ∧
  dom (out_chart_changes o) = dom (out_chart_data o).

(** ** [build_assets_payload] *)

(** One dict of the payload: ["name"], ["ticker"], ["dates"], ["close"],
    ["current"], ["change_pct"]. *)
Record payload_entry : Type := {
  entry_name : string;
  entry_ticker : string;
  entry_dates : list date;
  entry_close : list float;
  entry_current : float;
  entry_change_pct : option float
}.

(** One turn of the loop of lines 350-365.  [chart_changes.get(name)] is
    [None] for a missing key as for a stored [None]; [closes[-1]] is taken
    of a list the guard above it has found non-empty. *)
Definition payload_step (chart_data : gmap string (list float))
    (chart_dates : gmap string (list date))
    (chart_changes : gmap string (option float))
    (assets_payload : list payload_entry) (item : string * string)
    : list payload_entry :=
  let name := item.1 in
  let ticker := item.2 in
  match chart_data !! name with
  | None => assets_payload
  | Some _ =>
    let dates := default [] (chart_dates !! name) in
    let closes := default [] (chart_data !! name) in
    match dates, closes with
    | _ :: _, _ :: _ =>
      let current := List.last closes 0%float in
      assets_payload ++
        [{| entry_name := name; entry_ticker := ticker; entry_dates := dates;
            entry_close := closes; entry_current := current;
            entry_change_pct := default None (chart_changes !! name) |}]
    | _, _ => assets_payload
    end
  end.

Definition build_assets_payload (assets_map : list (string * string))
    (chart_data : gmap string (list float))
    (chart_dates : gmap string (list date))
    (chart_changes : gmap string (option float)) : list payload_entry :=
  foldl (payload_step chart_data chart_dates chart_changes) [] assets_map.

(** The payload built from the outputs of a batch. *)
Definition payload_of (assets_map : list (string * string)) (o : outputs)
    : list payload_entry :=
  build_assets_payload assets_map (out_chart_data o) (out_chart_dates o)
    (out_chart_changes o).

(** An entry of the payload read as a row of [results]. *)
Definition entry_row (entry : payload_entry) : result_row :=
  {| row_asset := entry_name entry; row_ticker := entry_ticker entry;
     row_current := entry_current entry; row_change := entry_change_pct entry;
     row_closes := entry_close entry |}.

(** A series can be built from a slice: the slice is not empty and, when it
    has two points or more, its first close is not zero. *)
Definition servable (rows : list price_row) : bool :=
  match map snd rows with
  | [] => false
  | [_] => true
  | first_close :: _ => negb (PrimFloat.eqb first_close 0%float)
  end.

(** The slice a request is about, read from a given table: the last [n]
    rows in trading-day mode (none when the count cannot be bound), the
    rows of the resolved window otherwise (none when the window does not
    resolve).  The window is one of four-digit years: before the year 1000
    [strftime] may leave the year unpadded, and the order of the text the
    table compares is no longer that of the calendar. *)
Definition requested_slice (w : world) (period start end_ : option string)
    (trading_days : option nat) (ticker : string) (db0 : store)
    : option (list price_row) :=
  match truthy_days trading_days with
  | Some n =>
    match fetch_cached_last_n ticker n db0 with
    | inr rows => Some rows
    | inl _ => None
    end
  | None =>
    match resolve_date_range w period start end_ with
    | inl _ => None
    | inr (start_date, end_date) =>
      if (year_1000 <=? start_date) && (year_1000 <=? end_date)
      then Some (fetch_cached_prices ticker start_date end_date db0)
      else None
    end
  end.

(** ** The asset registry and the [/api/prices] handler *)

(** [ASSETS], lines 22-33: display name (UTF-8) to ticker, in dict order. *)
Definition ASSETS : list (string * string) :=
  [("아이렌", "IREN"); ("로켓랩", "RKLB"); ("비트코인", "BTC-USD");
   ("이더리움", "ETH-USD"); ("원달러환율", "KRW=X"); ("금", "GC=F");
   ("은", "SI=F"); ("구리", "HG=F"); ("나스닥100", "^IXIC");
   ("S&P500", "^GSPC")]%string.

(** The two functions of Python's [str] and [int] the handler relies on:
    [s.strip()], and [int(s)] ([None]: it raises [ValueError]). *)
Record python : Type := {
  str_strip : string -> string;
  int_of_str : string -> option Z
}.

(** [s.split(",")]: the pieces between the commas, never an empty list. *)
Fixpoint split_comma (s : string) : list string :=
  match s with
  | EmptyString => [EmptyString]
  | String c rest =>
    if String.eqb (String c EmptyString) "," then EmptyString :: split_comma rest
    else
      match split_comma rest with
      | piece :: pieces => String c piece :: pieces
      | [] => [String c EmptyString]
      end
  end.

(** Truthiness of a string: not empty. *)
Definition nonempty_str (s : string) : bool :=
  match s with
  | EmptyString => false
  | String _ _ => true
  end.

(** Lines 1440-1444: [requested], the stripped non-empty pieces of the
    [assets] argument, and the entries of [ASSETS] whose ticker is one of
    them; all of [ASSETS] when the argument is missing or empty. *)
Definition requested_tickers (py : python) (assets_filter : string)
    : list string :=
  map (str_strip py)
    (filter (fun item => nonempty_str (str_strip py item) = true)
       (split_comma assets_filter)).

Definition select_assets (py : python) (assets_filter : option string)
    : list (string * string) :=
  if truthy_str assets_filter then
    let requested := requested_tickers py (default EmptyString assets_filter) in
    filter (fun item : string * string => item.2 ∈ requested) ASSETS
  else ASSETS.

(** The query arguments [request.args.get(...)] reads. *)
Record request_args : Type := {
  arg_period : option string;
  arg_start : option string;
  arg_end : option string;
  arg_assets : option string;
  arg_refresh : option string;
  arg_trading_days : option string;
  arg_stale : option string
}.

(** Lines 1447-1454: [trading_days_value], when the argument is not empty
    and [int] accepts it: [max(1, int(trading_days))]. *)
Definition trading_days_value (py : python) (trading_days : option string)
    : option nat :=
  if truthy_str trading_days then
    match int_of_str py (default EmptyString trading_days) with
    | Some k => Some (Z.to_nat (Z.max 1 k))
    | None => None
    end
  else None.

(** ["range_label"]: the trading-day count, the explicit range, the period
    tag, or (a stale answer with nothing cached) the no-cache notice. *)
Inductive range_label : Type :=
| LabelTradingDays (n : nat)
| LabelExplicit
| LabelPeriod (period : string)
| LabelNoCache.

(** The text of a label, as the JSON body carries it: [f"최근 {n} 거래일"],
    ["기간 지정"], the period tag itself, ["캐시 없음"].  A period tag is
    whatever text the request gave. *)
Definition no_cache_text : string := "캐시 없음".

Definition label_text (label : range_label) : string :=
  match label with
  | LabelTradingDays n =>
    "최근 " +:+ DecimalString.NilEmpty.string_of_uint (Nat.to_uint n)
      +:+ " 거래일"
  | LabelExplicit => "기간 지정"
  | LabelPeriod period => period
  | LabelNoCache => no_cache_text
  end.

Inductive answer_source : Type := FromCache | FromLive.

Record response_meta : Type := {
  meta_start : option string;
  meta_end : option string;
  meta_period : option string;
  meta_trading_days : option nat;
  meta_range_label : range_label;
  meta_stale : bool;
  meta_source : answer_source
}.

(** The JSON body: ["assets"] and ["meta"]. *)
Record response : Type := {
  resp_assets : list payload_entry;
  resp_meta : response_meta
}.

(** [arg == "true"]. *)
Definition is_true_arg (arg : option string) : bool :=
  match arg with
  | Some s => String.eqb s "true"
  | None => false
  end.

(** Lines 1420-1522, the request line of the log left out.  The state is
    that of the one [fetch_asset_history] call made; an exception of that
    call leaves the handler as it is. *)
Definition api_prices (py : python) (w : world) (args : request_args)
    (db0 : store) : state * (exn + response) :=
  let period := arg_period args in
  let start := arg_start args in
  let end_ := arg_end args in
  let assets_map := select_assets py (arg_assets args) in
  let use_start_end := truthy_str start && truthy_str end_ in
  let days := trading_days_value py (arg_trading_days args) in
  let use_trading_days := bool_decide (is_Some days) in
  let period_or_7d :=
    if truthy_str period then default "7d"%string period else "7d"%string in
  let period_arg :=
    if use_start_end || use_trading_days then None else Some period_or_7d in
  let start_arg := if use_start_end then start else None in
  let end_arg := if use_start_end then end_ else None in
  let days_arg := if use_trading_days then days else None in
  let label :=
    match days with
    | Some n => LabelTradingDays n
    | None => if use_start_end then LabelExplicit else LabelPeriod period_or_7d
    end in
  let meta (label : range_label) (stale : bool) (source : answer_source) :=
    {| meta_start := start; meta_end := end_; meta_period := period_arg;
       meta_trading_days := days_arg; meta_range_label := label;
       meta_stale := stale; meta_source := source |} in
  if is_true_arg (arg_stale args) then
    match fetch_asset_history w assets_map period_arg start_arg end_arg false
            days_arg true db0 with
    | (st, inl e) => (st, inl e)
    | (st, inr outs) =>
      let cached_payload := payload_of assets_map outs in
      match cached_payload with
      | _ :: _ =>
        (st, inr {| resp_assets := cached_payload;
                    resp_meta := meta label true FromCache |})
      | [] =>
        (st, inr {| resp_assets := [];
                    resp_meta := meta LabelNoCache true FromCache |})
      end
    end
  else
    match fetch_asset_history w assets_map period_arg start_arg end_arg
            (is_true_arg (arg_refresh args)) days_arg false db0 with
    | (st, inl e) => (st, inl e)
    | (st, inr outs) =>
      (st, inr {| resp_assets := payload_of assets_map outs;
                  resp_meta := meta label false FromLive |})
    end.

(** The label a request asks for, by its arguments. *)
Definition request_label (py : python) (args : request_args) : range_label :=
  match trading_days_value py (arg_trading_days args) with
  | Some n => LabelTradingDays n
  | None =>
    if truthy_str (arg_start args) && truthy_str (arg_end args)
    then LabelExplicit
    else LabelPeriod (if truthy_str (arg_period args)
                      then default "7d"%string (arg_period args)
                      else "7d"%string)
  end.

(** Arguments and library functions for the examples: [int] knows ["0"]
    and ["5"], [strip] finds nothing to strip. *)
Definition python_example : python :=
  {| str_strip := fun s => s;
     int_of_str := fun s =>
       if String.eqb s "0" then Some 0
       else if String.eqb s "5" then Some 5 else None |}.

Definition args_example : request_args :=
  {| arg_period := None; arg_start := Some "yesterday"%string;
     arg_end := Some "today"%string; arg_assets := Some "IREN,GC=F"%string;
     arg_refresh := None; arg_trading_days := Some "0"%string;
     arg_stale := None |}.

(** ** [load_env_file] *)

(** [s.startswith("#")]. *)
Definition starts_with_hash (s : string) : bool :=
  match s with
  | String c _ => String.eqb (String c EmptyString) "#"
  | EmptyString => false
  end.

(** [line.split("=", 1)] of a line that holds ["="]: what is before the
    first ["="] and what is after it; [None] when ["=" not in line]. *)
Fixpoint split_first_eq (line : string) : option (string * string) :=
  match line with
  | EmptyString => None
  | String c rest =>
    if String.eqb (String c EmptyString) "=" then Some (EmptyString, rest)
    else
      match split_first_eq rest with
      | Some (key, value) => Some (String c key, value)
      | None => None
      end
  end.

(** [s.strip(ch)] for a one-character [ch]: the leading and the trailing
    occurrences of the character are removed. *)
Fixpoint lstrip_char (ch : string) (s : string) : string :=
  match s with
  | String c rest =>
    if String.eqb (String c EmptyString) ch then lstrip_char ch rest else s
  | EmptyString => EmptyString
  end.

Fixpoint rstrip_char (ch : string) (s : string) : string :=
  match s with
  | String c rest =>
    match rstrip_char ch rest with
    | EmptyString =>
      if String.eqb (String c EmptyString) ch then EmptyString
      else String c EmptyString
    | kept => String c kept
    end
  | EmptyString => EmptyString
  end.

Definition strip_char (ch : string) (s : string) : string :=
  rstrip_char ch (lstrip_char ch s).

(** The one-character strings of the two quotes. *)
Definition double_quote : string := String (Ascii.ascii_of_nat 34) EmptyString.
Definition single_quote : string := "'".

(** Lines 46-51: the key and the value a line gives; [None] for a line
    that is passed over (blank, a comment, or without ["="]). *)
Definition parse_env_line (py : python) (line : string)
    : option (string * string) :=
  let line := str_strip py line in
  if negb (nonempty_str line) || starts_with_hash line then None
  else
    match split_first_eq line with
    | None => None
    | Some (key, value) =>
      let key := str_strip py key in
      let value :=
        strip_char single_quote (strip_char double_quote (str_strip py value)) in
      Some (key, value)
    end.

(** Lines 52-53: [if key and key not in os.environ: os.environ[key] = value]. *)
Definition load_env_step (py : python) (environ : gmap string string)
    (line : string) : gmap string string :=
  match parse_env_line py line with
  | None => environ
  | Some (key, value) =>
    if nonempty_str key && negb (bool_decide (is_Some (environ !! key)))
    then <[key := value]> environ
    else environ
  end.

(** The loop over the lines read from the file. *)
Definition load_env_lines (py : python) (lines : list string)
    (environ : gmap string string) : gmap string string :=
  foldl (load_env_step py) environ lines.

(** [load_env_file]: nothing when the path is no file or cannot be opened
    ([None]); otherwise the loop over its lines. *)
Definition load_env_file (py : python) (file : option (list string))
    (environ : gmap string string) : gmap string string :=
  match file with
  | None => environ
  | Some lines => load_env_lines py lines environ
  end.

(** What a file asks to set: the parsed lines with a non-empty key. *)
Definition env_bindings (py : python) (lines : list string)
    : list (string * string) :=
  filter (fun kv : string * string => nonempty_str kv.1 = true)
    (omap (parse_env_line py) lines).

(** A line of an env file that sets [API_KEY] to a quoted value holding
    ["="]. *)
Definition env_line_example : string :=
  "API_KEY" +:+ "=" +:+ double_quote +:+ "a=b" +:+ double_quote.

(** ** [get_db_stats] *)

(** [ORDER BY ticker]: text in byte order. *)
Definition ticker_le (t1 t2 : string) : Prop := String.leb t1 t2 = true.

#[global] Instance ticker_le_dec t1 t2 : Decision (ticker_le t1 t2).
Proof. unfold ticker_le. apply _. Defined.

(** The tickers that have a row, each once, in order. *)
Definition cached_tickers (db0 : store) : list string :=
  merge_sort ticker_le
    (remove_dups (map (fun kv : (string * Z) * (float * string) => kv.1.1)
                    (map_to_list db0))).

(** [SELECT ticker, COUNT( * ), MIN(date), MAX(date) FROM asset_prices
     GROUP BY ticker ORDER BY ticker]: one row per ticker that has rows. *)
Definition get_db_stats (db0 : store) : list (string * nat * date * date) :=
  omap (fun ticker =>
          let dates := map fst (ticker_rows ticker db0) in
          match cached_min dates, cached_max dates with
          | Some min_date, Some max_date =>
            Some (ticker, length dates, min_date, max_date)
          | _, _ => None
          end)
       (cached_tickers db0).

(** ** [get_weekly_closing_prices]: the console report *)

(** The lines the report prints before its table. *)
Inductive report_line : Type :=
| LineSearching
| LineAsset (name : string) (current : float) (change : option float)
| LineNoData.

(** [for row in results: if row[asset] == korean_name: ...; break]. *)
Fixpoint first_row_of (korean_name : string) (results : list result_row)
    : option result_row :=
  match results with
  | [] => None
  | row :: rest =>
    if String.eqb (row_asset row) korean_name then Some row
    else first_row_of korean_name rest
  end.

Definition line_of_row (row : result_row) : report_line :=
  LineAsset (row_asset row) (row_current row) (row_change row).

(** The outer loop over [ASSETS.keys()]. *)
Definition asset_lines (assets : list (string * string))
    (results : list result_row) : list report_line :=
  omap (fun korean_name =>
          (fun row => LineAsset korean_name (row_current row) (row_change row))
            <$> first_row_of korean_name results)
       (map fst assets).

(** Lines 377-389: the batch for the last seven days, the lines printed
    after it, and whether the function goes on to the table, the CSV file
    and the chart ([true]) or returns after the no-data line ([false]). *)
Definition get_weekly_closing_prices (w : world) (db0 : store)
    : state * (exn + (list report_line * bool)) :=
  let run :=
    fetch_asset_history w ASSETS (Some "7d"%string) None None false None false
      db0 in
  match run.2 with
  | inl e => (run.1, inl e)
  | inr outs =>
    let lines := LineSearching :: asset_lines ASSETS (out_results outs) in
    match out_results outs with
    | [] => (run.1, inr (lines ++ [LineNoData], false))
    | _ :: _ => (run.1, inr (lines, true))
    end
  end.

(** * Properties *)

(** ** The cache slice and its extent *)

Lemma fetch_cached_prices_window (ticker : string) (s e : date) (db0 : store)
    (r : price_row) :
  r ∈ fetch_cached_prices ticker s e db0 → s <= r.1 <= e.
Proof.
  unfold fetch_cached_prices. rewrite merge_sort_Permutation.
  intros [H _]%list_elem_of_filter. exact H.
Qed.

Lemma foldl_min_between (s e d : Z) (rest : list Z) :
  s <= d <= e → Forall (fun x => s <= x <= e) rest →
  s <= foldl Z.min d rest <= e.
Proof.
  intros Hd Hrest. revert d Hd.
  induction Hrest as [|x rest Hx _ IH]; intros d Hd; simpl; [lia|].
  apply IH. lia.
Qed.

Lemma foldl_max_between (s e d : Z) (rest : list Z) :
  s <= d <= e → Forall (fun x => s <= x <= e) rest →
  s <= foldl Z.max d rest <= e.
Proof.
  intros Hd Hrest. revert d Hd.
  induction Hrest as [|x rest Hx _ IH]; intros d Hd; simpl; [lia|].
  apply IH. lia.
Qed.

(** The extent of a non-empty slice lies inside the window. *)
Lemma slice_extent (ticker : string) (s e : date) (db0 : store)
    (r : price_row) (rows : list price_row) :
  fetch_cached_prices ticker s e db0 = r :: rows →
  ∃ mn mx,
    cached_min (map fst (r :: rows)) = Some mn ∧
    cached_max (map fst (r :: rows)) = Some mx ∧
    s <= mn <= e ∧ s <= mx <= e.
Proof.
  intros Hrows.
  assert (Hall : Forall (fun x => s <= x <= e) (map fst (r :: rows))).
  { apply Forall_forall. intros d Hd.
    apply list_elem_of_fmap in Hd as [r' [-> Hr']].
    apply (fetch_cached_prices_window ticker s e db0). by rewrite Hrows. }
  simpl in Hall. inversion Hall as [|d ds Hd Hds]; subst.
  eexists _, _. split; [reflexivity|]. split; [reflexivity|].
  split; [by apply foldl_min_between | by apply foldl_max_between].
Qed.

Lemma add_range_kept (rs re : date) (fr : list (date * date)) :
  rs <= re → add_range rs re fr = fr ++ [(rs, re)].
Proof.
  intros H. unfold add_range.
  destruct (Z.ltb_spec re rs); [lia | reflexivity].
Qed.

Lemma plan_nonempty_slice (force_refresh : bool) (s e rs : date)
    (r : price_row) (rows : list price_row) (mn mx : date) :
  cached_min (map fst (r :: rows)) = Some mn →
  cached_max (map fst (r :: rows)) = Some mx →
  plan_fetch_ranges false force_refresh s e rs (r :: rows) =
    (if force_refresh then add_range s e [] else add_range rs e []) ++
    gap_windows s e mn mx.
Proof.
  intros Hmn Hmx. unfold plan_fetch_ranges. cbv zeta.
  rewrite Hmn, Hmx. unfold gap_windows. simpl negb. cbv iota.
  set (fr := if force_refresh then _ else _).
  destruct (Z.ltb_spec s mn) as [H1|H1], (Z.ltb_spec mx e) as [H2|H2].
  - rewrite !add_range_kept by lia. by rewrite <- app_assoc.
  - rewrite add_range_kept by lia. by rewrite app_nil_r.
  - rewrite add_range_kept by lia. reflexivity.
  - by rewrite app_nil_r.
Qed.

Lemma gap_windows_inside (s e mn mx : date) :
  s <= mn <= e → s <= mx <= e → Forall (inside s e) (gap_windows s e mn mx).
Proof.
  intros Hmn Hmx. unfold gap_windows. apply Forall_app. split.
  - destruct (Z.ltb_spec s mn); constructor; [|constructor].
    unfold inside; simpl; lia.
  - destruct (Z.ltb_spec mx e); constructor; [|constructor].
    unfold inside; simpl; lia.
Qed.

(** The plan, by the two cases of the slice: what the policy puts first,
    then [[start, end]] for an empty slice and the gaps otherwise, a
    sub-window whose start is after its end being dropped by [add_range]. *)
Lemma plan_shape (force_refresh : bool) (ticker : string)
    (start_date end_date : date) (db0 : store) :
  let rows := fetch_cached_prices ticker start_date end_date db0 in
  let plan := planned_ranges false force_refresh start_date end_date ticker db0 in
  let first :=
    if force_refresh then add_range start_date end_date []
    else add_range (refresh_start_of start_date end_date) end_date [] in
  match cached_min (map fst rows), cached_max (map fst rows) with
  | Some mn, Some mx =>
    rows ≠ [] ∧ start_date <= mn <= end_date ∧ start_date <= mx <= end_date ∧
    plan = first ++ gap_windows start_date end_date mn mx
  | _, _ =>
    rows = [] ∧ plan = first ++ add_range start_date end_date []
  end.
Proof.
  intros rows plan first. subst plan first. unfold planned_ranges. fold rows.
  destruct rows as [|r rows'] eqn:Hrows.
  - simpl. split; [reflexivity|]. unfold plan_fetch_ranges. simpl.
    destruct force_refresh; unfold add_range;
      repeat match goal with |- context [?a <? ?b] => destruct (a <? b) end;
      by rewrite ?app_nil_r.
  - destruct (slice_extent _ _ _ _ _ _ Hrows) as (mn & mx & Hmn & Hmx & Bmn & Bmx).
    rewrite (plan_nonempty_slice force_refresh _ _ _ _ _ mn mx Hmn Hmx).
    rewrite Hmn, Hmx. split; [discriminate|]. done.
Qed.

(** C1 read as written: under ForceRefresh the plan is [[start, end]] and
    nothing else.  With one cached row in the middle of the window the two
    gaps are planned besides, and with nothing cached [[start, end]] is
    planned twice. *)
Lemma force_refresh_plans_gaps_too :
  planned_ranges false true 1 10 "X" db_one_row = [(1, 10); (1, 4); (6, 10)] ∧
  planned_ranges false true 1 10 "X" db_one_row ≠ [(1, 10)] ∧
  planned_ranges false true 1 10 "X" ∅ = [(1, 10); (1, 10)].
Proof.
  split; [vm_compute; reflexivity|].
  split; [vm_compute; discriminate | vm_compute; reflexivity].
Qed.

(** C1, amended: in calendar-window mode under ForceRefresh (StaleOnly off)
    the plan begins with [[start, end]], which does not supersede the other
    rules: it is followed by [[start, end]] a second time when the slice of
    the window is empty, and otherwise by the left gap
    [[start, extentMin - 1]] when [extentMin > start] and the right gap
    [[extentMax + 1, end]] when [extentMax < end].  As everywhere in the
    plan a sub-window whose start is after its end is dropped, and every
    planned sub-window lies inside [[start, end]]. *)
Theorem force_refresh_plan (ticker : string) (start_date end_date : date)
    (db0 : store) :
  let rows := fetch_cached_prices ticker start_date end_date db0 in
  let plan := planned_ranges false true start_date end_date ticker db0 in
  plan = add_range start_date end_date [] ++
           match cached_min (map fst rows), cached_max (map fst rows) with
           | Some mn, Some mx => gap_windows start_date end_date mn mx
           | _, _ => add_range start_date end_date []
           end
  ∧ (rows = [] ↔ cached_min (map fst rows) = None)
  ∧ (start_date <= end_date → head plan = Some (start_date, end_date))
  ∧ Forall (inside start_date end_date) plan.
Proof.
  intros rows plan.
  pose proof (plan_shape true ticker start_date end_date db0) as H.
  cbv zeta in H. fold rows in H. fold plan in H.
  assert (Hfirst : Forall (inside start_date end_date)
                     (add_range start_date end_date [])).
  { unfold add_range. destruct (Z.ltb_spec end_date start_date);
      repeat constructor; simpl; lia. }
  assert (Hhead : ∀ rest, start_date <= end_date →
            head (add_range start_date end_date [] ++ rest)
              = Some (start_date, end_date)).
  { intros rest Hse. by rewrite add_range_kept. }
  destruct (cached_min (map fst rows)) as [mn|] eqn:Hmn.
  - destruct (cached_max (map fst rows)) as [mx|] eqn:Hmx.
    + destruct H as (Hne & Bmn & Bmx & ->).
      split; [reflexivity|]. split; [split; [done|discriminate]|].
      split; [apply Hhead|].
      apply Forall_app. split; [exact Hfirst | by apply gap_windows_inside].
    + destruct H as [Hrows ->]. rewrite Hrows in Hmn. discriminate.
  - assert (Hplan : plan = add_range start_date end_date [] ++
                             add_range start_date end_date []).
    { by destruct (cached_max (map fst rows)); destruct H as [_ ->]. }
    assert (Hrows : rows = []).
    { by destruct (cached_max (map fst rows)); destruct H as [-> _]. }
    rewrite Hplan.
    replace (match cached_max (map fst rows) with
             | Some _ | _ => add_range start_date end_date []
             end) with (add_range start_date end_date [])
      by (by destruct (cached_max (map fst rows))).
    split; [reflexivity|]. split; [done|]. split; [apply Hhead|].
    apply Forall_app. by split.
Qed.

(** C2: in calendar-window mode under Live the plan is the most-recent-day
    window followed by what the slice of the window asks for: [[start, end]]
    in full when the slice is empty; otherwise the two gap checks, applied
    independently, the left gap [[start, extentMin - 1]] being planned
    exactly when [extentMin > start] and the right gap [[extentMax + 1, end]]
    exactly when [extentMax < end].  (A sub-window whose start is after its
    end is dropped, which for a window given with [start > end] leaves
    nothing of [[start, end]].) *)
Theorem live_plan_gaps (ticker : string) (start_date end_date : date)
    (db0 : store) :
  let rows := fetch_cached_prices ticker start_date end_date db0 in
  let plan := planned_ranges false false start_date end_date ticker db0 in
  let recent := add_range (refresh_start_of start_date end_date) end_date [] in
  match cached_min (map fst rows), cached_max (map fst rows) with
  | Some mn, Some mx =>
    rows ≠ [] ∧
    plan = recent ++ gap_windows start_date end_date mn mx ∧
    ((start_date, mn - 1) ∈ plan ↔ start_date < mn) ∧
    ((mx + 1, end_date) ∈ plan ↔ mx < end_date)
  | _, _ =>
    rows = [] ∧ plan = recent ++ add_range start_date end_date [] ∧
    (start_date <= end_date → (start_date, end_date) ∈ plan)
  end.
Proof.
  intros rows plan recent.
  pose proof (plan_shape false ticker start_date end_date db0) as H.
  cbv zeta in H. fold rows in H. fold plan in H. fold recent in H.
  assert (Hempty : rows = [] ∧ plan = recent ++ add_range start_date end_date [] →
            rows = [] ∧ plan = recent ++ add_range start_date end_date [] ∧
            (start_date <= end_date → (start_date, end_date) ∈ plan)).
  { intros [Hrows Hplan]. split; [done|]. split; [done|]. intros Hse.
    rewrite Hplan, add_range_kept by done.
    apply elem_of_app. right. apply list_elem_of_here. }
  destruct (cached_min (map fst rows)) as [mn|]; [|by apply Hempty].
  destruct (cached_max (map fst rows)) as [mx|]; [|by apply Hempty].
  destruct H as (Hne & Bmn & Bmx & Hplan).
  split; [exact Hne|]. split; [exact Hplan|].
  rewrite Hplan. subst recent. unfold refresh_start_of.
  rewrite add_range_kept by lia. unfold gap_windows.
  destruct (Z.ltb_spec start_date mn), (Z.ltb_spec mx end_date); simpl;
    rewrite ?elem_of_cons, ?elem_of_nil; split; split; try lia.
  all: try solve [intros _; auto 6].
  all: intros H'; decompose [or] H'; clear H'; simplify_eq; lia.
Qed.

(** C4 read as written: under Live a window that is already fully cached
    gets the most-recent-day window planned and nothing else.  Here the
    provider has bars for days 2, 5 and 10 of the window [[1, 10]] (day 1
    saw no trading), today is day 100, and the table holds every bar the
    provider has: the plan still holds the left gap [[1, 1]], and the batch
    asks yfinance for it, to no effect on the table. *)
Lemma fully_cached_window_plans_a_gap :
  let run :=
    fetch_asset_history world_holiday [("x", "X")]%string None
      (Some "2024-01-01"%string) (Some "2024-01-10"%string) false None false
      db_after_holiday in
  fully_cached world_holiday "X" db_after_holiday ∧
  planned_ranges false false 1 10 "X" db_after_holiday = [(9, 10); (1, 1)] ∧
  planned_ranges false false 1 10 "X" db_after_holiday
    ≠ [(refresh_start_of 1 10, 10)] ∧
  filter (fun c => is_history c = true) (upstream_calls run.1) =
    [CallHistory "X" (HistRange 9 11); CallHistory "X" (HistRange 1 2)] ∧
  closes_of (db run.1) = closes_of db_after_holiday.
Proof.
  intros run. split; [|split; [|split; [|split]]].
  - intros req k hist Hreq d c Hin.
    assert (Hbars : (d, c) ∈ bars_after_holiday).
    { destruct req; cbv [world_holiday yf_history] in Hreq;
        injection Hreq as <-; [done|].
      by apply list_elem_of_filter in Hin as [_ Hin]. }
    unfold bars_after_holiday in Hbars.
    repeat (apply elem_of_cons in Hbars as [[= -> ->]|Hbars]);
      [eexists; vm_compute; reflexivity..|by apply elem_of_nil in Hbars].
  - vm_compute. reflexivity.
  - vm_compute. discriminate.
  - vm_compute. reflexivity.
  - apply map_eq. intros k. vm_compute. reflexivity.
Qed.

(** C4, amended: in calendar-window mode under Live the plan begins with
    the sub-window [[max(start, end - 1day), end]] (dropped, like any
    sub-window, when its start is after its end, which takes
    [start > end]); and when the slice of the window has a row on [start]
    and a row on [end] the plan holds that sub-window and nothing else.
    That every trading day of the window is cached is not enough: a slice
    whose first row is after [start] gets the left gap
    [[start, extentMin - 1]] planned, and one whose last row is before
    [end] the right gap [[extentMax + 1, end]]. *)
Theorem live_recent_window (ticker : string) (start_date end_date : date)
    (db0 : store) :
  let rows := fetch_cached_prices ticker start_date end_date db0 in
  let plan := planned_ranges false false start_date end_date ticker db0 in
  let recent := (Z.max start_date (end_date - 1), end_date) in
  (∃ rest, plan = add_range recent.1 recent.2 [] ++ rest) ∧
  (start_date <= end_date → head plan = Some recent) ∧
  (cached_min (map fst rows) = Some start_date →
   cached_max (map fst rows) = Some end_date →
   plan = [recent]) ∧
  (∀ mn, cached_min (map fst rows) = Some mn → start_date < mn →
         (start_date, mn - 1) ∈ plan) ∧
  (∀ mx, cached_max (map fst rows) = Some mx → mx < end_date →
         (mx + 1, end_date) ∈ plan).
Proof.
  intros rows plan recent.
  pose proof (plan_shape false ticker start_date end_date db0) as H.
  cbv zeta in H. fold rows in H. fold plan in H.
  unfold refresh_start_of in H.
  change (Z.max start_date (end_date - 1)) with recent.1 in H.
  change end_date with recent.2 in H at 1 3.
  assert (Hplan : ∃ rest, plan = add_range recent.1 recent.2 [] ++ rest).
  { destruct (cached_min (map fst rows)), (cached_max (map fst rows));
      [destruct H as (_ & _ & _ & ->)|destruct H as [_ ->]..]; by eexists. }
  split; [exact Hplan|]. split.
  { intros Hse. destruct Hplan as [rest ->].
    rewrite add_range_kept by (subst recent; simpl; lia). by destruct recent. }
  destruct (cached_min (map fst rows)) as [mn|] eqn:Hmn;
    destruct (cached_max (map fst rows)) as [mx|] eqn:Hmx;
    [destruct H as (_ & Bmn & Bmx & ->) | destruct H as [Hrows ->]..];
    try (rewrite Hrows in Hmn; discriminate);
    try (rewrite Hrows in Hmx; discriminate);
    (split; [|split]); try discriminate.
  - intros [= ->] [= ->]. unfold gap_windows.
    rewrite !Z.ltb_irrefl, add_range_kept by (subst recent; simpl; lia).
    by destruct recent.
  - intros mn' [= <-] Hlt. apply elem_of_app. right. unfold gap_windows.
    destruct (Z.ltb_spec start_date mn); [|lia].
    apply elem_of_app. left. apply list_elem_of_here.
  - intros mx' [= <-] Hlt. apply elem_of_app. right. unfold gap_windows.
    destruct (Z.ltb_spec mx end_date); [|lia].
    apply elem_of_app. right. apply list_elem_of_here.
Qed.

(** ** What a computation leaves untouched *)

Section Keeps.
Context {X : Type} (f : state → X).

Lemma keeps_ret {A} (a : A) : keeps f (ret a).
Proof. intros st. reflexivity. Qed.

Lemma keeps_raise {A} (e : exn) : keeps f (@raise A e).
Proof. intros st. reflexivity. Qed.

Lemma keeps_continue {A} : keeps f (@continue A).
Proof. intros st. reflexivity. Qed.

Lemma keeps_query {A} (q : store → A) : keeps f (query q).
Proof. intros st. reflexivity. Qed.

Lemma keeps_lift {A} (r : exn + A) : keeps f (lift r).
Proof. intros st. by destruct r. Qed.

Lemma keeps_try_query {A} (q : store → exn + A) : keeps f (try_query q).
Proof. intros st. unfold try_query. by destruct (q (db st)). Qed.

Lemma keeps_bind {A B} (m : M A) (k : A → M B) :
  keeps f m → (∀ a, keeps f (k a)) → keeps f (bind m k).
Proof.
  intros Hm Hk st. unfold bind. specialize (Hm st).
  destruct (m st) as [st1 [a| |e]]; simpl in *; [|done..].
  by rewrite Hk.
Qed.

Lemma keeps_for_each {A} (g : A → M unit) (xs : list A) :
  (∀ x, keeps f (g x)) → keeps f (for_each g xs).
Proof.
  intros Hg. induction xs as [|x xs IH]; simpl.
  - apply keeps_ret.
  - apply keeps_bind; [apply Hg | intros _; apply IH].
Qed.
End Keeps.

Lemma log_message_keeps_db ev : keeps db (log_message ev).
Proof. intros st. reflexivity. Qed.
Lemma log_message_keeps_calls ev : keeps upstream_calls (log_message ev).
Proof. intros st. reflexivity. Qed.
Lemma log_message_keeps_outputs ev : keeps outputs_of (log_message ev).
Proof. intros st. reflexivity. Qed.
Lemma yf_Ticker_keeps_db t : keeps db (yf_Ticker t).
Proof. intros st. reflexivity. Qed.
Lemma yf_Ticker_keeps_outputs t : keeps outputs_of (yf_Ticker t).
Proof. intros st. reflexivity. Qed.
Lemma stock_history_keeps_db w t req : keeps db (stock_history w t req).
Proof. intros st. unfold stock_history. by destruct (yf_history _ _ _ _). Qed.
Lemma stock_history_keeps_outputs w t req :
  keeps outputs_of (stock_history w t req).
Proof. intros st. unfold stock_history. by destruct (yf_history _ _ _ _). Qed.
Lemma do_upsert_keeps_calls w t hist : keeps upstream_calls (do_upsert w t hist).
Proof. intros st. by destruct hist. Qed.
Lemma do_upsert_keeps_outputs w t hist : keeps outputs_of (do_upsert w t hist).
Proof. intros st. by destruct hist. Qed.
Lemma publish_keeps_db row dates : keeps db (publish row dates).
Proof. intros st. reflexivity. Qed.
Lemma publish_keeps_calls row dates : keeps upstream_calls (publish row dates).
Proof. intros st. reflexivity. Qed.

Create HintDb keeps discriminated.
#[global] Hint Resolve keeps_ret keeps_raise keeps_continue keeps_query
  keeps_lift keeps_try_query
  log_message_keeps_db log_message_keeps_calls log_message_keeps_outputs
  yf_Ticker_keeps_db yf_Ticker_keeps_outputs
  stock_history_keeps_db stock_history_keeps_outputs
  do_upsert_keeps_calls do_upsert_keeps_outputs
  publish_keeps_db publish_keeps_calls : keeps.

Ltac keeps_step :=
  first
    [ solve [auto with keeps]
    | apply keeps_bind; [|intros ?]
    | apply keeps_for_each; intros ?
    | match goal with
      | |- keeps _ (if ?b then _ else _) => destruct b
      | |- keeps _ (match ?x with _ => _ end) => destruct x
      end
    | progress unfold emit_series, change_percent, item_first, item_last,
        float_div, fetch_range ].

Ltac keeps_auto := repeat keeps_step.

(** The series of an asset is computed and published without touching
    the table or yfinance. *)
Lemma emit_series_keeps_db stale name ticker rows :
  keeps db (emit_series stale name ticker rows).
Proof. keeps_auto. Qed.

Lemma emit_series_keeps_calls stale name ticker rows :
  keeps upstream_calls (emit_series stale name ticker rows).
Proof. keeps_auto. Qed.

(** Under [stale_only] neither loop body touches the table or yfinance. *)
Lemma trading_body_stale_keeps_db w n force asset :
  keeps db (trading_body w n force true asset).
Proof. unfold trading_body. keeps_auto. Qed.

Lemma trading_body_stale_keeps_calls w n force asset :
  keeps upstream_calls (trading_body w n force true asset).
Proof. unfold trading_body. keeps_auto. Qed.

Lemma calendar_body_stale_keeps_db w force s e rs asset :
  keeps db (calendar_body w true force s e rs asset).
Proof. unfold calendar_body. simpl negb. keeps_auto. Qed.

Lemma calendar_body_stale_keeps_calls w force s e rs asset :
  keeps upstream_calls (calendar_body w true force s e rs asset).
Proof. unfold calendar_body. simpl negb. keeps_auto. Qed.

(** The loop keeps whatever its body and the failure line keep. *)
Lemma for_assets_keeps {X} (f : state → X) body assets :
  (∀ a, keeps f (body a)) → (∀ ev, keeps f (log_message ev)) →
  ∀ st, f (for_assets body assets st) = f st.
Proof.
  intros Hbody Hlog. unfold for_assets.
  induction assets as [|a assets IH]; intros st; simpl; [reflexivity|].
  rewrite IH. unfold try_asset. specialize (Hbody a st).
  destruct (body a st) as [st1 [[]| |e]]; cbn [fst] in Hbody; [done..|].
  rewrite <- Hbody. apply Hlog.
Qed.

(** [fetch_asset_history] is its loop around [loop_body]. *)
Lemma fetch_asset_history_loop (w : world) (assets : list (string * string))
    (period start end_ : option string) (force : bool) (td : option nat)
    (stale : bool) (db0 : store) :
  fetch_asset_history w assets period start end_ force td stale db0 =
  match loop_body w period start end_ force td stale with
  | inl e => (initial_state db0, inl e)
  | inr body =>
    (for_assets body assets (initial_state db0),
     inr (outputs_of (for_assets body assets (initial_state db0))))
  end.
Proof.
  unfold fetch_asset_history, loop_body.
  destruct (truthy_days td); [reflexivity|].
  by destruct (resolve_date_range w period start end_) as [e|[s e]].
Qed.

(** Under [stale_only] the loop bodies do not look at the world. *)
Lemma loop_body_stale_any_world (w w' : world)
    (period start end_ : option string) (force : bool) (td : option nat) :
  today w' = today w → strptime_ymd w' = strptime_ymd w →
  loop_body w' period start end_ force td true
    = loop_body w period start end_ force td true.
Proof.
  intros Htoday Hparse. unfold loop_body.
  destruct (truthy_days td); [reflexivity|].
  assert (Hres : resolve_date_range w' period start end_
                 = resolve_date_range w period start end_)
    by (unfold resolve_date_range, parse_date; by rewrite Htoday, Hparse).
  rewrite Hres.
  by destruct (resolve_date_range w period start end_) as [e|[s e]].
Qed.

(** C3: under StaleOnly, in either mode and whatever the table holds, the
    batch makes no yfinance call at all (not even building a [Ticker]), the
    calendar-window plan is empty, the table is left as found, and what is
    returned is the same whatever yfinance would have answered: it comes
    from the table alone. *)
Theorem stale_only_never_calls_upstream (w : world)
    (assets : list (string * string)) (period start end_ : option string)
    (force_refresh : bool) (trading_days : option nat) (db0 : store) :
  let run :=
    fetch_asset_history w assets period start end_ force_refresh trading_days
      true db0 in
  upstream_calls run.1 = [] ∧
  (∀ s e rs rows, plan_fetch_ranges true force_refresh s e rs rows = []) ∧
  db run.1 = db0 ∧
  ∀ w', today w' = today w → strptime_ymd w' = strptime_ymd w →
    fetch_asset_history w' assets period start end_ force_refresh trading_days
      true db0 = run.
Proof.
  cbv zeta. split; [|split; [done|split]].
  - unfold fetch_asset_history.
    destruct (truthy_days trading_days) as [n|].
    + simpl. rewrite for_assets_keeps;
        auto using trading_body_stale_keeps_calls with keeps.
    + destruct (resolve_date_range w period start end_) as [e|[s e]]; simpl;
        [done|].
      rewrite for_assets_keeps;
        auto using calendar_body_stale_keeps_calls with keeps.
  - unfold fetch_asset_history.
    destruct (truthy_days trading_days) as [n|].
    + simpl. rewrite for_assets_keeps;
        auto using trading_body_stale_keeps_db with keeps.
    + destruct (resolve_date_range w period start end_) as [e|[s e]]; simpl;
        [done|].
      rewrite for_assets_keeps;
        auto using calendar_body_stale_keeps_db with keeps.
  - intros w' Htoday Hparse. rewrite !fetch_asset_history_loop.
    by rewrite (loop_body_stale_any_world w w').
Qed.

(** ** [upsert_prices] *)

Lemma foldl_insert_closes (now ticker : string) (hist : dataframe) (db0 : store) :
  closes_of (foldl (insert_or_replace ticker now) db0 hist) =
  list_to_map (keyed_rows ticker hist) ∪ closes_of db0.
Proof.
  unfold closes_of, keyed_rows. revert db0.
  induction hist as [|r hist IH]; intros db0; simpl.
  - by rewrite (left_id_L ∅ (∪)).
  - rewrite IH. unfold insert_or_replace. rewrite fmap_insert. simpl.
    rewrite reverse_cons, list_to_map_app. simpl.
    rewrite <- (assoc_L (∪)). f_equal.
    rewrite insert_empty. by rewrite <- insert_union_singleton_l.
Qed.

Lemma write_rows_closes (now ticker : string) (hist : dataframe) (db0 : store) :
  closes_of (write_rows now ticker hist db0) =
  list_to_map (keyed_rows ticker hist) ∪ closes_of db0.
Proof.
  destruct hist as [|r hist].
  - simpl. unfold keyed_rows. simpl. by rewrite (left_id_L ∅ (∪)).
  - apply foldl_insert_closes.
Qed.

(** Writing the same rows a second time changes no close, and nothing at
    all under the same clock reading; one row is one replace-or-insert. *)
Lemma write_rows_idempotent (now1 now2 ticker : string)
    (hist : dataframe) (db0 : store) :
  closes_of (write_rows now2 ticker hist (write_rows now1 ticker hist db0))
    = closes_of (write_rows now1 ticker hist db0)
  ∧ write_rows now1 ticker hist (write_rows now1 ticker hist db0)
    = write_rows now1 ticker hist db0
  ∧ ∀ d c, write_rows now1 ticker [(d, c)] db0 =
           <[(ticker, d) := (c, now1)]> db0.
Proof.
  split; [|split].
  - rewrite !write_rows_closes.
    by rewrite (assoc_L (∪)), (idemp_L (∪)).
  - apply map_eq. intros k.
    destruct hist as [|r hist]; [reflexivity|].
    unfold write_rows.
    set (l := r :: hist). clearbody l. clear r hist.
    assert (Hlook : ∀ (l' : dataframe) (m : store),
      foldl (insert_or_replace ticker now1) m l' !! k =
      match list_to_map (M := gmap (string * Z) float) (keyed_rows ticker l') !! k with
      | Some c => Some (c, now1)
      | None => m !! k
      end).
    { induction l' as [|r l' IH]; intros m; simpl; [done|].
      rewrite IH. unfold keyed_rows. simpl.
      rewrite reverse_cons, list_to_map_app, lookup_union. simpl.
      fold (keyed_rows ticker l').
      destruct (list_to_map (keyed_rows ticker l') !! k) as [c|] eqn:E;
        simpl; [by rewrite union_Some_l|].
      rewrite (left_id_L None union). unfold insert_or_replace.
      destruct (decide ((ticker, r.1) = k)) as [<-|Hne].
      - by rewrite !lookup_insert_eq.
      - rewrite !lookup_insert_ne by done. by rewrite lookup_empty. }
    rewrite (Hlook l (foldl _ db0 l)), (Hlook l db0).
    by destruct (list_to_map (keyed_rows ticker l) !! k).
  - reflexivity.
Qed.

(** C6: [upsert_prices] is idempotent.  Applying the same batch a second
    time (at a later clock reading) leaves every [(ticker, date)] with
    the close the first application gave it, and rows of other keys as they
    were: the table, [updated_at] apart, is the one after a single
    application; with the same clock reading the tables are equal outright.
    A batch with a NaN close is refused both times and the table stays as
    it was found.  Each accepted row is a replace-or-insert on its key. *)
Theorem upsert_prices_idempotent (now1 now2 ticker : string)
    (hist : dataframe) (db0 : store) :
  let first := upsert_prices now1 ticker hist db0 in
  let once := table_after db0 first in
  let second := upsert_prices now2 ticker hist once in
  let twice := table_after once second in
  closes_of twice = closes_of once ∧
  (now2 = now1 → twice = once) ∧
  (∀ e, first = inl e ↔ second = inl e) ∧
  (∀ e, first = inl e →
     e = IntegrityError ∧ has_nan_close hist = true ∧ once = db0) ∧
  ∀ d c, upsert_prices now1 ticker [(d, c)] db0 =
         if is_nan c then inl IntegrityError
         else inr (<[(ticker, d) := (c, now1)]> db0).
Proof.
  intros first once second twice.
  subst twice second once first. unfold upsert_prices.
  destruct (write_rows_idempotent now1 now2 ticker hist db0) as (Hc & _ & Hone).
  destruct (write_rows_idempotent now1 now1 ticker hist db0) as (_ & Hsame & _).
  assert (Hrow : ∀ d c,
    (if has_nan_close [(d, c)] then inl IntegrityError
     else inr (write_rows now1 ticker [(d, c)] db0)) =
    (if is_nan c then inl IntegrityError
     else inr (<[(ticker, d) := (c, now1)]> db0) : exn + store)).
  { intros d c. unfold has_nan_close. cbn [existsb snd].
    rewrite orb_false_r. destruct (is_nan c); [done|]. by rewrite Hone. }
  destruct (has_nan_close hist) eqn:Hnan; cbn [table_after];
    (split; [|split; [|split; [|split]]]); try exact Hrow.
  - done.
  - done.
  - done.
  - by intros e [= <-].
  - exact Hc.
  - intros ->. exact Hsame.
  - done.
  - done.
Qed.

(** ** What one asset adds to the outputs *)

Lemma emits_continue name ticker : emits name ticker continue.
Proof. intros st. reflexivity. Qed.

Lemma emits_bind {A} name ticker (m : M A) (k : A → M unit) :
  keeps outputs_of m → (∀ a, emits name ticker (k a)) →
  emits name ticker (bind m k).
Proof.
  intros Hm Hk st. unfold bind. specialize (Hm st).
  destruct (m st) as [st1 [a| |e]]; cbn [fst snd] in *; [|done..].
  specialize (Hk a st1). rewrite Hm in Hk. exact Hk.
Qed.

Lemma stdpp_last_Some {A} (l : list A) (x d : A) :
  last l = Some x → List.last l d = x.
Proof.
  induction l as [|y [|z l] IH]; intros H; simplify_eq/=; [done|].
  apply IH. exact H.
Qed.

Lemma emit_series_emits stale name ticker rows :
  emits name ticker (emit_series stale name ticker rows).
Proof.
  intros st. unfold emit_series, item_last, bind.
  destruct (last (map snd rows)) as [current|] eqn:Hlast; [|reflexivity].
  cbn [ret raise].
  assert (Hne : rows ≠ []) by (intros ->; discriminate).
  pose proof (stdpp_last_Some _ _ 0%float Hlast) as Hcur.
  unfold change_percent, period_change_percent in *.
  destruct (map snd rows) as [|c1 [|c2 cs]] eqn:Hcloses; [done| |].
  - simpl. exists rows. split; [done|].
    unfold series_row, period_change_percent. rewrite Hcloses. simpl.
    simpl in Hcur. by rewrite Hcur.
  - cbn [length Nat.leb item_first bind ret]. unfold item_last. rewrite Hlast.
    cbn [ret bind]. unfold float_div.
    destruct (PrimFloat.eqb c1 0); [reflexivity|].
    cbn. exists rows. split; [done|].
    unfold series_row, period_change_percent. rewrite Hcloses.
    cbn [length Nat.ltb Nat.leb hd]. by rewrite Hcur.
Qed.

Ltac emits_step :=
  first
    [ apply emits_continue
    | apply emit_series_emits
    | apply emits_bind; [solve [keeps_auto] | intros ?]
    | match goal with
      | |- emits _ _ (if ?b then _ else _) => destruct b
      | |- emits _ _ (match ?x with _ => _ end) => destruct x
      end ].

Lemma trading_body_emits w n force stale asset :
  emits asset.1 asset.2 (trading_body w n force stale asset).
Proof. unfold trading_body. repeat emits_step. Qed.

Lemma calendar_body_emits w stale force s e rs asset :
  emits asset.1 asset.2 (calendar_body w stale force s e rs asset).
Proof. unfold calendar_body. repeat emits_step. Qed.

(** One turn of the loop, seen from the outputs. *)
Lemma try_asset_outputs body asset st :
  emits asset.1 asset.2 (body asset) →
  match (body asset st).2 with
  | Normal _ =>
    ∃ rows, rows ≠ [] ∧
      outputs_of (try_asset body st asset) =
        add_series (series_row asset.1 asset.2 rows) (map fst rows)
          (outputs_of st)
  | _ => outputs_of (try_asset body st asset) = outputs_of st
  end.
Proof.
  intros Hbody. specialize (Hbody st). unfold try_asset.
  destruct (body asset st) as [st1 [[]| |e]]; cbn [fst snd] in *; done.
Qed.

(** An invariant of the outputs that every published series of the assets
    at hand preserves holds after the loop. *)
Lemma for_assets_outputs_ind (I : outputs → Prop) body assets :
  (∀ a, emits a.1 a.2 (body a)) →
  (∀ o a rows, a ∈ assets → rows ≠ [] → I o →
     I (add_series (series_row a.1 a.2 rows) (map fst rows) o)) →
  ∀ st, I (outputs_of st) → I (outputs_of (for_assets body assets st)).
Proof.
  intros Hbody. unfold for_assets.
  induction assets as [|a assets IH]; intros Hadd st HI; simpl; [done|].
  apply IH.
  - intros o a' rows Ha'. apply Hadd. by apply list_elem_of_further.
  - pose proof (try_asset_outputs body a st (Hbody a)) as H.
    destruct ((body a st).2).
    + destruct H as (rows & Hne & ->). apply Hadd; [apply list_elem_of_here|done..].
    + by rewrite H.
    + by rewrite H.
Qed.

Lemma series_ok_add name ticker rows o :
  series_ok o →
  series_ok (add_series (series_row name ticker rows) (map fst rows) o).
Proof.
  intros [Hres Hchart]. split; simpl.
  - intros row [Hrow | ->%list_elem_of_singleton]%elem_of_app; [auto|done].
  - intros name' closes. destruct (decide (name = name')) as [<-|Hne].
    + rewrite !lookup_insert_eq. by intros [= <-].
    + rewrite !lookup_insert_ne by done. apply Hchart.
Qed.

Lemma fetch_asset_history_series_ok (w : world)
    (assets : list (string * string)) (period start end_ : option string)
    (force : bool) (td : option nat) (stale : bool) (db0 : store)
    (outs : outputs) :
  (fetch_asset_history w assets period start end_ force td stale db0).2
    = inr outs →
  series_ok outs.
Proof.
  unfold fetch_asset_history.
  assert (H0 : series_ok (outputs_of (initial_state db0))).
  { split; simpl; [by intros row ?%elem_of_nil | intros ??; by rewrite lookup_empty]. }
  destruct (truthy_days td) as [n|].
  - intros [= <-]. apply (for_assets_outputs_ind series_ok); [|intros|done].
    + intros a. apply trading_body_emits.
    + by apply series_ok_add.
  - destruct (resolve_date_range w period start end_) as [e|[s e]]; [done|].
    intros [= <-]. apply (for_assets_outputs_ind series_ok); [|intros|done].
    + intros a. apply calendar_body_emits.
    + by apply series_ok_add.
Qed.

(** C7: every series the batch produces carries, as its period change,
    null when it has fewer than two points and
    [(last - first) / first * 100] of its first and last close when it has
    two or more; so one point gives null and closes [[100, 110]] give 10. *)
Theorem period_change_of_every_series (w : world)
    (assets : list (string * string)) (period start end_ : option string)
    (force_refresh : bool) (trading_days : option nat) (stale_only : bool)
    (db0 : store) (outs : outputs) :
  (fetch_asset_history w assets period start end_ force_refresh trading_days
     stale_only db0).2 = inr outs →
  (∀ row, row ∈ out_results outs →
     row_change row =
       if (length (row_closes row) <? 2)%nat then None
       else Some (PrimFloat.mul
                    (PrimFloat.div
                       (PrimFloat.sub (List.last (row_closes row) 0%float)
                          (hd 0%float (row_closes row)))
                       (hd 0%float (row_closes row))) 100%float)) ∧
  (∀ name closes, out_chart_data outs !! name = Some closes →
     out_chart_changes outs !! name = Some (period_change_percent closes)) ∧
  (∀ c, period_change_percent [c] = None) ∧
  period_change_percent [100%float; 110%float] = Some 10%float.
Proof.
  intros Hrun.
  destruct (fetch_asset_history_series_ok _ _ _ _ _ _ _ _ _ _ Hrun) as [H1 H2].
  split; [|split; [exact H2|split; [reflexivity | vm_compute; reflexivity]]].
  intros row Hrow. rewrite (H1 row Hrow). reflexivity.
Qed.

Lemma period_change_of_every_series_witness :
  let run :=
    fetch_asset_history world_example assets_example None (Some "2024-01-01"%string)
      (Some "2024-01-10"%string) false None false ∅ in
  run.2 = inr (outputs_of run.1) ∧
  out_chart_changes (outputs_of run.1) !! "a"%string
    = Some (period_change_percent [100%float; 110%float; 99%float]).
Proof.
  intros run.
  assert (Hrun : run.2 = inr (outputs_of run.1)) by (vm_compute; reflexivity).
  split; [exact Hrun|].
  apply (period_change_of_every_series _ _ _ _ _ _ _ _ _ _ Hrun).
  vm_compute. reflexivity.
Defined.

(** ** The console only grows *)

Lemma grows_ret {A} (a : A) : grows (ret a).
Proof. intros st. reflexivity. Qed.
Lemma grows_raise {A} (e : exn) : grows (@raise A e).
Proof. intros st. reflexivity. Qed.
Lemma grows_continue {A} : grows (@continue A).
Proof. intros st. reflexivity. Qed.
Lemma grows_query {A} (q : store → A) : grows (query q).
Proof. intros st. reflexivity. Qed.
Lemma grows_lift {A} (r : exn + A) : grows (lift r).
Proof. intros st. by destruct r. Qed.
Lemma grows_try_query {A} (q : store → exn + A) : grows (try_query q).
Proof. intros st. unfold try_query. by destruct (q (db st)). Qed.
Lemma grows_log_message ev : grows (log_message ev).
Proof. intros st. simpl. by apply prefix_app_r. Qed.
Lemma grows_publish row dates : grows (publish row dates).
Proof. intros st. reflexivity. Qed.
Lemma grows_yf_Ticker t : grows (yf_Ticker t).
Proof. intros st. reflexivity. Qed.
Lemma grows_stock_history w t req : grows (stock_history w t req).
Proof. intros st. unfold stock_history. by destruct (yf_history _ _ _ _). Qed.
Lemma grows_do_upsert w t hist : grows (do_upsert w t hist).
Proof. intros st. by destruct hist. Qed.

Lemma grows_bind {A B} (m : M A) (k : A → M B) :
  grows m → (∀ a, grows (k a)) → grows (bind m k).
Proof.
  intros Hm Hk st. unfold bind. specialize (Hm st).
  destruct (m st) as [st1 [a| |e]]; cbn [fst] in *; [|done..].
  etrans; [exact Hm | apply Hk].
Qed.

Lemma grows_for_each {A} (g : A → M unit) (xs : list A) :
  (∀ x, grows (g x)) → grows (for_each g xs).
Proof.
  intros Hg. induction xs as [|x xs IH]; simpl.
  - apply grows_ret.
  - apply grows_bind; [apply Hg | intros _; apply IH].
Qed.

Create HintDb grows discriminated.
#[global] Hint Resolve grows_ret grows_raise grows_continue grows_query
  grows_lift grows_try_query
  grows_log_message grows_publish grows_yf_Ticker grows_stock_history
  grows_do_upsert : grows.

Ltac grows_step :=
  first
    [ solve [auto with grows]
    | apply grows_bind; [|intros ?]
    | apply grows_for_each; intros ?
    | match goal with
      | |- grows (if ?b then _ else _) => destruct b
      | |- grows (match ?x with _ => _ end) => destruct x
      end
    | progress unfold emit_series, change_percent, item_first, item_last,
        float_div, fetch_range ].

Lemma trading_body_grows w n force stale asset :
  grows (trading_body w n force stale asset).
Proof. unfold trading_body. repeat grows_step. Qed.

Lemma calendar_body_grows w stale force s e rs asset :
  grows (calendar_body w stale force s e rs asset).
Proof. unfold calendar_body. repeat grows_step. Qed.

Lemma for_assets_console body assets st :
  (∀ a, grows (body a)) →
  console st `prefix_of` console (for_assets body assets st).
Proof.
  intros Hbody. unfold for_assets. revert st.
  induction assets as [|a assets IH]; intros st; simpl; [done|].
  etrans; [|apply IH]. unfold try_asset. specialize (Hbody a st).
  destruct (body a st) as [st1 [[]| |e]]; cbn [fst] in *; [done..|].
  etrans; [exact Hbody|]. apply grows_log_message.
Qed.

(** ** The loop around the assets *)

Lemma loop_body_emits (w : world) (period start end_ : option string)
    (force : bool) (td : option nat) (stale : bool)
    (body : string * string → M unit) :
  loop_body w period start end_ force td stale = inr body →
  ∀ a, emits a.1 a.2 (body a).
Proof.
  unfold loop_body. destruct (truthy_days td).
  - intros [= <-] a. apply trading_body_emits.
  - destruct (resolve_date_range w period start end_) as [e|[s e]]; [done|].
    intros [= <-] a. apply calendar_body_emits.
Qed.

Lemma names_within_absent names name o :
  names_within names o → name ∉ names → absent name o.
Proof.
  intros (H1 & H2 & H3 & H4) Hname. repeat split.
  - intros row Hrow ?. apply Hname. subst name. by apply H1.
  - apply eq_None_not_Some. intros ?. by apply Hname, H2.
  - apply eq_None_not_Some. intros ?. by apply Hname, H3.
  - apply eq_None_not_Some. intros ?. by apply Hname, H4.
Qed.

Lemma names_within_add names a rows o :
  a.1 ∈ names → names_within names o →
  names_within names (add_series (series_row a.1 a.2 rows) (map fst rows) o).
Proof.
  intros Ha (H1 & H2 & H3 & H4). repeat split; simpl.
  - intros row [Hrow | ->%list_elem_of_singleton]%elem_of_app; [auto|done].
  - intros n. destruct (decide (a.1 = n)) as [<-|Hne]; [done|].
    rewrite lookup_insert_ne by done. apply H2.
  - intros n. destruct (decide (a.1 = n)) as [<-|Hne]; [done|].
    rewrite lookup_insert_ne by done. apply H3.
  - intros n. destruct (decide (a.1 = n)) as [<-|Hne]; [done|].
    rewrite lookup_insert_ne by done. apply H4.
Qed.

Lemma names_within_mono names names' o :
  names ⊆ names' → names_within names o → names_within names' o.
Proof. intros Hsub (H1 & H2 & H3 & H4). repeat split; auto. Qed.

Lemma for_assets_names_within names body assets st :
  (∀ a, emits a.1 a.2 (body a)) →
  names_within names (outputs_of st) →
  names_within (names ++ map fst assets) (outputs_of (for_assets body assets st)).
Proof.
  intros Hbody Hst.
  apply (for_assets_outputs_ind (names_within (names ++ map fst assets)));
    [done| |].
  - intros o a rows Ha _. apply names_within_add.
    apply elem_of_app. right. by apply list_elem_of_fmap_2.
  - eapply names_within_mono; [|done]. by apply sublist_subseteq, sublist_inserts_r.
Qed.

(** A later asset of another name leaves the chart entries of a name alone. *)
Lemma for_assets_charts_at body assets st name :
  (∀ a, emits a.1 a.2 (body a)) →
  name ∉ map fst assets →
  let o := outputs_of (for_assets body assets st) in
  out_chart_data o !! name = chart_data st !! name ∧
  out_chart_dates o !! name = chart_dates st !! name ∧
  out_chart_changes o !! name = chart_changes st !! name.
Proof.
  intros Hbody Hname o. subst o.
  apply (for_assets_outputs_ind
           (fun o => out_chart_data o !! name = chart_data st !! name ∧
                     out_chart_dates o !! name = chart_dates st !! name ∧
                     out_chart_changes o !! name = chart_changes st !! name));
    [done| |done].
  intros o a rows Ha _ (H1 & H2 & H3).
  assert (a.1 ≠ name).
  { intros <-. apply Hname. by apply list_elem_of_fmap_2. }
  cbn. by rewrite !lookup_insert_ne.
Qed.

(** A row of [results] stays there. *)
Lemma for_assets_results_kept body assets st row :
  (∀ a, emits a.1 a.2 (body a)) →
  row ∈ results st → row ∈ results (for_assets body assets st).
Proof.
  intros Hbody Hrow.
  apply (for_assets_outputs_ind (fun o => row ∈ out_results o) body assets);
    [done| |done].
  intros o a rows _ _ Ho. cbn. apply elem_of_app. by left.
Qed.

(** The turn of each asset, seen from what the loop leaves at its end: a
    turn that ends normally has published a series, which is there at the
    end, in [results] and under its name in the three dicts; a turn that
    ends by [continue] or by raising leaves the asset absent. *)
Lemma for_assets_turns body (assets : list (string * string)) (st0 : state) :
  (∀ a, emits a.1 a.2 (body a)) →
  NoDup (map fst assets) →
  names_within [] (outputs_of st0) →
  ∀ done b rest, assets = done ++ b :: rest →
    let turn := body b (for_assets body done st0) in
    let final := outputs_of (for_assets body assets st0) in
    match turn.2 with
    | Normal _ =>
      ∃ rows, rows ≠ [] ∧
        series_row b.1 b.2 rows ∈ out_results final ∧
        out_chart_data final !! b.1 = Some (map snd rows) ∧
        out_chart_dates final !! b.1 = Some (map fst rows) ∧
        out_chart_changes final !! b.1
          = Some (period_change_percent (map snd rows))
    | _ => absent b.1 final
    end.
Proof.
  intros Hbody Hnodup Hst0 done b rest -> turn final. subst turn final.
  set (st_b := for_assets body done st0).
  assert (Hrun : for_assets body (done ++ b :: rest) st0 =
                 for_assets body rest (try_asset body st_b b)).
  { unfold for_assets. by rewrite foldl_app. }
  rewrite Hrun.
  rewrite fmap_app, fmap_cons in Hnodup.
  apply NoDup_app in Hnodup as (_ & Hdone & Hrest).
  apply NoDup_cons in Hrest as [Hrest _].
  pose proof (try_asset_outputs body b st_b (Hbody b)) as Hturn.
  assert (Habsent : outputs_of (try_asset body st_b b) = outputs_of st_b →
            absent b.1 (outputs_of (for_assets body rest (try_asset body st_b b)))).
  { intros Hout.
    apply (names_within_absent (([] ++ map fst done) ++ map fst rest)).
    - apply for_assets_names_within; [done|]. rewrite Hout.
      by apply for_assets_names_within.
    - simpl. intros [Hin|Hin]%elem_of_app; [|done].
      apply (Hdone _ Hin). apply list_elem_of_here. }
  destruct ((body b st_b).2); [|by apply Habsent..].
  destruct Hturn as (rows & Hne & Hout). exists rows. split; [done|].
  destruct (for_assets_charts_at body rest (try_asset body st_b b) b.1 Hbody Hrest)
    as (H1 & H2 & H3).
  assert (Hcd : chart_data (try_asset body st_b b) !! b.1 = Some (map snd rows)).
  { change (out_chart_data (outputs_of (try_asset body st_b b)) !! b.1
            = Some (map snd rows)).
    rewrite Hout. cbn. by rewrite lookup_insert_eq. }
  assert (Hcdt : chart_dates (try_asset body st_b b) !! b.1 = Some (map fst rows)).
  { change (out_chart_dates (outputs_of (try_asset body st_b b)) !! b.1
            = Some (map fst rows)).
    rewrite Hout. cbn. by rewrite lookup_insert_eq. }
  assert (Hcc : chart_changes (try_asset body st_b b) !! b.1
                = Some (period_change_percent (map snd rows))).
  { change (out_chart_changes (outputs_of (try_asset body st_b b)) !! b.1
            = Some (period_change_percent (map snd rows))).
    rewrite Hout. cbn. by rewrite lookup_insert_eq. }
  split; [|by rewrite H1, H2, H3].
  apply for_assets_results_kept; [done|].
  change (series_row b.1 b.2 rows ∈ out_results (outputs_of (try_asset body st_b b))).
  rewrite Hout. cbn. apply elem_of_app. right. apply list_elem_of_here.
Qed.

(** When the body raises at an asset's turn: the handler takes over, the
    outputs are those before the turn, the rest of the assets are processed
    in order, and (names being the keys of a dict) the asset is absent from
    what the loop leaves. *)
Lemma raised_asset_skipped body (pre post : list (string * string))
    (a : string * string) (st0 st1 : state) (e : exn) :
  (∀ a, emits a.1 a.2 (body a)) →
  NoDup (map fst (pre ++ a :: post)) →
  names_within [] (outputs_of st0) →
  body a (for_assets body pre st0) = (st1, Raised e) →
  for_assets body (pre ++ a :: post) st0 = for_assets body post (after_failure a st1) ∧
  outputs_of (after_failure a st1) = outputs_of (for_assets body pre st0) ∧
  absent a.1 (outputs_of (for_assets body (pre ++ a :: post) st0)).
Proof.
  intros Hbody Hnodup Hst0 Hraise.
  assert (Hrun : for_assets body (pre ++ a :: post) st0 =
                 for_assets body post (after_failure a st1)).
  { assert (Hturn : try_asset body (for_assets body pre st0) a =
                     after_failure a st1)
      by (unfold try_asset; by rewrite Hraise).
    unfold for_assets in *. rewrite foldl_app. cbn [foldl]. by rewrite Hturn. }
  assert (Hout : outputs_of (after_failure a st1) =
                 outputs_of (for_assets body pre st0)).
  { pose proof (Hbody a (for_assets body pre st0)) as H.
    rewrite Hraise in H. exact H. }
  split; [done|]. split; [done|].
  rewrite Hrun.
  apply (names_within_absent (([] ++ map fst pre) ++ map fst post)).
  - apply for_assets_names_within; [done|]. rewrite Hout.
    by apply for_assets_names_within.
  - rewrite fmap_app, fmap_cons in Hnodup.
    apply NoDup_app in Hnodup as (_ & Hpre & Hpost).
    apply NoDup_cons in Hpost as [Hpost _]. simpl.
    intros [Hin|Hin]%elem_of_app; [|done].
    apply (Hpre _ Hin). apply list_elem_of_here.
Qed.

(** The same turn seen from the console: the failure line is there at the
    end. *)
Lemma raised_asset_logged body (pre post : list (string * string))
    (a : string * string) (st0 st1 : state) (e : exn) :
  (∀ a, emits a.1 a.2 (body a)) →
  (∀ a, grows (body a)) →
  body a (for_assets body pre st0) = (st1, Raised e) →
  for_assets body (pre ++ a :: post) st0 = for_assets body post (after_failure a st1) ∧
  outputs_of (after_failure a st1) = outputs_of (for_assets body pre st0) ∧
  LogFailed a.1 a.2 ∈ console (for_assets body (pre ++ a :: post) st0).
Proof.
  intros Hbody Hgrows Hraise.
  assert (Hrun : for_assets body (pre ++ a :: post) st0 =
                 for_assets body post (after_failure a st1)).
  { assert (Hturn : try_asset body (for_assets body pre st0) a =
                     after_failure a st1)
      by (unfold try_asset; by rewrite Hraise).
    unfold for_assets in *. rewrite foldl_app. cbn [foldl]. by rewrite Hturn. }
  assert (Hout : outputs_of (after_failure a st1) =
                 outputs_of (for_assets body pre st0)).
  { pose proof (Hbody a (for_assets body pre st0)) as H.
    rewrite Hraise in H. exact H. }
  split; [done|]. split; [done|]. rewrite Hrun.
  eapply elem_of_prefix; [|by apply for_assets_console].
  unfold after_failure. cbn. apply elem_of_app. right. apply list_elem_of_here.
Qed.

Lemma loop_body_grows (w : world) (period start end_ : option string)
    (force : bool) (td : option nat) (stale : bool)
    (body : string * string → M unit) :
  loop_body w period start end_ force td stale = inr body →
  ∀ a, grows (body a).
Proof.
  unfold loop_body. destruct (truthy_days td).
  - intros [= <-] a. apply trading_body_grows.
  - destruct (resolve_date_range w period start end_) as [?|[s e]]; [done|].
    intros [= <-] a. apply calendar_body_grows.
Qed.

Lemma names_within_initial (db0 : store) :
  names_within [] (outputs_of (initial_state db0)).
Proof.
  repeat split; simpl; try (by intros ? ?%elem_of_nil);
    intros n; rewrite lookup_empty; by intros [? ?].
Qed.

(** C8: whatever exception the processing of one asset raises (yfinance
    failing, a date at the end of the calendar, the table refusing a NaN
    close or a count beyond 64 bits, an empty series indexed, a division by
    a zero first close), it is caught inside the per-asset loop.  The call
    still returns its four outputs; the failure line is printed; the asset
    contributes nothing and is absent from all four; the remaining assets
    are processed in order from the state the handler leaves; and the
    failure costs the others nothing: every asset of the set, before or
    after the failed one, whose own turn ends normally has the series it
    published in the outputs returned, in [results] and under its name in
    the three dicts, while one whose turn ends otherwise is absent. *)
Theorem per_asset_failure_isolated (w : world)
    (period start end_ : option string) (force_refresh : bool)
    (trading_days : option nat) (stale_only : bool) (db0 : store)
    (body : string * string → M unit)
    (pre post : list (string * string)) (a : string * string)
    (st1 : state) (e : exn) :
  NoDup (map fst (pre ++ a :: post)) →
  loop_body w period start end_ force_refresh trading_days stale_only
    = inr body →
  body a (for_assets body pre (initial_state db0)) = (st1, Raised e) →
  let run :=
    fetch_asset_history w (pre ++ a :: post) period start end_ force_refresh
      trading_days stale_only db0 in
  run.2 = inr (outputs_of run.1) ∧
  outputs_of (after_failure a st1)
    = outputs_of (for_assets body pre (initial_state db0)) ∧
  run.1 = for_assets body post (after_failure a st1) ∧
  absent a.1 (outputs_of run.1) ∧
  LogFailed a.1 a.2 ∈ console run.1 ∧
  ∀ done b rest, pre ++ a :: post = done ++ b :: rest →
    match (body b (for_assets body done (initial_state db0))).2 with
    | Normal _ =>
      ∃ rows, rows ≠ [] ∧
        series_row b.1 b.2 rows ∈ out_results (outputs_of run.1) ∧
        out_chart_data (outputs_of run.1) !! b.1 = Some (map snd rows) ∧
        out_chart_dates (outputs_of run.1) !! b.1 = Some (map fst rows) ∧
        out_chart_changes (outputs_of run.1) !! b.1
          = Some (period_change_percent (map snd rows))
    | _ => absent b.1 (outputs_of run.1)
    end.
Proof.
  intros Hnodup Hbody Hraise run. subst run.
  rewrite fetch_asset_history_loop, Hbody. cbn [fst snd].
  pose proof (loop_body_emits _ _ _ _ _ _ _ _ Hbody) as Hemits.
  pose proof (loop_body_grows _ _ _ _ _ _ _ _ Hbody) as Hgrows.
  destruct (raised_asset_logged body pre post a (initial_state db0) st1 e)
    as (Hrun & Hout & Hlog); try done.
  pose proof (for_assets_turns body (pre ++ a :: post) (initial_state db0)
                Hemits Hnodup (names_within_initial db0)) as Hturns.
  split; [done|]. split; [done|]. split; [done|]. split; [|split; [done|]].
  - specialize (Hturns pre a post eq_refl). cbv zeta in Hturns.
    by rewrite Hraise in Hturns.
  - intros done b rest Heq. exact (Hturns done b rest Heq).
Qed.

Lemma per_asset_failure_isolated_witness :
  let run :=
    fetch_asset_history world_example assets_with_failures None
      (Some "2024-01-01"%string) (Some "2024-01-10"%string) false None false ∅ in
  NoDup (map fst assets_with_failures) ∧
  (body_example ("b", "B")%string state_before_b).2
    = Raised (UpstreamError "no data") ∧
  run.2 = inr (outputs_of run.1) ∧
  absent "b" (outputs_of run.1) ∧
  absent "n" (outputs_of run.1) ∧
  map row_asset (out_results (outputs_of run.1)) = ["a"; "c"]%string ∧
  out_chart_data (outputs_of run.1) !! "a"%string
    = Some [100%float; 110%float; 99%float] ∧
  out_chart_data (outputs_of run.1) !! "c"%string
    = Some [100%float; 110%float; 99%float].
Proof.
  intros run.
  assert (Hnodup : NoDup (map fst assets_with_failures)) by compute_done.
  assert (Hraise : body_example ("b", "B")%string state_before_b =
                   ((body_example ("b", "B")%string state_before_b).1,
                    Raised (UpstreamError "no data")))
    by (vm_compute; reflexivity).
  split; [exact Hnodup|]. split; [by rewrite Hraise|].
  pose proof (per_asset_failure_isolated world_example None
                (Some "2024-01-01"%string) (Some "2024-01-10"%string)
                false None false ∅ body_example
                [("a", "A")]%string [("n", "N"); ("c", "C")]%string
                ("b", "B")%string
                _ _ Hnodup eq_refl Hraise) as (H1 & _ & _ & H4 & _ & H6).
  split; [exact H1|]. split; [exact H4|]. split.
  { pose proof (H6 [("a", "A"); ("b", "B")]%string ("n", "N")%string
                  [("c", "C")]%string eq_refl) as Hn.
    assert (Hstore : (body_example ("n", "N")%string
                        (for_assets body_example [("a", "A"); ("b", "B")]%string
                           (initial_state ∅))).2 = Raised IntegrityError)
      by (vm_compute; reflexivity).
    by rewrite Hstore in Hn. }
  split; [vm_compute; reflexivity|].
  split; vm_compute; reflexivity.
Defined.

(** ** [resolve_date_range] *)

(** C9: an explicit range is honoured only when both dates are supplied.
    When exactly one of [start] and [end] is supplied (the other [None] or
    empty), the window comes from the period tag, [days] days ending today
    and 7 days when the tag is missing or unknown; the lone string is never
    handed to the parser, so the result is the same under any parser and no
    [ValueError] arises, however malformed the string.  When both are
    supplied the window is the two parsed dates. *)
Theorem lone_date_is_ignored (w : world) (period start end_ : option string) :
  truthy_str start ≠ truthy_str end_ →
  resolve_date_range w period start end_
    = inr (today w - period_days period, today w) ∧
  (∀ w', today w' = today w →
     resolve_date_range w' period start end_
       = resolve_date_range w period start end_) ∧
  (period = None → resolve_date_range w period start end_
                   = inr (today w - 7, today w)) ∧
  (∀ s e : string, s ≠ EmptyString → e ≠ EmptyString →
     resolve_date_range w period (Some s) (Some e) =
       match strptime_ymd w s, strptime_ymd w e with
       | Some ds, Some de => inr (ds, de)
       | _, _ => inl ValueError
       end).
Proof.
  intros Hone.
  assert (Hnot : truthy_str start && truthy_str end_ = false)
    by (destruct (truthy_str start), (truthy_str end_); done).
  unfold resolve_date_range. rewrite Hnot. split; [reflexivity|].
  split; [by intros w' ->|]. split; [by intros ->|].
  intros s e Hs He. destruct s as [|a s]; [done|]. destruct e as [|b e]; [done|].
  simpl. unfold parse_date.
  destruct (strptime_ymd w (String a s)); [|done].
  by destruct (strptime_ymd w (String b e)).
Qed.

Lemma lone_date_is_ignored_witness :
  truthy_str (Some "not a date"%string) ≠ truthy_str None ∧
  resolve_date_range world_example (Some "1mo"%string)
    (Some "not a date"%string) None = inr (70, 100).
Proof.
  assert (H : truthy_str (Some "not a date"%string) ≠ truthy_str None)
    by discriminate.
  split; [exact H|].
  exact (proj1 (lone_date_is_ignored world_example (Some "1mo"%string)
                  (Some "not a date"%string) None H)).
Defined.

(** ** StaleOnly in calendar-window mode *)

(** Lines 260-262 and 307-311 with [stale_only] set: the cache lookup is
    announced, the slice read, and the series built from it at once. *)
Lemma calendar_body_stale_run w force s e rs name ticker st :
  calendar_body w true force s e rs (name, ticker) st =
  emit_series true name ticker (fetch_cached_prices ticker s e (db st))
    (log_message (LogCacheLookup name ticker) st).1.
Proof. reflexivity. Qed.

(** C10: in calendar-window mode under StaleOnly, an asset whose slice of
    the window is empty does not stop the call, which returns its four
    outputs with the asset absent from each.  Nothing on this path tests
    for the empty slice: the asset's turn ends by [IndexError] (indexing
    the empty close list), not by [continue], and the per-asset handler
    prints the failure line for it. *)
Theorem stale_empty_slice_dropped_by_handler (w : world)
    (assets : list (string * string)) (period start end_ : option string)
    (force_refresh : bool) (trading_days : option nat) (db0 : store)
    (start_date end_date : date) (korean_name ticker : string) :
  truthy_days trading_days = None →
  resolve_date_range w period start end_ = inr (start_date, end_date) →
  NoDup (map fst assets) →
  (korean_name, ticker) ∈ assets →
  fetch_cached_prices ticker start_date end_date db0 = [] →
  let run :=
    fetch_asset_history w assets period start end_ force_refresh trading_days
      true db0 in
  run.2 = inr (outputs_of run.1) ∧
  absent korean_name (outputs_of run.1) ∧
  LogFailed korean_name ticker ∈ console run.1 ∧
  ∀ st, db st = db0 →
    (calendar_body w true force_refresh start_date end_date
       (refresh_start_of start_date end_date) (korean_name, ticker) st).2
      = Raised IndexError.
Proof.
  intros Hdays Hrange Hnodup Hin Hslice run. subst run.
  set (body := calendar_body w true force_refresh start_date end_date
                 (refresh_start_of start_date end_date)).
  assert (Hbody : loop_body w period start end_ force_refresh trading_days true
                  = inr body)
    by (unfold loop_body; by rewrite Hdays, Hrange).
  assert (Hturn : ∀ st, db st = db0 →
            body (korean_name, ticker) st =
            ((log_message (LogCacheLookup korean_name ticker) st).1,
             Raised IndexError)).
  { intros st Hdb. unfold body. rewrite calendar_body_stale_run.
    cbn [log_message fst db]. rewrite Hdb, Hslice. reflexivity. }
  rewrite fetch_asset_history_loop, Hbody. cbn [fst snd].
  apply list_elem_of_split in Hin as (pre & post & ->).
  set (st_pre := for_assets body pre (initial_state db0)).
  assert (Hdb : db st_pre = db0).
  { unfold st_pre. rewrite for_assets_keeps; [done| |auto with keeps].
    intros a. apply calendar_body_stale_keeps_db. }
  destruct (raised_asset_skipped body pre post (korean_name, ticker)
              (initial_state db0)
              (log_message (LogCacheLookup korean_name ticker) st_pre).1
              IndexError
              (loop_body_emits _ _ _ _ _ _ _ _ Hbody) Hnodup)
    as (Hrun & _ & Habs).
  { repeat split; simpl; try (by intros ? ?%elem_of_nil);
      intros n; rewrite lookup_empty; by intros [? ?]. }
  { apply Hturn, Hdb. }
  split; [done|]. split; [exact Habs|]. split.
  - rewrite Hrun.
    eapply elem_of_prefix; [|apply for_assets_console; intros a; apply calendar_body_grows].
    unfold after_failure. simpl. apply elem_of_app. right. apply list_elem_of_here.
  - intros st Hst. fold body. by rewrite Hturn.
Qed.

Lemma stale_empty_slice_dropped_by_handler_witness :
  let run :=
    fetch_asset_history world_example assets_example None
      (Some "2024-01-01"%string) (Some "2024-01-10"%string) false None true ∅ in
  fetch_cached_prices "A" 1 10 ∅ = [] ∧
  absent "a" (outputs_of run.1) ∧ LogFailed "a" "A" ∈ console run.1.
Proof.
  intros run.
  assert (Hslice : fetch_cached_prices "A" 1 10 ∅ = []) by (vm_compute; reflexivity).
  assert (Hnodup : NoDup (map fst assets_example)) by compute_done.
  assert (Hin : ("a", "A")%string ∈ assets_example) by apply list_elem_of_here.
  split; [exact Hslice|].
  pose proof (stale_empty_slice_dropped_by_handler world_example assets_example
                None (Some "2024-01-01"%string) (Some "2024-01-10"%string)
                false None ∅ 1 10 "a" "A" eq_refl eq_refl Hnodup Hin Hslice)
    as (_ & H2 & H3 & _).
  split; [exact H2 | exact H3].
Defined.

(** ** The trading-day loop *)

(** The first read of a turn, by the size of the count. *)
Lemma fetch_cached_last_n_cases (ticker : string) (n : nat) (db0 : store) :
  (Z.of_nat n <= sqlite_max_int ∧
   fetch_cached_last_n ticker n db0 = inr (last_n_rows ticker n db0)) ∨
  (sqlite_max_int < Z.of_nat n ∧
   fetch_cached_last_n ticker n db0 = inl OverflowError).
Proof.
  unfold fetch_cached_last_n.
  destruct (Z.leb_spec (Z.of_nat n) sqlite_max_int); [left|right]; done.
Qed.

(** A turn of the trading-day loop whose count sqlite3 cannot bind ends at
    the first read, the [Ticker] built and nothing asked of it. *)
Lemma trading_body_overflow (w : world) (n : nat) (force_refresh : bool)
    (asset : string * string) (st : state) :
  sqlite_max_int < Z.of_nat n →
  trading_body w n force_refresh false asset st
    = (turn_started asset st, Raised OverflowError).
Proof.
  intros Hn. unfold trading_body, turn_started.
  unfold bind, try_query, lift, log_message, yf_Ticker. cbn [fst snd db].
  destruct (fetch_cached_last_n_cases asset.2 n (db st)) as [[Hle _]|[_ Hread]];
    [lia|].
  unfold record_call at 1. cbn [db]. by rewrite Hread.
Qed.

(** The end of a turn without StaleOnly touches neither yfinance nor the
    table. *)
Lemma reread_last_n_keeps_calls (n : nat) (asset : string * string) :
  keeps upstream_calls (reread_last_n n asset).
Proof. unfold reread_last_n. keeps_auto; auto using emit_series_keeps_calls. Qed.

Lemma reread_last_n_keeps_db (n : nat) (asset : string * string) :
  keeps db (reread_last_n n asset).
Proof. unfold reread_last_n. keeps_auto; auto using emit_series_keeps_db. Qed.

(** One turn of the trading-day loop without StaleOnly, once the first
    read has answered: the trailing month is asked and stored when the
    policy or the number of rows calls for it, and the rows are read again. *)
Lemma trading_body_live_run (w : world) (n : nat) (force_refresh : bool)
    (asset : string * string) (st : state) (cached : list price_row) :
  fetch_cached_last_n asset.2 n (db st) = inr cached →
  trading_body w n force_refresh false asset st =
    (if force_refresh || (length cached <? n)%nat then
       let* hist := stock_history w asset.2 (HistPeriod "1mo") in
       (match hist with
        | [] => ret tt
        | _ => do_upsert w asset.2 (tail n (sort_index hist))
        end) >> reread_last_n n asset
     else reread_last_n n asset) (turn_started asset st).
Proof.
  intros Hread. unfold trading_body, reread_last_n, turn_started.
  unfold bind, try_query, lift, log_message, yf_Ticker, ret.
  cbn [fst snd db]. unfold record_call at 1 3. cbn [db]. rewrite Hread.
  destruct (force_refresh || _).
  2: { unfold record_call. cbn [db]. by rewrite Hread. }
  destruct (stock_history w asset.2 (HistPeriod "1mo") _) as [st1 [hist| |e]];
    [|reflexivity..].
  destruct hist as [|r hist]; [reflexivity|].
  by destruct (do_upsert w asset.2 _ st1) as [st2 [[]| |e]].
Qed.

(** C5 read as written: the fetched trailing month is upserted and the last
    [N] cached rows are the result.  With [N = 1] and three bars fetched
    into an empty table, the table afterwards holds the latest bar alone.
    With a bar whose close is NaN the table refuses the batch: nothing is
    stored and the asset has no result.  And with ForceRefresh set but a
    count that does not fit 64 bits, nothing is asked of yfinance at all. *)
Lemma trading_refetch_keeps_last_n_only :
  let run :=
    fetch_asset_history world_example [("a", "A")]%string None None None
      false (Some 1%nat) false ∅ in
  let run_nan :=
    fetch_asset_history world_example [("n", "N")]%string None None None
      false (Some 1%nat) false ∅ in
  (yf_history world_example "A" (HistPeriod "1mo") 1
     = inr [(3, 110%float); (2, 100%float); (5, 99%float)] ∧
   map_to_list (closes_of (db run.1)) = [(("A"%string, 5), 99%float)] ∧
   closes_of (db run.1) ≠
     closes_of (write_rows "2024-01-08 09:00:00" "A"
                  [(3, 110%float); (2, 100%float); (5, 99%float)] ∅)) ∧
  (yf_history world_example "N" (HistPeriod "1mo") 1
     = inr [(4, PrimFloat.nan)] ∧
   db run_nan.1 = ∅ ∧ out_results (outputs_of run_nan.1) = []) ∧
  ∃ n : nat,
    (1 <= n)%nat ∧
    history_count
      (upstream_calls
         (fetch_asset_history world_example [("a", "A")]%string None None None
            true (Some n) false ∅).1) = 0%nat.
Proof.
  intros run run_nan. split; [|split].
  - split; [reflexivity|]. split; [vm_compute; reflexivity|].
    intros H. apply (f_equal (fun m => m !! ("A"%string, 3))) in H.
    vm_compute in H. discriminate.
  - split; [reflexivity|]. split; [|vm_compute; reflexivity].
    apply map_eq. intros k. vm_compute. reflexivity.
  - exists (S (Z.to_nat sqlite_max_int)). split; [lia|].
    unfold fetch_asset_history. cbn [truthy_days fst].
    unfold for_assets. cbn [foldl]. unfold try_asset.
    rewrite trading_body_overflow by (unfold sqlite_max_int; lia).
    reflexivity.
Qed.

(** C5, amended: in trading-day-count mode without StaleOnly, at the turn
    of any asset, for a count [N] that fits 64 bits: if ForceRefresh is
    set or fewer than [N] rows are cached, the trailing month is asked of
    yfinance, once; if that raises the turn ends there with the table
    untouched; otherwise the last [N] bars (by date) of the answer, and only
    those, are upserted, and the last [N] cached rows are read again as the
    result, unless one of those bars has a NaN close: then the table
    refuses the batch, nothing is stored and the turn ends by
    [IntegrityError].  If at least [N] rows are cached and ForceRefresh is
    not set, no history is asked and the table is untouched.  For a count
    beyond 64 bits the first read raises [OverflowError] and the turn ends
    there, whatever the policy, before anything is asked. *)
Theorem trading_refetch (w : world) (n : nat) (force_refresh : bool)
    (asset : string * string) (st : state) :
  let turn := trading_body w n force_refresh false asset st in
  match fetch_cached_last_n asset.2 n (db st) with
  | inl e =>
    e = OverflowError ∧ sqlite_max_int < Z.of_nat n ∧
    turn = (turn_started asset st, Raised e)
  | inr cached =>
    Z.of_nat n <= sqlite_max_int ∧ cached = last_n_rows asset.2 n (db st) ∧
    if force_refresh || (length cached <? n)%nat then
      upstream_calls turn.1 =
        upstream_calls st ++
          [CallTicker asset.2; CallHistory asset.2 (HistPeriod "1mo")] ∧
      match yf_history w asset.2 (HistPeriod "1mo")
              (S (length (upstream_calls st))) with
      | inl e => turn = (month_asked asset st, Raised e)
      | inr hist =>
        let bars := tail n (sort_index hist) in
        match upsert_prices (now_str w (upserts st)) asset.2 bars (db st) with
        | inr db1 =>
          db1 = write_rows (now_str w (upserts st)) asset.2 bars (db st) ∧
          ∃ st_mid,
            db st_mid = db1 ∧
            outputs_of st_mid = outputs_of st ∧
            turn = reread_last_n n asset st_mid
        | inl e =>
          e = IntegrityError ∧ has_nan_close bars = true ∧
          db turn.1 = db st ∧ outputs_of turn.1 = outputs_of st ∧
          turn.2 = Raised e
        end
      end
    else
      upstream_calls turn.1 = upstream_calls st ++ [CallTicker asset.2] ∧
      db turn.1 = db st ∧
      turn = reread_last_n n asset (turn_started asset st)
  end.
Proof.
  intros turn.
  destruct (fetch_cached_last_n_cases asset.2 n (db st))
    as [[Hle Hread]|[Hlt Hread]]; rewrite Hread.
  2: { split; [done|]. split; [done|]. by apply trading_body_overflow. }
  split; [done|]. split; [done|].
  set (cached := last_n_rows asset.2 n (db st)).
  assert (Hcalls : ∀ m : M unit, m = reread_last_n n asset →
            keeps upstream_calls m).
  { intros m ->. apply reread_last_n_keeps_calls. }
  assert (Hdb : ∀ m : M unit, m = reread_last_n n asset → keeps db m).
  { intros m ->. apply reread_last_n_keeps_db. }
  assert (Hlen : length (upstream_calls (turn_started asset st))
                 = S (length (upstream_calls st))).
  { simpl. rewrite length_app. simpl. lia. }
  assert (Hturn : turn =
    (if force_refresh || (length cached <? n)%nat then
       let* hist := stock_history w asset.2 (HistPeriod "1mo") in
       (match hist with
        | [] => ret tt
        | _ => do_upsert w asset.2 (tail n (sort_index hist))
        end) >> reread_last_n n asset
     else reread_last_n n asset) (turn_started asset st)).
  { subst turn. by apply trading_body_live_run. }
  rewrite Hturn. clear Hturn turn.
  destruct (force_refresh || (length cached <? n)%nat).
  - assert (Hhist :
      stock_history w asset.2 (HistPeriod "1mo") (turn_started asset st) =
      match yf_history w asset.2 (HistPeriod "1mo")
              (S (length (upstream_calls st))) with
      | inl e => (month_asked asset st, Raised e)
      | inr hist => (month_asked asset st, Normal hist)
      end) by (unfold stock_history; by rewrite Hlen).
    match goal with
    | |- context [?m (turn_started asset st)] => set (turn := m (turn_started asset st))
    end.
    assert (Hturn : turn =
      match yf_history w asset.2 (HistPeriod "1mo")
              (S (length (upstream_calls st))) with
      | inl e => (month_asked asset st, Raised e)
      | inr hist =>
        ((match hist with
          | [] => ret tt
          | _ => do_upsert w asset.2 (tail n (sort_index hist))
          end) >> reread_last_n n asset) (month_asked asset st)
      end).
    { subst turn. unfold bind at 1. rewrite Hhist.
      by destruct (yf_history w asset.2 (HistPeriod "1mo") _). }
    rewrite Hturn. clear Hturn Hhist turn.
    destruct (yf_history w asset.2 (HistPeriod "1mo") _) as [e|hist].
    + split; [|reflexivity]. simpl. by rewrite <- app_assoc.
    + cbv zeta. set (bars := tail n (sort_index hist)).
      assert (Hstep :
        (match hist with
         | [] => ret tt
         | _ => do_upsert w asset.2 bars
         end) (month_asked asset st) =
        do_upsert w asset.2 bars (month_asked asset st)).
      { destruct hist; [|done]. reflexivity. }
      unfold bind. rewrite Hstep. clear Hstep.
      unfold do_upsert.
      change (upserts (month_asked asset st)) with (upserts st).
      change (db (month_asked asset st)) with (db st).
      unfold upsert_prices.
      destruct bars as [|bar bars'] eqn:Hbars.
      * cbn [has_nan_close existsb write_rows]. split.
        -- rewrite (Hcalls _ eq_refl). simpl. by rewrite <- app_assoc.
        -- split; [done|]. by exists (month_asked asset st).
      * destruct (has_nan_close (bar :: bars')); cbn [table_after].
        -- split; [simpl; by rewrite <- app_assoc|]. done.
        -- split.
           ++ rewrite (Hcalls _ eq_refl). simpl. by rewrite <- app_assoc.
           ++ split; [done|]. eexists. split; [|split; [|reflexivity]]; done.
  - split; [by rewrite (Hcalls _ eq_refl)|].
    split; [by rewrite (Hdb _ eq_refl)|reflexivity].
Qed.

(** * Further properties of the table and its reads *)

(** ** The rows of a ticker *)

Lemma elem_of_ticker_rows (ticker : string) (db0 : store) (d : date) (c : float) :
  (d, c) ∈ ticker_rows ticker db0 ↔ ∃ ts, db0 !! (ticker, d) = Some (c, ts).
Proof.
  unfold ticker_rows. rewrite list_elem_of_omap. split.
  - intros ([[t d'] [c' ts]] & Hin & Hf). simpl in Hf.
    destruct (decide (t = ticker)) as [->|]; [|done].
    injection Hf as -> ->. exists ts. by apply elem_of_map_to_list in Hin.
  - intros [ts Hts]. exists ((ticker, d), (c, ts)). split.
    + by apply elem_of_map_to_list.
    + simpl. by rewrite decide_True.
Qed.

Lemma ticker_rows_dates_NoDup (ticker : string) (db0 : store) :
  NoDup (map fst (ticker_rows ticker db0)).
Proof.
  unfold ticker_rows.
  pose proof (NoDup_fst_map_to_list db0) as Hkeys.
  induction (map_to_list db0) as [|[[t d] [c ts]] l IH]; simpl; [constructor|].
  apply NoDup_cons in Hkeys as [Hk Hl]. specialize (IH Hl).
  destruct (decide (t = ticker)) as [->|]; [|done].
  simpl. apply NoDup_cons. split; [|done].
  intros Hd. apply Hk.
  apply list_elem_of_fmap in Hd as ([d' c'] & Hdd & Hin). simpl in Hdd. subst d'.
  apply list_elem_of_omap in Hin as ([[t' d'] [c'' ts']] & Hin & Hf).
  simpl in Hf. destruct (decide (t' = ticker)) as [->|]; [|done].
  injection Hf as -> ->.
  apply list_elem_of_fmap. by exists ((ticker, d), (c', ts')).
Qed.

Lemma ticker_rows_NoDup (ticker : string) (db0 : store) :
  NoDup (ticker_rows ticker db0).
Proof. eapply NoDup_fmap_1, ticker_rows_dates_NoDup. Qed.

#[global] Instance date_asc_total : Total date_asc.
Proof. intros r1 r2. unfold date_asc. lia. Qed.
#[global] Instance date_asc_trans : Transitive date_asc.
Proof. intros r1 r2 r3. unfold date_asc. lia. Qed.
#[global] Instance date_desc_total : Total date_desc.
Proof. intros r1 r2. unfold date_desc. lia. Qed.
#[global] Instance date_desc_trans : Transitive date_desc.
Proof. intros r1 r2 r3. unfold date_desc. lia. Qed.

(** Sorted with one row per date is strictly sorted. *)
Lemma StronglySorted_date_lt (l : list price_row) :
  StronglySorted date_asc l → NoDup (map fst l) → StronglySorted date_lt l.
Proof.
  induction 1 as [|r l Hl IH Hr]; intros Hnd; [constructor|].
  simpl in Hnd. apply NoDup_cons in Hnd as [Hr' Hnd].
  constructor; [by apply IH|].
  rewrite Forall_forall in Hr |- *. intros r' Hin.
  specialize (Hr r' Hin). unfold date_asc, date_lt in *.
  assert (r.1 ≠ r'.1); [|lia].
  intros Heq. apply Hr'. rewrite Heq. by apply list_elem_of_fmap_2.
Qed.

Lemma date_lt_of_desc (l : list price_row) :
  StronglySorted date_desc l → NoDup (map fst l) →
  StronglySorted date_lt (reverse l).
Proof.
  intros Hs Hnd.
  apply StronglySorted_date_lt.
  - apply Sorted_StronglySorted; [apply _|].
    apply (Sorted_reverse date_desc). by apply StronglySorted_Sorted.
  - change (NoDup (fst <$> reverse l)). by rewrite reverse_Permutation.
Qed.

(** Two strictly ascending lists with the same rows are the same list. *)
Lemma date_lt_unique (l1 l2 : list price_row) :
  StronglySorted date_lt l1 → StronglySorted date_lt l2 →
  (∀ r, r ∈ l1 ↔ r ∈ l2) → l1 = l2.
Proof.
  intros H1 H2 Hsame.
  assert (Hnd : ∀ l, StronglySorted date_lt l → NoDup l).
  { induction 1 as [|r l Hl IH Hr]; constructor; [|done].
    intros Hin. rewrite Forall_forall in Hr. specialize (Hr r Hin).
    unfold date_lt in Hr. lia. }
  apply (StronglySorted_unique_strong date_lt); [|done..|].
  - intros r1 r2 _ _. unfold date_lt. lia.
  - apply NoDup_Permutation; auto.
Qed.

Lemma all_cached_sorted (ticker : string) (db0 : store) :
  StronglySorted date_lt (all_cached ticker db0).
Proof.
  unfold all_cached. apply StronglySorted_date_lt.
  - apply StronglySorted_merge_sort; apply _.
  - change (NoDup (fst <$> merge_sort date_asc (ticker_rows ticker db0))).
    rewrite merge_sort_Permutation. apply ticker_rows_dates_NoDup.
Qed.

Lemma fetch_cached_prices_sorted (ticker : string) (s e : date) (db0 : store) :
  StronglySorted date_lt (fetch_cached_prices ticker s e db0).
Proof.
  unfold fetch_cached_prices. apply StronglySorted_date_lt.
  - apply StronglySorted_merge_sort; apply _.
  - change (NoDup (fst <$> merge_sort date_asc
                     (filter (in_window s e) (ticker_rows ticker db0)))).
    rewrite merge_sort_Permutation.
    eapply sublist_NoDup; [apply ticker_rows_dates_NoDup|].
    apply fmap_sublist, sublist_filter.
Qed.

Lemma elem_of_fetch_cached_prices (ticker : string) (s e : date) (db0 : store)
    (d : date) (c : float) :
  (d, c) ∈ fetch_cached_prices ticker s e db0 ↔
  (∃ ts, db0 !! (ticker, d) = Some (c, ts)) ∧ s <= d <= e.
Proof.
  unfold fetch_cached_prices.
  rewrite merge_sort_Permutation, list_elem_of_filter, elem_of_ticker_rows.
  unfold in_window. simpl. tauto.
Qed.

(** X1: [fetch_cached_prices] is the range scan of one ticker: it returns
    exactly the rows of that ticker whose date lies in the window, both
    bounds included, in strictly ascending date order (so no date twice). *)
Theorem fetch_cached_prices_range_scan (ticker : string) (s e : date)
    (db0 : store) :
  (∀ d c, (d, c) ∈ fetch_cached_prices ticker s e db0 ↔
          (∃ ts, db0 !! (ticker, d) = Some (c, ts)) ∧ s <= d <= e) ∧
  StronglySorted date_lt (fetch_cached_prices ticker s e db0).
Proof.
  split.
  - intros d c. apply elem_of_fetch_cached_prices.
  - apply fetch_cached_prices_sorted.
Qed.

(** [last_n_rows] is the tail of the ticker's rows, oldest first. *)
Lemma last_n_rows_tail (ticker : string) (n : nat) (db0 : store) :
  last_n_rows ticker n db0 = tail n (all_cached ticker db0).
Proof.
  unfold last_n_rows, tail.
  set (desc := merge_sort date_desc (ticker_rows ticker db0)).
  assert (Hrev : reverse desc = all_cached ticker db0).
  { apply date_lt_unique.
    - apply date_lt_of_desc.
      + apply StronglySorted_merge_sort; apply _.
      + change (NoDup (fst <$> desc)). unfold desc.
        rewrite merge_sort_Permutation. apply ticker_rows_dates_NoDup.
    - apply all_cached_sorted.
    - intros r. unfold desc, all_cached.
      by rewrite reverse_Permutation, !merge_sort_Permutation. }
  rewrite reverse_take, Hrev. f_equal.
  by rewrite <- Hrev, length_reverse.
Qed.

Lemma tail_suffix (n : nat) (l : dataframe) :
  ∃ older, l = older ++ tail n l ∧ length (tail n l) = Nat.min n (length l).
Proof.
  exists (take (length l - n)%nat l). unfold tail. split.
  - by rewrite take_drop.
  - rewrite length_drop. lia.
Qed.

(** The statement of [fetch_cached_last_n] returns the [n] most recent rows
    of the ticker, or all of them when there are fewer. *)
Lemma last_n_rows_most_recent (ticker : string) (n : nat) (db0 : store) :
  let rows := last_n_rows ticker n db0 in
  length rows = Nat.min n (length (ticker_rows ticker db0)) ∧
  StronglySorted date_lt rows ∧
  (∀ d c, (d, c) ∈ rows → ∃ ts, db0 !! (ticker, d) = Some (c, ts)) ∧
  (∀ d c ts d' c', db0 !! (ticker, d) = Some (c, ts) → (d, c) ∉ rows →
                   (d', c') ∈ rows → d < d').
Proof.
  intros rows. subst rows. rewrite last_n_rows_tail.
  destruct (tail_suffix n (all_cached ticker db0)) as (older & Hall & Hlen).
  pose proof (all_cached_sorted ticker db0) as Hsorted.
  assert (Hin : ∀ d c, (d, c) ∈ all_cached ticker db0 ↔
                       ∃ ts, db0 !! (ticker, d) = Some (c, ts)).
  { intros d c. unfold all_cached.
    by rewrite merge_sort_Permutation, elem_of_ticker_rows. }
  rewrite Hall in Hsorted. apply StronglySorted_app in Hsorted as (Hlt & _ & Hs).
  split; [|split; [done|split]].
  - etrans; [exact Hlen|]. unfold all_cached. f_equal.
    apply Permutation_length, merge_sort_Permutation.
  - intros d c Hdc. apply Hin. rewrite Hall. apply elem_of_app. by right.
  - intros d c ts d' c' Hdb Hnot Hin'.
    assert (Hold : (d, c) ∈ older).
    { assert (H : (d, c) ∈ all_cached ticker db0) by (apply Hin; eauto).
      rewrite Hall in H. apply elem_of_app in H as [H|H]; done. }
    exact (Hlt _ _ Hold Hin').
Qed.

(** X2: for a count that fits 64 bits [fetch_cached_last_n] returns the [n]
    most recent rows of the ticker, or all of them when there are fewer:
    [min(n, count)] rows of the table, in strictly ascending date order,
    every row of the ticker left out being older than every row returned.
    For a larger count it raises [OverflowError], and only then. *)
Theorem fetch_cached_last_n_most_recent (ticker : string) (n : nat)
    (db0 : store) :
  match fetch_cached_last_n ticker n db0 with
  | inr rows =>
    Z.of_nat n <= sqlite_max_int ∧
    length rows = Nat.min n (length (ticker_rows ticker db0)) ∧
    StronglySorted date_lt rows ∧
    (∀ d c, (d, c) ∈ rows → ∃ ts, db0 !! (ticker, d) = Some (c, ts)) ∧
    (∀ d c ts d' c', db0 !! (ticker, d) = Some (c, ts) → (d, c) ∉ rows →
                     (d', c') ∈ rows → d < d')
  | inl e => e = OverflowError ∧ sqlite_max_int < Z.of_nat n
  end.
Proof.
  destruct (fetch_cached_last_n_cases ticker n db0) as [[Hle ->]|[Hlt ->]];
    [|done].
  split; [done|]. apply last_n_rows_most_recent.
Qed.

(** ** Writes seen by reads *)

(** The reads of a ticker depend only on the rows of that ticker. *)
Lemma reads_agree (ticker : string) (db1 db2 : store) :
  (∀ d, db1 !! (ticker, d) = db2 !! (ticker, d)) →
  (∀ s e, fetch_cached_prices ticker s e db1 = fetch_cached_prices ticker s e db2) ∧
  (∀ n, fetch_cached_last_n ticker n db1 = fetch_cached_last_n ticker n db2).
Proof.
  intros Hsame. split.
  - intros s e. apply date_lt_unique; try apply fetch_cached_prices_sorted.
    intros [d c]. rewrite !elem_of_fetch_cached_prices. by rewrite Hsame.
  - intros n. unfold fetch_cached_last_n.
    destruct (Z.of_nat n <=? sqlite_max_int); [|done]. f_equal.
    rewrite !last_n_rows_tail. f_equal.
    apply date_lt_unique; try apply all_cached_sorted.
    intros [d c]. unfold all_cached.
    rewrite !merge_sort_Permutation, !elem_of_ticker_rows. by rewrite Hsame.
Qed.

(** A lookup after [write_rows]: the last bar written for the key, or
    the row that was there. *)
Lemma write_rows_lookup (now ticker : string) (hist : dataframe)
    (db0 : store) (k : string * Z) :
  write_rows now ticker hist db0 !! k =
  match list_to_map (M := gmap (string * Z) float) (keyed_rows ticker hist) !! k with
  | Some c => Some (c, now)
  | None => db0 !! k
  end.
Proof.
  assert (Hfold : ∀ (l : dataframe) (m : store),
    foldl (insert_or_replace ticker now) m l !! k =
    match list_to_map (M := gmap (string * Z) float) (keyed_rows ticker l) !! k with
    | Some c => Some (c, now)
    | None => m !! k
    end).
  { induction l as [|r l IH]; intros m; [done|].
    cbn [foldl]. rewrite IH. unfold keyed_rows. cbn [map].
    rewrite reverse_cons, list_to_map_app, lookup_union.
    fold (keyed_rows ticker l).
    destruct (list_to_map (keyed_rows ticker l) !! k) as [c|] eqn:E.
    - by rewrite union_Some_l.
    - rewrite (left_id_L None union). unfold insert_or_replace. simpl.
      destruct (decide ((ticker, r.1) = k)) as [<-|Hne].
      + by rewrite !lookup_insert_eq.
      + rewrite !lookup_insert_ne by done. by rewrite lookup_empty. }
  destruct hist as [|r hist]; [done|]. apply Hfold.
Qed.

Lemma keyed_rows_lookup_None (ticker : string) (hist : dataframe)
    (t : string) (d : date) :
  t ≠ ticker ∨ d ∉ map fst hist →
  list_to_map (M := gmap (string * Z) float) (keyed_rows ticker hist) !! (t, d) = None.
Proof.
  intros Hout. apply not_elem_of_list_to_map_1. unfold keyed_rows.
  rewrite fmap_reverse, elem_of_reverse, <- list_fmap_compose.
  intros ([d' c'] & Heq & Hin)%list_elem_of_fmap. simpl in Heq.
  injection Heq as -> ->. destruct Hout as [Ht|Hd]; [done|].
  apply Hd. change (d' ∈ fst <$> hist). by apply (list_elem_of_fmap_2 fst) in Hin.
Qed.

Lemma keyed_rows_lookup_last (ticker : string) (older newer : dataframe)
    (d : date) (c : float) :
  d ∉ map fst newer →
  list_to_map (M := gmap (string * Z) float)
    (keyed_rows ticker (older ++ (d, c) :: newer)) !! (ticker, d) = Some c.
Proof.
  intros Hnew. unfold keyed_rows.
  rewrite map_app. cbn [map]. rewrite reverse_app, reverse_cons.
  rewrite <- (assoc_L (++)). rewrite list_to_map_app, lookup_union.
  fold (keyed_rows ticker newer).
  rewrite keyed_rows_lookup_None by (by right).
  rewrite (left_id_L None union). simpl. by rewrite lookup_insert_eq.
Qed.

(** X3: a bar written by [upsert_prices] is read back.  When no close of
    the frame is NaN the frame is stored, and of its bars with the same date
    the last one wins: its close is what the key [(ticker, date)] holds
    afterwards, stamped with the clock reading of this upsert, and what the
    range scan of any window holding the date returns for it.  When a close
    is NaN the call raises [IntegrityError] and nothing is stored. *)
Theorem upsert_then_read (now ticker : string) (older newer : dataframe)
    (d : date) (c : float) (db0 : store) (s e : date) :
  d ∉ map fst newer →
  s <= d <= e →
  let frame := older ++ (d, c) :: newer in
  match upsert_prices now ticker frame db0 with
  | inr db1 =>
    has_nan_close frame = false ∧
    db1 !! (ticker, d) = Some (c, now) ∧
    (d, c) ∈ fetch_cached_prices ticker s e db1 ∧
    ∀ c', (d, c') ∈ fetch_cached_prices ticker s e db1 → c' = c
  | inl err =>
    has_nan_close frame = true ∧ err = IntegrityError ∧
    table_after db0 (upsert_prices now ticker frame db0) = db0
  end.
Proof.
  intros Hnew Hwin frame. unfold upsert_prices.
  destruct (has_nan_close frame); [done|]. split; [done|].
  set (db1 := write_rows now ticker frame db0).
  assert (Hlook : db1 !! (ticker, d) = Some (c, now)).
  { unfold db1, frame. rewrite write_rows_lookup.
    by rewrite keyed_rows_lookup_last. }
  split; [done|]. split.
  - apply elem_of_fetch_cached_prices. eauto.
  - intros c' [[ts Hts] _]%elem_of_fetch_cached_prices. congruence.
Qed.

Lemma upsert_then_read_witness :
  (7 ∉ map fst [(5, 102%float)]) ∧ (1 <= 7 <= 10) ∧
  (7, 90%float) ∈
    fetch_cached_prices "X" 1 10
      (table_after db_one_row
         (upsert_prices "2024-01-08 09:00:00" "X"
            [(5, 101%float); (7, 90%float); (5, 102%float)] db_one_row)).
Proof.
  assert (H : 7 ∉ map fst [(5, 102%float)]) by (by intros [=]%list_elem_of_singleton).
  split; [exact H|]. split; [lia|].
  pose proof (upsert_then_read "2024-01-08 09:00:00" "X" [(5, 101%float)]
                [(5, 102%float)] 7 90%float db_one_row 1 10 H ltac:(lia)) as Hread.
  vm_compute in Hread. destruct Hread as (_ & _ & Hin & _).
  vm_compute. exact Hin.
Defined.

(** X4: [upsert_prices] for one ticker never deletes a row, touches no key
    outside the ticker and the dates of the frame, and leaves both reads of
    every other ticker as they were, whether the frame is stored or
    refused. *)
Theorem upsert_leaves_other_rows (now ticker : string) (hist : dataframe)
    (db0 : store) :
  let db1 := table_after db0 (upsert_prices now ticker hist db0) in
  dom db0 ⊆ dom db1 ∧
  (∀ t d, t ≠ ticker ∨ d ∉ map fst hist → db1 !! (t, d) = db0 !! (t, d)) ∧
  (∀ t, t ≠ ticker →
     (∀ s e, fetch_cached_prices t s e db1 = fetch_cached_prices t s e db0) ∧
     (∀ n, fetch_cached_last_n t n db1 = fetch_cached_last_n t n db0)).
Proof.
  intros db1. subst db1. unfold upsert_prices.
  destruct (has_nan_close hist); cbn [table_after]; [done|].
  set (db1 := write_rows now ticker hist db0).
  assert (Hout : ∀ t d, t ≠ ticker ∨ d ∉ map fst hist →
                        db1 !! (t, d) = db0 !! (t, d)).
  { intros t d H. unfold db1. rewrite write_rows_lookup.
    by rewrite keyed_rows_lookup_None. }
  split; [|split; [done|]].
  - intros k. rewrite !elem_of_dom. unfold db1. rewrite write_rows_lookup.
    destruct (list_to_map (keyed_rows ticker hist) !! k); [by eauto|done].
  - intros t Ht. apply reads_agree. intros d. apply Hout. by left.
Qed.

(** * Further properties of the loops *)

(** ** The plan, whatever the policy *)

Lemma add_range_inside (s e rs re : date) (fr : list (date * date)) :
  s <= rs → re <= e → Forall (inside s e) fr →
  Forall (inside s e) (add_range rs re fr) ∧
  (length (add_range rs re fr) <= S (length fr))%nat.
Proof.
  intros Hs He Hfr. unfold add_range.
  destruct (Z.ltb_spec re rs); [split; [done|lia]|].
  split.
  - apply Forall_app. split; [done|].
    constructor; [|constructor]. unfold inside. simpl. lia.
  - rewrite length_app. simpl. lia.
Qed.

(** Every planned sub-window is a non-empty part of the window, and no
    plan has more than three. *)
Lemma plan_inside_window (stale force : bool) (ticker : string) (s e : date)
    (db0 : store) :
  let plan :=
    plan_fetch_ranges stale force s e (refresh_start_of s e)
      (fetch_cached_prices ticker s e db0) in
  Forall (inside s e) plan ∧ (length plan <= 3)%nat.
Proof.
  intros plan. subst plan. unfold plan_fetch_ranges.
  destruct stale; simpl negb; cbv iota zeta; [split; [constructor|simpl; lia]|].
  assert (H0 : Forall (inside s e) (@nil (date * date))) by constructor.
  assert (H1 : let fr := if force then add_range s e [] else
                           add_range (refresh_start_of s e) e [] in
               Forall (inside s e) fr ∧ (length fr <= 1)%nat).
  { destruct force; apply add_range_inside; unfold refresh_start_of; try done; lia. }
  cbv zeta in H1. destruct H1 as [H1 L1].
  set (fr := if force then _ else _) in *. clearbody fr.
  destruct (fetch_cached_prices ticker s e db0) as [|r rows] eqn:Hrows.
  - destruct (add_range_inside s e s e fr) as [? ?]; try done; try lia.
    split; [done|lia].
  - destruct (slice_extent _ _ _ _ _ _ Hrows) as (mn & mx & -> & -> & Bmn & Bmx).
    assert (H2 : let fr2 := if s <? mn then add_range s (mn - 1) fr else fr in
                 Forall (inside s e) fr2 ∧ (length fr2 <= 2)%nat).
    { destruct (Z.ltb_spec s mn); [|split; [done|lia]].
      destruct (add_range_inside s e s (mn - 1) fr) as [? ?]; try done; try lia.
      split; [done|lia]. }
    cbv zeta in H2. destruct H2 as [H2 L2].
    set (fr2 := if s <? mn then _ else _) in *. clearbody fr2.
    destruct (Z.ltb_spec mx e); [|split; [done|lia]].
    destruct (add_range_inside s e (mx + 1) e fr2) as [? ?]; try done; try lia.
    split; [done|lia].
Qed.

(** ** The calls of the calendar-window loop *)

(** The fetch loop asks for the planned sub-windows in order and stops at
    the first request that raises. *)
Lemma for_each_fetch_range_calls (w : world) (stock ticker : string)
    (plan : list (date * date)) (st : state) :
  ∃ j, (j <= length plan)%nat ∧
    upstream_calls (for_each (fetch_range w stock ticker) plan st).1 =
      upstream_calls st ++ map (range_request stock) (take j plan) ∧
    ((for_each (fetch_range w stock ticker) plan st).2 = Normal tt →
     j = length plan).
Proof.
  revert st. induction plan as [|r plan IH]; intros st.
  - exists 0%nat. simpl. by rewrite app_nil_r.
  - assert (Hone : ∃ st1 sig,
      fetch_range w stock ticker r st = (st1, sig) ∧
      sig ≠ Continue ∧
      (upstream_calls st1 = upstream_calls st ++ [range_request stock r] ∨
       upstream_calls st1 = upstream_calls st ∧ ∃ err, sig = Raised err)).
    { unfold fetch_range, bind, lift, next_day, stock_history, range_request.
      destruct (r.2 <? date_max); [|eexists _, _; eauto 6].
      destruct (yf_history w stock _ _) as [e|hist]; [eexists _, _; eauto|].
      destruct hist as [|b hist]; [eexists _, _; eauto|].
      unfold do_upsert. destruct (sort_index (b :: hist)); [eexists _, _; eauto|].
      destruct (upsert_prices _ _ _ _); eexists _, _; eauto. }
    destruct Hone as (st1 & sig & Hr & Hsig & Hc).
    assert (Hstep : for_each (fetch_range w stock ticker) (r :: plan) st =
              match sig with
              | Normal _ => for_each (fetch_range w stock ticker) plan st1
              | Continue => (st1, Continue)
              | Raised err => (st1, Raised err)
              end).
    { cbn [for_each]. unfold bind. by rewrite Hr. }
    rewrite Hstep. clear Hstep Hr.
    destruct sig as [[]| |e]; [|done|].
    + destruct Hc as [Hc|[_ [? ?]]]; [|done].
      destruct (IH st1) as (j & Hj & Hcalls & Hnorm).
      exists (S j). split; [simpl; lia|]. split.
      * rewrite Hcalls, Hc. cbn [take map]. by rewrite <- app_assoc.
      * intros H. cbn [length]. f_equal. by apply Hnorm.
    + destruct Hc as [Hc|[Hc _]].
      * exists 1%nat. split; [simpl; lia|]. split; [|done].
        cbn [fst take map]. by rewrite take_0.
      * exists 0%nat. split; [simpl; lia|]. split; [|done].
        cbn [fst take map]. by rewrite Hc, app_nil_r.
Qed.

(** One turn of the calendar-window loop without StaleOnly, step by step:
    the start line and the [Ticker], the fetches of the plan made from the
    slice, then the slice read again and the series built from it. *)
Lemma calendar_body_live_run (w : world) (force : bool) (s e rs : date)
    (asset : string * string) (st : state) :
  let st1 :=
    record_call (CallTicker asset.2)
      (log_message (LogFetchStart asset.1 asset.2) st).1 in
  let plan :=
    plan_fetch_ranges false force s e rs
      (fetch_cached_prices asset.2 s e (db st)) in
  calendar_body w false force s e rs asset st =
  match for_each (fetch_range w asset.2 asset.2) plan st1 with
  | (st2, Normal _) =>
    match fetch_cached_prices asset.2 s e (db st2) with
    | [] => (st2, Continue)
    | rows => emit_series false asset.1 asset.2 rows st2
    end
  | (st2, Continue) => (st2, Continue)
  | (st2, Raised err) => (st2, Raised err)
  end.
Proof.
  intros st1 plan. subst st1 plan. unfold calendar_body.
  unfold bind, log_message, yf_Ticker, query, ret, record_call.
  cbn [fst snd negb db].
  destruct (for_each _ _ _) as [st2 [[]| |err]]; try reflexivity.
  by destruct (fetch_cached_prices asset.2 s e (db st2)).
Qed.

(** The calls of one turn of the calendar-window loop without StaleOnly:
    the [Ticker], then the planned sub-windows up to the first failure. *)
Lemma calendar_body_calls (w : world) (force : bool) (s e : date)
    (asset : string * string) (st : state) :
  let plan :=
    plan_fetch_ranges false force s e (refresh_start_of s e)
      (fetch_cached_prices asset.2 s e (db st)) in
  let turn := calendar_body w false force s e (refresh_start_of s e) asset st in
  ∃ j, (j <= length plan)%nat ∧
    upstream_calls turn.1 =
      upstream_calls st ++
        CallTicker asset.2 :: map (range_request asset.2) (take j plan) ∧
    (turn.2 = Normal tt → j = length plan).
Proof.
  intros plan turn. subst turn. rewrite calendar_body_live_run. cbv zeta.
  fold plan.
  set (st1 := record_call _ _).
  destruct (for_each_fetch_range_calls w asset.2 asset.2 plan st1)
    as (j & Hj & Hcalls & Hnorm).
  assert (Hst1 : upstream_calls st1 = upstream_calls st ++ [CallTicker asset.2])
    by reflexivity.
  rewrite Hst1, <- app_assoc in Hcalls. cbn [app] in Hcalls.
  exists j. split; [done|].
  destruct (for_each (fetch_range w asset.2 asset.2) plan st1)
    as [st2 [[]| |err]]; cbn [fst snd] in *; [|done..].
  destruct (fetch_cached_prices asset.2 s e (db st2)) as [|r rows];
    [done|].
  rewrite emit_series_keeps_calls. split; [done|]. intros _. by apply Hnorm.
Qed.

Lemma history_count_app (l1 l2 : list upstream_call) :
  history_count (l1 ++ l2) = (history_count l1 + history_count l2)%nat.
Proof. unfold history_count. by rewrite filter_app, length_app. Qed.

Lemma history_count_requests (stock : string) (ranges : list (date * date)) :
  history_count (map (range_request stock) ranges) = length ranges.
Proof.
  unfold history_count. induction ranges as [|r ranges IH]; [done|].
  cbn [map]. rewrite filter_cons_True by done. simpl. by rewrite IH.
Qed.

(** What the loop adds to the calls is what its turns add. *)
Lemma for_assets_calls (P : upstream_call → Prop) (k : nat)
    (body : string * string → M unit) (assets : list (string * string))
    (st : state) :
  (∀ a st, a ∈ assets →
     ∃ l, upstream_calls (body a st).1 = upstream_calls st ++ l ∧
          Forall P l ∧ (history_count l <= k)%nat) →
  ∃ l, upstream_calls (for_assets body assets st) = upstream_calls st ++ l ∧
       Forall P l ∧ (history_count l <= k * length assets)%nat.
Proof.
  unfold for_assets. revert st.
  induction assets as [|a assets IH]; intros st Hbody.
  - exists []. simpl. rewrite app_nil_r. repeat split; [constructor|].
    unfold history_count. simpl. lia.
  - cbn [foldl].
    destruct (Hbody a st (list_elem_of_here _ _)) as (l1 & Hl1 & HP1 & Hk1).
    assert (Hturn : upstream_calls (try_asset body st a) = upstream_calls st ++ l1).
    { unfold try_asset. by destruct (body a st) as [st1 [[]| |err]]. }
    destruct (IH (try_asset body st a)) as (l2 & Hl2 & HP2 & Hk2).
    { intros a' st' Ha'. apply Hbody. by apply list_elem_of_further. }
    exists (l1 ++ l2). rewrite Hl2, Hturn, <- app_assoc. split; [done|].
    split; [by apply Forall_app|].
    rewrite history_count_app. cbn [length]. lia.
Qed.

(** X5: in calendar-window mode, whatever the policy and whatever yfinance
    answers, every history request of the batch is for a ticker of the asset
    set and for days of the requested window only (its exclusive end at most
    the day after [end]), no [period=] request is made, and an asset costs at
    most three history requests. *)
Theorem calendar_requests_stay_in_window (w : world)
    (assets : list (string * string)) (period start end_ : option string)
    (force_refresh : bool) (trading_days : option nat) (stale_only : bool)
    (db0 : store) (start_date end_date : date) :
  truthy_days trading_days = None →
  resolve_date_range w period start end_ = inr (start_date, end_date) →
  let run :=
    fetch_asset_history w assets period start end_ force_refresh trading_days
      stale_only db0 in
  Forall (call_within start_date end_date (map snd assets))
    (upstream_calls run.1) ∧
  (history_count (upstream_calls run.1) <= 3 * length assets)%nat.
Proof.
  intros Hdays Hrange run. subst run.
  rewrite fetch_asset_history_loop. unfold loop_body. rewrite Hdays, Hrange.
  cbn [fst].
  destruct (for_assets_calls
              (call_within start_date end_date (map snd assets)) 3
              (calendar_body w stale_only force_refresh start_date end_date
                 (refresh_start_of start_date end_date))
              assets (initial_state db0)) as (l & Hl & HP & Hk); [|by rewrite Hl].
  intros a st Ha. destruct stale_only.
  - exists []. rewrite calendar_body_stale_keeps_calls, app_nil_r.
    split; [done|]. split; [constructor|]. unfold history_count. simpl. lia.
  - destruct (calendar_body_calls w force_refresh start_date end_date a st)
      as (j & Hj & Hcalls & _).
    destruct (plan_inside_window false force_refresh a.2 start_date end_date (db st))
      as [Hin Hlen].
    eexists. split; [exact Hcalls|].
    assert (Ht : a.2 ∈ map snd assets) by (by apply list_elem_of_fmap_2).
    split.
    + constructor; [exact Ht|]. apply Forall_fmap.
      eapply Forall_impl; [by apply Forall_take|].
      intros r (H1 & H2 & H3). simpl. repeat split; [done|lia..].
    + change (CallTicker a.2 :: ?l) with ([CallTicker a.2] ++ l).
      rewrite history_count_app, history_count_requests, length_take.
      unfold history_count. simpl. lia.
Qed.

Lemma calendar_requests_stay_in_window_witness :
  let run :=
    fetch_asset_history world_example assets_example None
      (Some "2024-01-01"%string) (Some "2024-01-10"%string) false None false ∅ in
  Forall (call_within 1 10 ["A"; "B"; "C"]%string) (upstream_calls run.1).
Proof.
  apply (calendar_requests_stay_in_window world_example assets_example None
           (Some "2024-01-01"%string) (Some "2024-01-10"%string) false None
           false ∅ 1 10 eq_refl eq_refl).
Defined.

(** ** The calls of the trading-day loop *)

Lemma trading_body_calls (w : world) (n : nat) (force stale : bool)
    (asset : string * string) (st : state) :
  ∃ l, upstream_calls (trading_body w n force stale asset st).1 =
         upstream_calls st ++ l ∧
       (l = [] ∨ l = [CallTicker asset.2] ∨
        l = [CallTicker asset.2; CallHistory asset.2 (HistPeriod "1mo")]).
Proof.
  destruct stale.
  - exists []. rewrite trading_body_stale_keeps_calls, app_nil_r. auto.
  - destruct (fetch_cached_last_n_cases asset.2 n (db st))
      as [[_ Hread]|[Hlt _]].
    2: { rewrite trading_body_overflow by done.
         exists [CallTicker asset.2]. split; [reflexivity|auto]. }
    rewrite (trading_body_live_run _ _ _ _ _ _ Hread).
    destruct (force || _).
    + unfold bind at 1. unfold stock_history.
      destruct (yf_history w asset.2 (HistPeriod "1mo") _) as [err|hist].
      * eexists. cbn [fst turn_started record_call upstream_calls log_message].
        rewrite <- app_assoc. split; [reflexivity|]. auto.
      * match goal with
        | |- context [(?m ?st1).1] =>
          assert (Hk : keeps upstream_calls m)
            by (keeps_auto; auto using reread_last_n_keeps_calls);
          rewrite (Hk st1)
        end.
        eexists. cbn [fst turn_started record_call upstream_calls log_message].
        rewrite <- app_assoc. split; [reflexivity|]. auto.
    + rewrite reread_last_n_keeps_calls. eexists.
      cbn [fst turn_started record_call upstream_calls log_message].
      split; [reflexivity|]. auto.
Qed.

(** X6: in trading-day-count mode, whatever the policy and whatever
    yfinance answers, the only history request ever made is the trailing
    month of a ticker of the asset set, and an asset costs at most one. *)
Theorem trading_requests_one_month_each (w : world)
    (assets : list (string * string)) (period start end_ : option string)
    (force_refresh : bool) (trading_days : option nat) (stale_only : bool)
    (db0 : store) (n : nat) :
  truthy_days trading_days = Some n →
  let run :=
    fetch_asset_history w assets period start end_ force_refresh trading_days
      stale_only db0 in
  Forall (call_of_month (map snd assets)) (upstream_calls run.1) ∧
  (history_count (upstream_calls run.1) <= length assets)%nat.
Proof.
  intros Hdays run. subst run.
  rewrite fetch_asset_history_loop. unfold loop_body. rewrite Hdays. cbn [fst].
  destruct (for_assets_calls (call_of_month (map snd assets)) 1
              (trading_body w n force_refresh stale_only)
              assets (initial_state db0)) as (l & Hl & HP & Hk).
  - intros a st Ha.
    destruct (trading_body_calls w n force_refresh stale_only a st)
      as (l & Hl & Hcases).
    exists l. split; [done|].
    assert (Ht : a.2 ∈ map snd assets) by (by apply list_elem_of_fmap_2).
    destruct Hcases as [->| [->| ->]]; (split; [repeat constructor; done|]);
      unfold history_count; simpl; lia.
  - rewrite Hl. cbn [initial_state upstream_calls app]. split; [done|lia].
Qed.

Lemma trading_requests_one_month_each_witness :
  let run :=
    fetch_asset_history world_example assets_example None None None false
      (Some 2%nat) false ∅ in
  (history_count (upstream_calls run.1) <= 3)%nat.
Proof.
  apply (trading_requests_one_month_each world_example assets_example None None
           None false (Some 2%nat) false ∅ 2 eq_refl).
Defined.

(** ** What the loops do to the table *)

Section Follows.
Context (R : relation state) `{!PreOrder R}.

Lemma follows_bind {A B} (m : M A) (k : A → M B) :
  follows R m → (∀ a, follows R (k a)) → follows R (bind m k).
Proof.
  intros Hm Hk st. unfold bind. specialize (Hm st).
  destruct (m st) as [st1 [a| |e]]; cbn [fst] in *; [|done..].
  etrans; [exact Hm | apply Hk].
Qed.

Lemma follows_for_each {A} (g : A → M unit) (xs : list A) :
  (∀ x, follows R (g x)) → follows R (for_each g xs).
Proof.
  intros Hg. induction xs as [|x xs IH]; simpl.
  - intros st. reflexivity.
  - apply follows_bind; [apply Hg | intros _; apply IH].
Qed.

Lemma for_assets_follows body assets st :
  (∀ a, a ∈ assets → follows R (body a)) →
  (∀ ev, follows R (log_message ev)) →
  R st (for_assets body assets st).
Proof.
  intros Hbody Hlog. unfold for_assets. revert st.
  induction assets as [|a assets IH]; intros st; simpl; [reflexivity|].
  etrans; [|apply IH; intros a' Ha'; apply Hbody; by apply list_elem_of_further].
  unfold try_asset. pose proof (Hbody a (list_elem_of_here _ _) st) as Ha.
  destruct (body a st) as [st1 [[]| |e]]; cbn [fst] in *; [done..|].
  etrans; [exact Ha | apply Hlog].
Qed.
End Follows.

#[global] Instance writes_only_preorder tickers : PreOrder (writes_only tickers).
Proof.
  split.
  - intros st k. by left.
  - intros st1 st2 st3 H12 H23 k.
    destruct (H23 k) as [H|H]; [|by right].
    rewrite H. apply H12.
Qed.

Lemma keeps_db_writes_only {A} tickers (m : M A) :
  keeps db m → follows (writes_only tickers) m.
Proof. intros Hm st k. left. by rewrite Hm. Qed.

Lemma do_upsert_writes_only w tickers ticker hist :
  ticker ∈ tickers → follows (writes_only tickers) (do_upsert w ticker hist).
Proof.
  intros Ht st k. unfold do_upsert.
  destruct hist as [|b hist]; [by left|]. cbn [fst db]. unfold upsert_prices.
  destruct (has_nan_close (b :: hist)); cbn [table_after]; [by left|].
  rewrite write_rows_lookup.
  destruct (list_to_map (keyed_rows ticker (b :: hist)) !! k) as [c|] eqn:E;
    [|by left].
  right. split; [|by eexists].
  apply elem_of_list_to_map_2 in E. unfold keyed_rows in E.
  apply elem_of_reverse, list_elem_of_fmap in E as (r & Heq & _).
  injection Heq as -> _. done.
Qed.

Ltac writes_step :=
  first
    [ apply keeps_db_writes_only; solve [auto with keeps]
    | apply do_upsert_writes_only; assumption
    | apply follows_bind; [apply _| |intros ?]
    | apply follows_for_each; [apply _|intros ?]
    | match goal with
      | |- follows _ (if ?b then _ else _) => destruct b
      | |- follows _ (match ?x with _ => _ end) => destruct x
      end
    | progress unfold emit_series, change_percent, item_first, item_last,
        float_div, fetch_range ].

Lemma trading_body_writes_only w n force stale tickers asset :
  asset.2 ∈ tickers →
  follows (writes_only tickers) (trading_body w n force stale asset).
Proof. intros Ht. unfold trading_body. repeat writes_step. Qed.

Lemma calendar_body_writes_only w stale force s e rs tickers asset :
  asset.2 ∈ tickers →
  follows (writes_only tickers) (calendar_body w stale force s e rs asset).
Proof. intros Ht. unfold calendar_body. repeat writes_step. Qed.

(** X7: the batch only ever adds to the table or overwrites rows of the
    tickers it was asked for.  No key present before the call is missing
    after it, in either mode and under any policy, and for a ticker outside
    the asset set every row, and so every read, is as it was. *)
Theorem batch_never_deletes (w : world) (assets : list (string * string))
    (period start end_ : option string) (force_refresh : bool)
    (trading_days : option nat) (stale_only : bool) (db0 : store) :
  let run :=
    fetch_asset_history w assets period start end_ force_refresh trading_days
      stale_only db0 in
  dom db0 ⊆ dom (db run.1) ∧
  ∀ t, t ∉ map snd assets →
    (∀ d, db run.1 !! (t, d) = db0 !! (t, d)) ∧
    (∀ s e, fetch_cached_prices t s e (db run.1) = fetch_cached_prices t s e db0) ∧
    (∀ n, fetch_cached_last_n t n (db run.1) = fetch_cached_last_n t n db0).
Proof.
  intros run.
  assert (H : writes_only (map snd assets) (initial_state db0) run.1).
  { subst run. rewrite fetch_asset_history_loop.
    destruct (loop_body w period start end_ force_refresh trading_days stale_only)
      as [err|body] eqn:Hbody; cbn [fst]; [reflexivity|].
    apply for_assets_follows; [apply _| |].
    - intros a Ha.
      assert (Ht : a.2 ∈ map snd assets) by (by apply list_elem_of_fmap_2).
      unfold loop_body in Hbody.
      destruct (truthy_days trading_days).
      + injection Hbody as <-. by apply trading_body_writes_only.
      + destruct (resolve_date_range w period start end_) as [?|[s e]]; [done|].
        injection Hbody as <-. by apply calendar_body_writes_only.
    - intros ev. apply keeps_db_writes_only. auto with keeps. }
  assert (Hsame : ∀ t, t ∉ map snd assets →
                       ∀ d, db run.1 !! (t, d) = db0 !! (t, d)).
  { intros t Ht d. destruct (H (t, d)) as [Hk|[Hk _]]; [exact Hk|done]. }
  split.
  - intros k. rewrite !elem_of_dom. intros Hk.
    destruct (H k) as [Hsame'|[_ Hsome]]; [|done].
    cbn [initial_state db] in Hsame'. by rewrite Hsame'.
  - intros t Ht. split; [by apply Hsame|].
    apply reads_agree. by apply Hsame.
Qed.

(** ** The shape of the outputs *)

Lemma last_default_Some {A} (l : list A) (d : A) :
  l ≠ [] → last l = Some (List.last l d).
Proof.
  induction l as [|x [|y l] IH]; intros Hne; [done|done|].
  change (last (y :: l) = Some (List.last (y :: l) d)). by apply IH.
Qed.

Lemma outputs_agree_add name ticker rows o :
  rows ≠ [] → outputs_agree o →
  outputs_agree (add_series (series_row name ticker rows) (map fst rows) o).
Proof.
  intros Hne (Hres & Hchart & Hd1 & Hd2).
  assert (Hcl : map snd rows ≠ []) by (by destruct rows).
  unfold outputs_agree.
  cbn [add_series out_results out_chart_data out_chart_dates
       out_chart_changes series_row row_asset row_closes row_current row_change].
  split; [|split; [|split]].
  - intros row [Hrow| ->%list_elem_of_singleton]%elem_of_app.
    + destruct (Hres row Hrow) as (H1 & H2 & H3). split; [done|]. split; [done|].
      destruct (decide (name = row_asset row)) as [<-|Hn];
        [by rewrite lookup_insert_eq|].
      by rewrite lookup_insert_ne.
    + cbn. split; [done|]. split; [by apply last_default_Some|].
      by rewrite lookup_insert_eq.
  - intros name' closes. destruct (decide (name = name')) as [<-|Hn].
    + rewrite !lookup_insert_eq. intros [= <-]. split; [done|]. split.
      * eexists. split; [done|]. by rewrite !length_map.
      * eexists. split; [apply elem_of_app; right; apply list_elem_of_here|].
        done.
    + rewrite !lookup_insert_ne by done. intros H.
      destruct (Hchart _ _ H) as (H1 & H2 & row & Hin & H3).
      split; [done|]. split; [done|].
      exists row. split; [|done]. apply elem_of_app. by left.
  - by rewrite !dom_insert_L, Hd1.
  - by rewrite !dom_insert_L, Hd2.
Qed.

(** The names of the rows follow the order of the assets. *)
Lemma for_assets_results_order body assets st :
  (∀ a, emits a.1 a.2 (body a)) →
  ∃ names, map row_asset (results (for_assets body assets st)) =
             map row_asset (results st) ++ names ∧
           names `sublist_of` map fst assets.
Proof.
  intros Hbody. unfold for_assets. revert st.
  induction assets as [|a assets IH]; intros st.
  - exists []. simpl. by rewrite app_nil_r.
  - cbn [foldl]. destruct (IH (try_asset body st a)) as (names & Hnames & Hsub).
    pose proof (try_asset_outputs body a st (Hbody a)) as Hturn.
    destruct ((body a st).2).
    + destruct Hturn as (rows & _ & Hout).
      apply (f_equal out_results) in Hout. cbn in Hout.
      exists (a.1 :: names). rewrite Hnames, Hout, map_app. cbn [map].
      rewrite <- app_assoc. split; [done|]. by apply sublist_skip.
    + apply (f_equal out_results) in Hturn. cbn in Hturn.
      exists names. rewrite Hnames, Hturn. split; [done|]. by apply sublist_cons.
    + apply (f_equal out_results) in Hturn. cbn in Hturn.
      exists names. rewrite Hnames, Hturn. split; [done|]. by apply sublist_cons.
Qed.

Lemma fetch_asset_history_outputs_agree (w : world)
    (assets : list (string * string)) (period start end_ : option string)
    (force : bool) (td : option nat) (stale : bool) (db0 : store)
    (outs : outputs) :
  (fetch_asset_history w assets period start end_ force td stale db0).2
    = inr outs →
  outputs_agree outs.
Proof.
  rewrite fetch_asset_history_loop.
  destruct (loop_body w period start end_ force td stale)
    as [err|body] eqn:Hbody; [done|].
  cbn [snd]. intros [= <-].
  apply (for_assets_outputs_ind outputs_agree).
  - by eapply loop_body_emits.
  - intros o a rows _ Hne Ho. by apply outputs_agree_add.
  - split; [by intros ? ?%elem_of_nil|].
    split; [intros ??; cbn; by rewrite lookup_empty|]. done.
Qed.

(** X8: the four outputs of a batch agree with each other.  The rows of
    [results] come in the order of the asset set, each with a non-empty
    close list whose last element is its current price; the three chart
    dicts have the same keys; and under each key lie the closes, as many
    dates, and the change of a row of [results] of that name. *)
Theorem outputs_are_consistent (w : world) (assets : list (string * string))
    (period start end_ : option string) (force_refresh : bool)
    (trading_days : option nat) (stale_only : bool) (db0 : store)
    (outs : outputs) :
  (fetch_asset_history w assets period start end_ force_refresh trading_days
     stale_only db0).2 = inr outs →
  map row_asset (out_results outs) `sublist_of` map fst assets ∧
  outputs_agree outs.
Proof.
  intros Hrun. split; [|by eapply fetch_asset_history_outputs_agree].
  revert Hrun. rewrite fetch_asset_history_loop.
  destruct (loop_body w period start end_ force_refresh trading_days stale_only)
    as [err|body] eqn:Hbody; [done|].
  cbn [snd]. intros [= <-].
  pose proof (loop_body_emits _ _ _ _ _ _ _ _ Hbody) as Hemits.
  destruct (for_assets_results_order body assets (initial_state db0) Hemits)
    as (names & Hnames & Hsub).
  cbn [outputs_of out_results]. by rewrite Hnames.
Qed.

Lemma outputs_are_consistent_witness :
  let run :=
    fetch_asset_history world_example assets_example None
      (Some "2024-01-01"%string) (Some "2024-01-10"%string) false None false ∅ in
  run.2 = inr (outputs_of run.1) ∧
  map row_asset (out_results (outputs_of run.1)) `sublist_of` ["a"; "b"; "c"]%string.
Proof.
  intros run.
  assert (Hrun : run.2 = inr (outputs_of run.1)) by (vm_compute; reflexivity).
  split; [exact Hrun|].
  apply (outputs_are_consistent _ _ _ _ _ _ _ _ _ _ Hrun).
Defined.

(** * [build_assets_payload] *)

Lemma payload_step_acc cd cdt cc (acc : list payload_entry) item :
  payload_step cd cdt cc acc item = acc ++ payload_step cd cdt cc [] item.
Proof.
  unfold payload_step. destruct (cd !! item.1); [|by rewrite app_nil_r].
  destruct (default [] (cdt !! item.1)); [by rewrite app_nil_r|].
  destruct (default [] _); [by rewrite app_nil_r|done].
Qed.

Lemma build_assets_payload_cons item assets_map cd cdt cc :
  build_assets_payload (item :: assets_map) cd cdt cc =
  payload_step cd cdt cc [] item ++ build_assets_payload assets_map cd cdt cc.
Proof.
  unfold build_assets_payload. cbn [foldl].
  generalize (payload_step cd cdt cc [] item). intros acc.
  revert acc. induction assets_map as [|a l IH]; intros acc.
  - by rewrite app_nil_r.
  - cbn [foldl]. rewrite IH, (IH (payload_step cd cdt cc [] a)).
    by rewrite payload_step_acc, app_assoc.
Qed.

Lemma build_assets_payload_app l1 l2 cd cdt cc :
  build_assets_payload (l1 ++ l2) cd cdt cc =
  build_assets_payload l1 cd cdt cc ++ build_assets_payload l2 cd cdt cc.
Proof.
  induction l1 as [|a l1 IH]; [done|].
  cbn [app]. by rewrite !build_assets_payload_cons, IH, app_assoc.
Qed.

(** The payload of some assets depends on the dicts at their names only. *)
Lemma build_assets_payload_ext assets_map cd cdt cc cd' cdt' cc' :
  (∀ name, name ∈ map fst assets_map →
     cd' !! name = cd !! name ∧ cdt' !! name = cdt !! name ∧
     cc' !! name = cc !! name) →
  build_assets_payload assets_map cd' cdt' cc' =
  build_assets_payload assets_map cd cdt cc.
Proof.
  induction assets_map as [|a l IH]; intros Hsame; [done|].
  rewrite !build_assets_payload_cons. f_equal.
  - destruct (Hsame a.1) as (H1 & H2 & H3); [apply list_elem_of_here|].
    unfold payload_step. by rewrite H1, H2, H3.
  - apply IH. intros name Hname. apply Hsame. by apply list_elem_of_further.
Qed.

(** X9: [build_assets_payload] keeps the order of the asset map and skips
    what has no data: its names are a sub-sequence of the names of the map;
    an asset is in the payload exactly when [chart_data] and [chart_dates]
    both hold a non-empty list for its name (a missing key and an empty list
    are passed over alike); and every entry carries those two lists, the
    last close as ["current"], and the change stored for the name, null
    when there is none. *)
Theorem payload_entries_have_data (assets_map : list (string * string))
    (chart_data : gmap string (list float))
    (chart_dates : gmap string (list date))
    (chart_changes : gmap string (option float)) :
  let payload :=
    build_assets_payload assets_map chart_data chart_dates chart_changes in
  map entry_name payload `sublist_of` map fst assets_map ∧
  (∀ entry, entry ∈ payload →
     (entry_name entry, entry_ticker entry) ∈ assets_map ∧
     entry_close entry ≠ [] ∧ entry_dates entry ≠ [] ∧
     chart_data !! entry_name entry = Some (entry_close entry) ∧
     chart_dates !! entry_name entry = Some (entry_dates entry) ∧
     last (entry_close entry) = Some (entry_current entry) ∧
     entry_change_pct entry = default None (chart_changes !! entry_name entry)) ∧
  (∀ name ticker, (name, ticker) ∈ assets_map →
     (∃ entry, entry ∈ payload ∧ entry_name entry = name ∧
               entry_ticker entry = ticker) ↔
     (∃ closes dates, chart_data !! name = Some closes ∧ closes ≠ [] ∧
                      chart_dates !! name = Some dates ∧ dates ≠ [])).
Proof.
  cbv zeta.
  assert (Hstep : ∀ item,
    match chart_data !! item.1, chart_dates !! item.1 with
    | Some (c :: cs), Some (d :: ds) =>
      payload_step chart_data chart_dates chart_changes [] item =
        [{| entry_name := item.1; entry_ticker := item.2;
            entry_dates := d :: ds; entry_close := c :: cs;
            entry_current := List.last (c :: cs) 0%float;
            entry_change_pct := default None (chart_changes !! item.1) |}]
    | _, _ => payload_step chart_data chart_dates chart_changes [] item = []
    end).
  { intros item. unfold payload_step.
    destruct (chart_data !! item.1) as [[|c cs]|];
      destruct (chart_dates !! item.1) as [[|d ds]|]; done. }
  induction assets_map as [|a l (IH1 & IH2 & IH3)].
  { split; [done|]. split; [by intros ? ?%elem_of_nil|].
    by intros ?? ?%elem_of_nil. }
  rewrite build_assets_payload_cons. specialize (Hstep a).
  split; [|split].
  - rewrite map_app. cbn [map].
    change (a.1 :: map fst l) with ([a.1] ++ map fst l).
    apply sublist_app; [|done].
    destruct (chart_data !! a.1) as [[|c cs]|];
      destruct (chart_dates !! a.1) as [[|d ds]|]; rewrite Hstep;
      simpl; first [done | by apply sublist_cons | by apply sublist_skip].
  - intros entry [Hin|Hin]%elem_of_app.
    + destruct (chart_data !! a.1) as [[|c cs]|] eqn:E1;
        destruct (chart_dates !! a.1) as [[|d ds]|] eqn:E2; rewrite Hstep in Hin;
        try (by apply elem_of_nil in Hin).
      apply list_elem_of_singleton in Hin as ->. cbn.
      split; [destruct a; apply list_elem_of_here|].
      repeat split; try done. by apply (last_default_Some (c :: cs)).
    + destruct (IH2 entry Hin) as (H1 & H2). split; [|done].
      by apply list_elem_of_further.
  - intros name ticker [Heq|Hin]%elem_of_cons.
    + subst a. cbn [fst snd] in Hstep. split.
      * intros (entry & [Hin|Hin]%elem_of_app & Hn & Ht).
        -- destruct (chart_data !! name) as [[|c cs]|] eqn:E1;
             destruct (chart_dates !! name) as [[|d ds]|] eqn:E2;
             rewrite Hstep in Hin; try (by apply elem_of_nil in Hin).
           by eexists _, _.
        -- destruct (IH2 entry Hin) as (_ & H2 & H3 & H4 & H5 & _).
           rewrite Hn in H4, H5. by eexists _, _.
      * intros (closes & dates & E1 & Hc & E2 & Hd).
        rewrite E1, E2 in Hstep. destruct closes; [done|]. destruct dates; [done|].
        eexists. split; [apply elem_of_app; left; rewrite Hstep;
                         apply list_elem_of_here|done].
    + rewrite <- (IH3 name ticker Hin). split.
      * intros (entry & [Hin'|Hin']%elem_of_app & Hn & Ht); [|by eauto].
        apply IH3; [done|].
        destruct (chart_data !! a.1) as [[|c cs]|] eqn:E1;
          destruct (chart_dates !! a.1) as [[|d ds]|] eqn:E2;
          rewrite Hstep in Hin'; try (by apply elem_of_nil in Hin').
        apply list_elem_of_singleton in Hin' as ->. cbn in Hn. subst name.
        by eexists _, _.
      * intros (entry & Hin' & Hn & Ht). exists entry.
        split; [apply elem_of_app; by right|done].
Qed.

(** The payload of one asset whose series was just published. *)
Lemma payload_of_published (name ticker : string) (rows : list price_row)
    (dates : list date) (o : outputs) :
  rows ≠ [] →
  map entry_row
    (payload_of [(name, ticker)]
       (add_series (series_row name ticker rows) (map fst rows) o))
  = [series_row name ticker rows].
Proof.
  intros Hne. destruct rows as [|r rows]; [done|].
  unfold payload_of, build_assets_payload. cbn [foldl].
  unfold payload_step. cbn [add_series out_chart_data out_chart_dates
    out_chart_changes series_row row_asset row_closes row_change fst snd].
  rewrite !lookup_insert_eq. reflexivity.
Qed.

Lemma payload_of_app l1 l2 o :
  payload_of (l1 ++ l2) o = payload_of l1 o ++ payload_of l2 o.
Proof. apply build_assets_payload_app. Qed.

Lemma payload_of_absent (a : string * string) (o : outputs) :
  out_chart_data o !! a.1 = None → payload_of [a] o = [].
Proof.
  intros H. unfold payload_of, build_assets_payload. cbn [foldl].
  unfold payload_step. by rewrite H.
Qed.

Lemma payload_of_add_other l (row : result_row) dates o :
  row_asset row ∉ map fst l →
  payload_of l (add_series row dates o) = payload_of l o.
Proof.
  intros Hnot. apply build_assets_payload_ext. intros name Hname.
  assert (row_asset row ≠ name) by (by intros <-).
  cbn. by rewrite !lookup_insert_ne.
Qed.

(** An entry carries the two lists its name has in the dicts. *)
Lemma payload_entries_data assets_map cd cdt cc entry :
  entry ∈ build_assets_payload assets_map cd cdt cc →
  cd !! entry_name entry = Some (entry_close entry) ∧
  cdt !! entry_name entry = Some (entry_dates entry).
Proof.
  induction assets_map as [|a l IH]; [by intros ?%elem_of_nil|].
  rewrite build_assets_payload_cons. intros [Hin|Hin]%elem_of_app; [|by apply IH].
  unfold payload_step in Hin.
  destruct (cd !! a.1) as [[|c cs]|] eqn:E1; cbn in Hin;
    try (by apply elem_of_nil in Hin);
    destruct (cdt !! a.1) as [[|d ds]|] eqn:E2; cbn in Hin;
    try (by apply elem_of_nil in Hin).
  by apply list_elem_of_singleton in Hin as ->.
Qed.

(** The loop keeps the payload of the assets done in step with [results],
    as long as no name comes twice. *)
Lemma for_assets_payload body (rest done : list (string * string)) st :
  (∀ a, emits a.1 a.2 (body a)) →
  NoDup (map fst (done ++ rest)) →
  names_within (map fst done) (outputs_of st) →
  map entry_row (payload_of done (outputs_of st)) = results st →
  map entry_row
    (payload_of (done ++ rest) (outputs_of (for_assets body rest st)))
  = results (for_assets body rest st).
Proof.
  intros Hbody. unfold for_assets. revert done st.
  induction rest as [|a rest IH]; intros done st Hnd Hnames Hpay.
  - by rewrite app_nil_r.
  - cbn [foldl]. replace (done ++ a :: rest) with ((done ++ [a]) ++ rest)
      by (by rewrite <- app_assoc).
    assert (Hnd' : NoDup (map fst ((done ++ [a]) ++ rest)))
      by (by rewrite <- app_assoc).
    assert (Ha : a.1 ∉ map fst done).
    { rewrite fmap_app in Hnd. apply NoDup_app in Hnd as (_ & Hnd & _).
      intros Hin. apply (Hnd _ Hin). apply list_elem_of_here. }
    pose proof (try_asset_outputs body a st (Hbody a)) as Hturn.
    apply IH; [done| |].
    + rewrite map_app. destruct ((body a st).2).
      * destruct Hturn as (rows & _ & ->). apply names_within_add.
        { apply elem_of_app. right. apply list_elem_of_here. }
        eapply names_within_mono; [|done]. by apply sublist_subseteq, sublist_inserts_r.
      * rewrite Hturn. eapply names_within_mono; [|done].
        by apply sublist_subseteq, sublist_inserts_r.
      * rewrite Hturn. eapply names_within_mono; [|done].
        by apply sublist_subseteq, sublist_inserts_r.
    + rewrite payload_of_app, map_app.
      assert (Habs : out_chart_data (outputs_of st) !! a.1 = None).
      { apply eq_None_not_Some. intros H.
        destruct Hnames as (_ & Hkeys & _). by apply Ha, Hkeys. }
      destruct ((body a st).2).
      * destruct Hturn as (rows & Hne & Hout). rewrite Hout.
        rewrite payload_of_add_other by done. rewrite Hpay.
        destruct a as [name ticker].
        rewrite (payload_of_published name ticker rows (map fst rows)) by done.
        apply (f_equal out_results) in Hout. exact (eq_sym Hout).
      * rewrite Hturn, Hpay, payload_of_absent by done.
        rewrite app_nil_r. by apply (f_equal out_results) in Hturn.
      * rewrite Hturn, Hpay, payload_of_absent by done.
        rewrite app_nil_r. by apply (f_equal out_results) in Hturn.
Qed.

(** X10: the payload built from the outputs of a batch, over the same asset
    map, mirrors [results]: one entry for each row, in the same order, with
    the row's name, ticker, closes, current price and change, and with as
    many dates as closes.  (The names of an asset map are the keys of a
    dict, hence distinct.) *)
Theorem payload_mirrors_results (w : world) (assets : list (string * string))
    (period start end_ : option string) (force_refresh : bool)
    (trading_days : option nat) (stale_only : bool) (db0 : store)
    (outs : outputs) :
  NoDup (map fst assets) →
  (fetch_asset_history w assets period start end_ force_refresh trading_days
     stale_only db0).2 = inr outs →
  map entry_row (payload_of assets outs) = out_results outs ∧
  ∀ entry, entry ∈ payload_of assets outs →
    length (entry_dates entry) = length (entry_close entry).
Proof.
  intros Hnd Hrun.
  pose proof (fetch_asset_history_outputs_agree w assets period start end_
                force_refresh trading_days stale_only db0 outs Hrun) as Hagree.
  revert Hrun. rewrite fetch_asset_history_loop.
  destruct (loop_body w period start end_ force_refresh trading_days stale_only)
    as [err|body] eqn:Hbody; [done|].
  cbn [snd]. intros [= <-]. split.
  - apply (for_assets_payload body assets [] (initial_state db0)); try done.
    + by eapply loop_body_emits.
    + repeat split; simpl; try (by intros ? ?%elem_of_nil);
        intros n; rewrite lookup_empty; by intros [? ?].
  - intros entry Hin.
    destruct (payload_entries_data assets _ _ _ entry Hin) as (Hc & Hd).
    destruct Hagree as (_ & Hchart & _).
    destruct (Hchart _ _ Hc) as (_ & (dates & Hdates & Hlen) & _).
    rewrite Hd in Hdates. injection Hdates as <-. exact Hlen.
Qed.

Lemma payload_mirrors_results_witness :
  let run :=
    fetch_asset_history world_example assets_example None
      (Some "2024-01-01"%string) (Some "2024-01-10"%string) false None false ∅ in
  NoDup (map fst assets_example) ∧ run.2 = inr (outputs_of run.1) ∧
  map entry_row (payload_of assets_example (outputs_of run.1))
    = out_results (outputs_of run.1).
Proof.
  intros run.
  assert (Hnd : NoDup (map fst assets_example)) by compute_done.
  assert (Hrun : run.2 = inr (outputs_of run.1)) by (vm_compute; reflexivity).
  split; [exact Hnd|]. split; [exact Hrun|].
  apply (payload_mirrors_results _ _ _ _ _ _ _ _ _ _ Hnd Hrun).
Defined.

(** * StaleOnly answers *)

(** What building the series of a slice does, case by case. *)
Lemma emit_series_result stale name ticker rows st :
  let out := emit_series stale name ticker rows st in
  if servable rows then
    out.2 = Normal tt ∧
    outputs_of out.1 =
      add_series (series_row name ticker rows) (map fst rows) (outputs_of st)
  else (∃ e, out.2 = Raised e) ∧ outputs_of out.1 = outputs_of st.
Proof.
  cbv zeta. unfold emit_series, item_last, bind.
  destruct (last (map snd rows)) as [current|] eqn:Hlast.
  - cbn [ret].
    pose proof (stdpp_last_Some _ _ 0%float Hlast) as Hcur.
    unfold servable, series_row, period_change_percent, change_percent.
    destruct (map snd rows) as [|c1 [|c2 cs]] eqn:Hcloses; [done| |].
    + rewrite Hcur. by cbn.
    + rewrite Hcur. cbn [length Nat.leb item_first bind ret]. unfold item_last.
      rewrite Hlast. cbn [ret bind]. unfold float_div.
      destruct (PrimFloat.eqb c1 0); cbn; [eauto|done].
  - unfold servable. destruct (map snd rows) as [|c1 [|c2 cs]]; cbn; eauto;
      try done.
    exfalso. revert Hlast. clear. revert c2.
    induction cs as [|c3 cs IH]; intros c2; [done|]. apply IH.
Qed.

Lemma trading_body_stale_run w n force name ticker st :
  trading_body w n force true (name, ticker) st =
  match fetch_cached_last_n ticker n (db st) with
  | inl e => ((log_message (LogCacheLookup name ticker) st).1, Raised e)
  | inr [] => ((log_message (LogCacheLookup name ticker) st).1, Continue)
  | inr rows =>
    emit_series true name ticker rows
      (log_message (LogCacheLookup name ticker) st).1
  end.
Proof.
  unfold trading_body, bind, log_message, try_query, lift. cbn [fst snd db].
  by destruct (fetch_cached_last_n ticker n (db st)) as [e|[|r rows]].
Qed.

(** X11: under StaleOnly what the batch returns for an asset is its slice
    of the table as the call found it, and nothing else: the closes and the
    dates of the slice (the last [n] rows for a count that fits 64 bits, or
    the rows of a window of four-digit years) and the change computed from
    them, when a series can be built from the slice; no entry at all when
    the slice is empty or starts with a zero close followed by more. *)
Theorem stale_answer_is_the_cached_slice (w : world)
    (assets : list (string * string)) (period start end_ : option string)
    (force_refresh : bool) (trading_days : option nat) (db0 : store)
    (name ticker : string) (rows : list price_row) :
  NoDup (map fst assets) →
  (name, ticker) ∈ assets →
  requested_slice w period start end_ trading_days ticker db0 = Some rows →
  let outs :=
    outputs_of
      (fetch_asset_history w assets period start end_ force_refresh
         trading_days true db0).1 in
  if servable rows then
    out_chart_data outs !! name = Some (map snd rows) ∧
    out_chart_dates outs !! name = Some (map fst rows) ∧
    out_chart_changes outs !! name = Some (period_change_percent (map snd rows))
  else
    out_chart_data outs !! name = None ∧
    out_chart_dates outs !! name = None ∧
    out_chart_changes outs !! name = None.
Proof.
  intros Hnd Hin Hslice outs. subst outs.
  rewrite fetch_asset_history_loop.
  destruct (loop_body w period start end_ force_refresh trading_days true)
    as [err|body] eqn:Hbody.
  { unfold loop_body, requested_slice in *.
    destruct (truthy_days trading_days); [done|].
    by destruct (resolve_date_range w period start end_) as [?|[??]]. }
  cbn [fst].
  pose proof (loop_body_emits _ _ _ _ _ _ _ _ Hbody) as Hemits.
  apply list_elem_of_split in Hin as (pre & post & ->).
  rewrite fmap_app, fmap_cons in Hnd. cbn [fst] in Hnd.
  apply NoDup_app in Hnd as (Hpre_nd & Hpre & Hnd).
  apply NoDup_cons in Hnd as (Hpost & _).
  unfold for_assets. rewrite foldl_app. cbn [foldl].
  fold (for_assets body pre (initial_state db0)).
  set (st_pre := for_assets body pre (initial_state db0)).
  fold (for_assets body post (try_asset body st_pre (name, ticker))).
  destruct (for_assets_charts_at body post
              (try_asset body st_pre (name, ticker)) name Hemits Hpost)
    as (-> & -> & ->).
  assert (Hdb : db st_pre = db0).
  { unfold st_pre. rewrite for_assets_keeps; [done| |auto with keeps].
    intros a. unfold loop_body in Hbody.
    destruct (truthy_days trading_days).
    - injection Hbody as <-. apply trading_body_stale_keeps_db.
    - destruct (resolve_date_range w period start end_) as [?|[??]]; [done|].
      injection Hbody as <-. apply calendar_body_stale_keeps_db. }
  assert (Hnone : chart_data st_pre !! name = None ∧
                  chart_dates st_pre !! name = None ∧
                  chart_changes st_pre !! name = None).
  { assert (Hw : names_within ([] ++ map fst pre) (outputs_of st_pre)).
    { apply for_assets_names_within; [done|].
      repeat split; simpl; try (by intros ? ?%elem_of_nil);
        intros n; rewrite lookup_empty; by intros [? ?]. }
    destruct Hw as (_ & H2 & H3 & H4). cbn [app] in *.
    assert (Hn : name ∉ map fst pre) by (intros H; by apply (Hpre _ H), list_elem_of_here).
    repeat split; apply eq_None_not_Some; intros H;
      [by apply Hn, H2 | by apply Hn, H3 | by apply Hn, H4]. }
  assert (Hturn : body (name, ticker) st_pre =
            match rows with
            | [] => body (name, ticker) st_pre
            | _ => emit_series true name ticker rows
                     (log_message (LogCacheLookup name ticker) st_pre).1
            end ∧
            (rows = [] → outputs_of (body (name, ticker) st_pre).1
                         = outputs_of st_pre ∧
                         ∀ e, (body (name, ticker) st_pre).2 ≠ Normal e)).
  { unfold loop_body, requested_slice in *.
    destruct (truthy_days trading_days) as [n|].
    - injection Hbody as <-.
      rewrite trading_body_stale_run, Hdb.
      destruct (fetch_cached_last_n ticker n db0) as [?|rows']; [done|].
      injection Hslice as <-. destruct rows'; [|done]. done.
    - destruct (resolve_date_range w period start end_) as [?|[s e]]; [done|].
      destruct ((year_1000 <=? s) && (year_1000 <=? e)); [|done].
      injection Hbody as <-. injection Hslice as <-.
      rewrite calendar_body_stale_run, Hdb.
      destruct (fetch_cached_prices ticker s e db0); [|done]. done. }
  destruct Hturn as [Hturn Hempty].
  unfold try_asset.
  destruct rows as [|r rows].
  - destruct (Hempty eq_refl) as [Hout Hsig]. cbn [servable map].
    destruct (body (name, ticker) st_pre) as [st1 [[]| |e]] eqn:E;
      cbn [fst snd] in *; [by destruct (Hsig tt)| |];
      apply (f_equal out_chart_data) in Hout as H1;
      apply (f_equal out_chart_dates) in Hout as H2;
      apply (f_equal out_chart_changes) in Hout as H3; cbn in H1, H2, H3;
      cbn; rewrite H1, H2, H3; exact Hnone.
  - rewrite Hturn.
    pose proof (emit_series_result true name ticker (r :: rows)
                  (log_message (LogCacheLookup name ticker) st_pre).1) as H.
    cbv zeta in H.
    destruct (servable (r :: rows)).
    + destruct H as [Hsig Hout].
      destruct (emit_series true name ticker (r :: rows) _) as [st1 sig];
        cbn [fst snd] in *. subst sig.
      apply (f_equal out_chart_data) in Hout as H1;
      apply (f_equal out_chart_dates) in Hout as H2;
      apply (f_equal out_chart_changes) in Hout as H3. cbn in H1, H2, H3.
      rewrite H1, H2, H3, !lookup_insert_eq. done.
    + destruct H as [[e Hsig] Hout].
      destruct (emit_series true name ticker (r :: rows) _) as [st1 sig];
        cbn [fst snd] in *. subst sig.
      apply (f_equal out_chart_data) in Hout as H1;
      apply (f_equal out_chart_dates) in Hout as H2;
      apply (f_equal out_chart_changes) in Hout as H3. cbn in H1, H2, H3.
      cbn. rewrite H1, H2, H3. exact Hnone.
Qed.

Lemma stale_answer_is_the_cached_slice_witness :
  let outs :=
    outputs_of
      (fetch_asset_history world_example [("x", "X")]%string None None None
         false (Some 2%nat) true db_full_window).1 in
  requested_slice world_example None None None (Some 2%nat) "X" db_full_window
    = Some [(1, 100%float); (10, 110%float)] ∧
  out_chart_data outs !! "x"%string = Some [100%float; 110%float] ∧
  out_chart_dates outs !! "x"%string = Some [1; 10] ∧
  out_chart_changes outs !! "x"%string = Some (Some 10%float).
Proof.
  intros outs.
  assert (Hnd : NoDup (map fst [("x", "X")]%string)) by compute_done.
  assert (Hin : ("x", "X")%string ∈ [("x", "X")]%string) by apply list_elem_of_here.
  assert (Hslice : requested_slice world_example None None None (Some 2%nat)
                     "X" db_full_window
                   = Some [(1, 100%float); (10, 110%float)])
    by (vm_compute; reflexivity).
  split; [exact Hslice|].
  exact (stale_answer_is_the_cached_slice world_example [("x", "X")]%string None
           None None false (Some 2%nat) db_full_window "x" "X"
           [(1, 100%float); (10, 110%float)] Hnd Hin Hslice).
Defined.

(** * The [/api/prices] handler *)

(** Under [stale_only] a batch leaves yfinance and the table alone. *)
Lemma stale_run_untouched (w : world) (assets : list (string * string))
    (period start end_ : option string) (force : bool) (td : option nat)
    (db0 : store) :
  let run := fetch_asset_history w assets period start end_ force td true db0 in
  upstream_calls run.1 = [] ∧ db run.1 = db0.
Proof.
  cbv zeta. rewrite fetch_asset_history_loop.
  destruct (loop_body w period start end_ force td true) as [e|body] eqn:Hbody;
    [done|].
  cbn [fst]. unfold loop_body in Hbody.
  destruct (truthy_days td).
  - injection Hbody as <-.
    rewrite !for_assets_keeps;
      auto using trading_body_stale_keeps_calls, trading_body_stale_keeps_db
        with keeps.
  - destruct (resolve_date_range w period start end_) as [?|[s e]]; [done|].
    injection Hbody as <-.
    rewrite !for_assets_keeps;
      auto using calendar_body_stale_keeps_calls, calendar_body_stale_keeps_db
        with keeps.
Qed.

(** The no-cache text is the text of the no-cache label and of a period
    tag that reads the same, and of no other label. *)
Lemma label_text_no_cache (label : range_label) :
  label_text label = no_cache_text ↔
  label = LabelNoCache ∨ label = LabelPeriod no_cache_text.
Proof.
  split.
  - destruct label as [n| |period|]; cbn [label_text].
    + intros H. vm_compute in H. discriminate.
    + intros H. vm_compute in H. discriminate.
    + intros ->. by right.
    + by left.
  - by intros [->| ->].
Qed.

(** X12: a request with [stale=true] is answered from the table alone: no
    yfinance call is made, the table is left as found, and the answer is
    marked stale and from the cache; its label is the no-cache one when it
    carries no asset and the label the request asks for otherwise.  Any
    other request is marked live and not stale and carries the label it
    asks for.  The labels are text: the no-cache text is read on an answer
    exactly when it carries the no-cache label or the request's own period
    tag is that very text. *)
Theorem api_prices_stale_flag (py : python) (w : world) (args : request_args)
    (db0 : store) :
  let r := api_prices py w args db0 in
  let own := request_label py args in
  own ≠ LabelNoCache ∧
  if is_true_arg (arg_stale args) then
    upstream_calls r.1 = [] ∧ db r.1 = db0 ∧
    ∀ resp, r.2 = inr resp →
      meta_stale (resp_meta resp) = true ∧
      meta_source (resp_meta resp) = FromCache ∧
      meta_range_label (resp_meta resp)
        = (if resp_assets resp is [] then LabelNoCache else own) ∧
      (label_text (meta_range_label (resp_meta resp)) = no_cache_text ↔
       resp_assets resp = [] ∨ own = LabelPeriod no_cache_text)
  else
    ∀ resp, r.2 = inr resp →
      meta_stale (resp_meta resp) = false ∧
      meta_source (resp_meta resp) = FromLive ∧
      meta_range_label (resp_meta resp) = own ∧
      (label_text (meta_range_label (resp_meta resp)) = no_cache_text ↔
       own = LabelPeriod no_cache_text).
Proof.
  cbv zeta.
  assert (Hown : request_label py args ≠ LabelNoCache).
  { unfold request_label.
    destruct (trading_days_value py (arg_trading_days args)); [done|].
    by destruct (truthy_str (arg_start args) && truthy_str (arg_end args)). }
  split; [exact Hown|].
  unfold api_prices. fold (request_label py args).
  destruct (is_true_arg (arg_stale args)).
  - match goal with
    | |- context [fetch_asset_history ?w ?a ?p ?s ?e false ?d true db0] =>
      destruct (stale_run_untouched w a p s e false d db0) as [Hc Hd];
      destruct (fetch_asset_history w a p s e false d true db0)
        as [st [err|outs]]
    end; cbn [fst snd] in *; [done|].
    destruct (payload_of _ outs) as [|entry entries] eqn:Hpay; cbn [fst snd].
    + split; [done|]. split; [done|]. intros resp [= <-].
      cbn [resp_meta resp_assets meta_stale meta_source meta_range_label].
      split; [done|]. split; [done|]. split; [done|].
      rewrite label_text_no_cache. split; [auto|]. intros _. by left.
    + split; [done|]. split; [done|]. intros resp [= <-].
      cbn [resp_meta resp_assets meta_stale meta_source meta_range_label].
      split; [done|]. split; [done|]. split; [done|].
      rewrite label_text_no_cache. split.
      * intros [H|H]; [done|by right].
      * intros [H|H]; [done|by right].
  - destruct (fetch_asset_history _ _ _ _ _ _ _ false db0) as [st [err|outs]];
      cbn [snd]; [done|].
    intros resp [= <-].
      cbn [resp_meta resp_assets meta_stale meta_source meta_range_label]. split; [done|]. split; [done|]. split; [done|].
    rewrite label_text_no_cache. split; [|auto]. by intros [H|H].
Qed.

(** X13: a request fails only on its explicit dates.  When no usable
    [trading_days] is given and [start] and [end] both are, a date that does
    not parse makes the handler raise [ValueError] before any asset is
    looked at.  Every other request is answered, an explicit [end] on
    [0001-01-01] apart: there line 254 subtracts a day from the first day
    of the calendar, which is outside this model, and nothing is claimed. *)
Theorem api_prices_only_fails_on_dates (py : python) (w : world)
    (args : request_args) (db0 : store) :
  let r := api_prices py w args db0 in
  let explicit :=
    trading_days_value py (arg_trading_days args) = None ∧
    truthy_str (arg_start args) = true ∧ truthy_str (arg_end args) = true in
  let bad_dates :=
    explicit ∧
    (strptime_ymd w (default EmptyString (arg_start args)) = None ∨
     strptime_ymd w (default EmptyString (arg_end args)) = None) in
  let ends_on_first_day :=
    explicit ∧
    ∃ d, strptime_ymd w (default EmptyString (arg_end args)) = Some d ∧
         d <= date_min in
  (bad_dates → r = (initial_state db0, inl ValueError)) ∧
  (¬ bad_dates → ¬ ends_on_first_day → ∃ resp, r.2 = inr resp).
Proof.
  cbv zeta. unfold api_prices.
  set (days := trading_days_value py (arg_trading_days args)).
  assert (Hdays : ∀ n, days = Some n → ∃ m, n = S m).
  { unfold days, trading_days_value. intros n.
    destruct (truthy_str (arg_trading_days args)); [|done].
    destruct (int_of_str py _) as [k|]; [|done]. intros [= <-].
    exists (Z.to_nat (Z.max 1 k) - 1)%nat. lia. }
  assert (Hfetch : ∀ assets force stale,
    let period_arg :=
      if truthy_str (arg_start args) && truthy_str (arg_end args)
         || bool_decide (is_Some days) then None
      else Some (if truthy_str (arg_period args)
                 then default "7d"%string (arg_period args) else "7d"%string) in
    let start_arg := if truthy_str (arg_start args) && truthy_str (arg_end args)
                     then arg_start args else None in
    let end_arg := if truthy_str (arg_start args) && truthy_str (arg_end args)
                   then arg_end args else None in
    let days_arg := if bool_decide (is_Some days) then days else None in
    let run := fetch_asset_history w assets period_arg start_arg end_arg force
                 days_arg stale db0 in
    ((days = None ∧ truthy_str (arg_start args) = true ∧
      truthy_str (arg_end args) = true ∧
      (strptime_ymd w (default EmptyString (arg_start args)) = None ∨
       strptime_ymd w (default EmptyString (arg_end args)) = None)) →
     run = (initial_state db0, inl ValueError)) ∧
    (¬ (days = None ∧ truthy_str (arg_start args) = true ∧
        truthy_str (arg_end args) = true ∧
        (strptime_ymd w (default EmptyString (arg_start args)) = None ∨
         strptime_ymd w (default EmptyString (arg_end args)) = None)) →
     ∃ outs, run.2 = inr outs)).
  { intros assets force stale. cbv zeta.
    rewrite fetch_asset_history_loop. unfold loop_body.
    destruct days as [n|] eqn:Hd.
    - destruct (Hdays n eq_refl) as [m ->].
      rewrite bool_decide_true by eauto. cbn [truthy_days].
      split; [by intros [? _]|]. intros _. by eexists.
    - rewrite bool_decide_false by (by intros [? ?]). cbn [truthy_days].
      unfold resolve_date_range, parse_date.
      destruct (truthy_str (arg_start args)) eqn:Hs;
        destruct (truthy_str (arg_end args)) eqn:He;
        cbn [andb orb]; rewrite ?Hs, ?He; cbn [andb truthy_str].
      + destruct (strptime_ymd w (default EmptyString (arg_start args))) as [ds|].
        * destruct (strptime_ymd w (default EmptyString (arg_end args))) as [de|].
          -- split; [by intros (_ & _ & _ & [?|?])|]. intros _. by eexists.
          -- split; [done|]. intros H. exfalso. apply H. auto.
        * split; [done|]. intros H. exfalso. apply H. auto.
      + split; [by intros (_ & _ & ? & _)|]. intros _. by eexists.
      + split; [by intros (_ & ? & _)|]. intros _. by eexists.
      + split; [by intros (_ & ? & _)|]. intros _. by eexists. }
  destruct (is_true_arg (arg_stale args)).
  - destruct (Hfetch (select_assets py (arg_assets args)) false true) as [H1 H2].
    split.
    + intros [(Hd & Hs & He) Hp]. by rewrite H1.
    + intros Hok _. destruct H2 as [outs Houts]; [tauto|].
      destruct (fetch_asset_history _ _ _ _ _ _ _ true db0) as [st [err|outs']];
        cbn [snd] in *; [done|].
      destruct (payload_of _ outs'); by eexists.
  - destruct (Hfetch (select_assets py (arg_assets args))
                (is_true_arg (arg_refresh args)) false) as [H1 H2].
    split.
    + intros [(Hd & Hs & He) Hp]. by rewrite H1.
    + intros Hok _. destruct H2 as [outs Houts]; [tauto|].
      destruct (fetch_asset_history _ _ _ _ _ _ _ false db0) as [st [err|outs']];
        cbn [snd] in *; [done|]. by eexists.
Qed.

(** In trading-day mode the period and the explicit dates are not looked at. *)
Lemma fetch_trading_ignores_dates (w : world) (assets : list (string * string))
    (period start end_ : option string) (force : bool) (td : option nat)
    (stale : bool) (db0 : store) (n : nat) :
  truthy_days td = Some n →
  fetch_asset_history w assets period start end_ force td stale db0 =
  fetch_asset_history w assets None None None force td stale db0.
Proof. intros H. unfold fetch_asset_history. by rewrite H. Qed.

(** X14: a usable [trading_days] argument wins over everything else.  When
    the argument is not empty and [int] accepts it, the count used is
    [max(1, int(...))], never zero; the batch is the trading-day batch of
    that count, the same whatever [start], [end] and [period] say (so
    malformed dates cannot make the request fail); and the answer reports the
    count, no period, and the trading-day label (or the no-cache one). *)
Theorem api_prices_trading_days_wins (py : python) (w : world)
    (args : request_args) (db0 : store) (n : nat) :
  trading_days_value py (arg_trading_days args) = Some n →
  let stale := is_true_arg (arg_stale args) in
  let force := if stale then false else is_true_arg (arg_refresh args) in
  let r := api_prices py w args db0 in
  (1 <= n)%nat ∧
  r.1 = (fetch_asset_history w (select_assets py (arg_assets args)) None None
           None force (Some n) stale db0).1 ∧
  ∃ resp, r.2 = inr resp ∧
    meta_trading_days (resp_meta resp) = Some n ∧
    meta_period (resp_meta resp) = None ∧
    (meta_range_label (resp_meta resp) = LabelTradingDays n ∨
     meta_range_label (resp_meta resp) = LabelNoCache).
Proof.
  intros Hdays stale force r. subst stale force r.
  assert (Hn : ∃ m, n = S m).
  { unfold trading_days_value in Hdays.
    destruct (truthy_str (arg_trading_days args)); [|done].
    destruct (int_of_str py _) as [k|]; [|done]. injection Hdays as <-.
    exists (Z.to_nat (Z.max 1 k) - 1)%nat. lia. }
  destruct Hn as [m ->]. split; [lia|].
  unfold api_prices. rewrite Hdays.
  rewrite bool_decide_true by eauto. rewrite orb_true_r.
  destruct (is_true_arg (arg_stale args)).
  - rewrite !fetch_asset_history_loop. unfold loop_body.
    cbn [truthy_days fst snd].
    destruct (payload_of _ _); (split; [done|]); eexists;
      (split; [reflexivity|]); cbn; auto.
  - rewrite !fetch_asset_history_loop. unfold loop_body.
    cbn [truthy_days fst snd]. split; [done|].
    eexists. split; [reflexivity|]. cbn. auto.
Qed.

Lemma api_prices_trading_days_wins_witness :
  trading_days_value python_example (arg_trading_days args_example) = Some 1%nat ∧
  ∃ resp, (api_prices python_example world_example args_example ∅).2 = inr resp ∧
          meta_trading_days (resp_meta resp) = Some 1%nat.
Proof.
  assert (H : trading_days_value python_example (arg_trading_days args_example)
              = Some 1%nat) by reflexivity.
  split; [exact H|].
  destruct (api_prices_trading_days_wins python_example world_example
              args_example ∅ 1 H) as (_ & _ & resp & H1 & H2 & _).
  by exists resp.
Defined.

(** ** The asset filter *)

Lemma payload_entries_of_map assets_map cd cdt cc :
  map entry_name (build_assets_payload assets_map cd cdt cc)
    `sublist_of` map fst assets_map ∧
  ∀ entry, entry ∈ build_assets_payload assets_map cd cdt cc →
    (entry_name entry, entry_ticker entry) ∈ assets_map.
Proof.
  induction assets_map as [|a l [IH1 IH2]];
    [split; [done|by intros ? ?%elem_of_nil]|].
  rewrite build_assets_payload_cons.
  assert (Hstep : payload_step cd cdt cc [] a = [] ∨
                  ∃ entry, payload_step cd cdt cc [] a = [entry] ∧
                           entry_name entry = a.1 ∧ entry_ticker entry = a.2).
  { unfold payload_step. destruct (cd !! a.1) as [[|c cs]|]; cbn; auto;
      destruct (cdt !! a.1) as [[|d ds]|]; cbn; auto.
    right. by eexists. }
  destruct Hstep as [->|(entry & -> & Hn & Ht)].
  - split; [by apply sublist_cons|].
    intros entry Hin. by apply list_elem_of_further, IH2.
  - split; [cbn; rewrite Hn; by apply sublist_skip|].
    intros entry' [->|Hin]%elem_of_cons.
    + rewrite Hn, Ht. destruct a. apply list_elem_of_here.
    + by apply list_elem_of_further, IH2.
Qed.

(** X15: the [assets] argument filters by ticker.  The assets a request is
    about are entries of [ASSETS], in its order: all of them when the
    argument is missing or empty, otherwise those whose ticker is the
    stripped, non-empty text of one of its comma-separated pieces (unknown
    tickers select nothing).  An answer never holds an asset outside that
    selection, and lists its assets in the order of [ASSETS]. *)
Theorem api_prices_answers_selected_assets (py : python) (w : world)
    (args : request_args) (db0 : store) :
  let selected := select_assets py (arg_assets args) in
  selected `sublist_of` ASSETS ∧
  (∀ name ticker, (name, ticker) ∈ selected ↔
     (name, ticker) ∈ ASSETS ∧
     (truthy_str (arg_assets args) = true →
      ∃ piece, piece ∈ split_comma (default EmptyString (arg_assets args)) ∧
               str_strip py piece = ticker ∧ ticker ≠ EmptyString)) ∧
  ∀ resp, (api_prices py w args db0).2 = inr resp →
    map entry_name (resp_assets resp) `sublist_of` map fst ASSETS ∧
    ∀ entry, entry ∈ resp_assets resp →
      (entry_name entry, entry_ticker entry) ∈ selected.
Proof.
  intros selected.
  assert (Hsub : selected `sublist_of` ASSETS).
  { unfold selected, select_assets.
    destruct (truthy_str (arg_assets args)); [apply sublist_filter|done]. }
  split; [done|]. split.
  - intros name ticker. unfold selected, select_assets.
    destruct (truthy_str (arg_assets args)).
    + rewrite list_elem_of_filter. cbn [snd]. unfold requested_tickers.
      split.
      * intros [Hreq Hin]. split; [done|]. intros _.
        apply list_elem_of_fmap in Hreq as (piece & -> & Hp).
        apply list_elem_of_filter in Hp as [Hne Hp].
        exists piece. split; [done|]. split; [done|].
        intros Heq. by rewrite Heq in Hne.
      * intros [Hin Hreq]. split; [|done].
        destruct (Hreq eq_refl) as (piece & Hp & <- & Hne).
        apply list_elem_of_fmap_2, list_elem_of_filter. split; [|done].
        by destruct (str_strip py piece).
    + split; [by intros ?|by intros [? _]].
  - intros resp Hresp.
    assert (Hpay : ∃ outs, resp_assets resp = payload_of selected outs ∨
                           resp_assets resp = []).
    { revert Hresp. unfold api_prices. fold selected.
      destruct (is_true_arg (arg_stale args)).
      - destruct (fetch_asset_history _ _ _ _ _ _ _ true db0) as [st [e|outs]];
          cbn [snd]; [done|].
        destruct (payload_of selected outs) eqn:E; intros [= <-]; exists outs; cbn;
          auto.
      - destruct (fetch_asset_history _ _ _ _ _ _ _ false db0) as [st [e|outs]];
          cbn [snd]; [done|].
        intros [= <-]. exists outs. cbn. auto. }
    destruct Hpay as [outs [-> | ->]].
    + destruct (payload_entries_of_map selected (out_chart_data outs)
                  (out_chart_dates outs) (out_chart_changes outs)) as [H1 H2].
      split; [|exact H2]. etrans; [exact H1|]. by apply fmap_sublist.
    + split; [apply sublist_nil_l|]. by intros ? ?%elem_of_nil.
Qed.

(** * [load_env_file] *)

Lemma load_env_step_union (py : python) (environ : gmap string string)
    (line : string) :
  load_env_step py environ line =
  environ ∪ list_to_map (env_bindings py [line]).
Proof.
  unfold load_env_step, env_bindings. cbn [omap list_omap].
  destruct (parse_env_line py line) as [[key value]|];
    [|cbn; by rewrite (right_id_L ∅ (∪))].
  destruct (nonempty_str key) eqn:Hkey.
  - rewrite filter_cons_True by done. rewrite filter_nil. cbn [andb].
    change (list_to_map [(key, value)])
      with ({[key := value]} : gmap string string).
    case_bool_decide as Hin; cbn [negb]; apply map_eq; intros k;
      rewrite lookup_union; destruct (decide (k = key)) as [->|Hne].
    + destruct Hin as [v Hv]. by rewrite Hv, lookup_singleton_eq.
    + rewrite lookup_singleton_ne by done. by destruct (environ !! k).
    + assert (H : environ !! key = None) by (by apply eq_None_not_Some).
      by rewrite lookup_insert_eq, lookup_singleton_eq, H.
    + rewrite lookup_insert_ne, lookup_singleton_ne by done.
      by destruct (environ !! k).
  - rewrite filter_cons_False by (cbn; by rewrite Hkey).
    cbn. by rewrite (right_id_L ∅ (∪)).
Qed.

Lemma env_bindings_cons (py : python) (line : string) (lines : list string) :
  env_bindings py (line :: lines) = env_bindings py [line] ++ env_bindings py lines.
Proof.
  unfold env_bindings. cbn [omap list_omap].
  destruct (parse_env_line py line) as [kv|]; [|done].
  rewrite !filter_cons. by case_decide.
Qed.

(** The loop is a left-biased union: the environment first, then the
    bindings of the file, the first for a key before the later ones. *)
Lemma load_env_lines_union (py : python) (lines : list string)
    (environ : gmap string string) :
  load_env_lines py lines environ =
  environ ∪ list_to_map (env_bindings py lines).
Proof.
  unfold load_env_lines. revert environ.
  induction lines as [|line lines IH]; intros environ.
  - cbn. by rewrite (right_id_L ∅ (∪)).
  - cbn [foldl]. rewrite IH, load_env_step_union.
    rewrite (env_bindings_cons py line lines), list_to_map_app.
    by rewrite (assoc_L (∪)).
Qed.

(** X16: [load_env_file] only fills in what is missing.  A variable the
    environment already has keeps its value whatever the file says; a
    variable it lacks gets the value of the first line of the file that sets
    it (later lines for the same key are ignored); keys outside the file are
    not touched; a missing or unreadable file changes nothing; and loading
    the same lines a second time changes nothing more. *)
Theorem load_env_file_fills_in (py : python) (lines : list string)
    (environ : gmap string string) :
  let loaded := load_env_file py (Some lines) environ in
  environ ⊆ loaded ∧
  (∀ key, loaded !! key =
     match environ !! key with
     | Some value => Some value
     | None => list_to_map (M := gmap string string) (env_bindings py lines) !! key
     end) ∧
  load_env_file py None environ = environ ∧
  load_env_file py (Some lines) loaded = loaded.
Proof.
  cbv zeta. cbn [load_env_file]. rewrite !load_env_lines_union.
  split; [apply map_union_subseteq_l|]. split; [|split; [done|]].
  - intros key. rewrite lookup_union.
    destruct (environ !! key); [by rewrite union_Some_l|].
    by rewrite (left_id_L None union).
  - by rewrite <- (assoc_L (∪)), (idemp_L (∪)).
Qed.

Lemma split_first_eq_app (key value : string) :
  split_first_eq key = None →
  split_first_eq (key +:+ "=" +:+ value) = Some (key, value).
Proof.
  induction key as [|c key IH]; [done|].
  change (String c key +:+ "=" +:+ value)
    with (String c (key +:+ "=" +:+ value)).
  cbn [split_first_eq].
  destruct (String.eqb (String c EmptyString) "="); [done|].
  destruct (split_first_eq key) as [[k v]|]; [done|].
  intros _. by rewrite IH.
Qed.

Lemma starts_with_hash_app (key rest : string) :
  nonempty_str key = true →
  starts_with_hash (key +:+ rest) = starts_with_hash key.
Proof. by destruct key. Qed.

Lemma nonempty_str_app (key rest : string) :
  nonempty_str key = true → nonempty_str (key +:+ rest) = true.
Proof. by destruct key. Qed.

(** X17: a line [KEY=VALUE] of the env file sets [KEY] when the environment
    lacks it.  The line is split at its first ["="] only, so the value may
    itself hold ["="]; the value is stripped of blanks, then of double
    quotes, then of single quotes at both ends.  (The key here is already
    stripped, holds no ["="], is not empty and is no comment.) *)
Theorem env_line_sets_key (py : python) (key value : string)
    (environ : gmap string string) :
  split_first_eq key = None →
  nonempty_str key = true →
  starts_with_hash key = false →
  str_strip py (key +:+ "=" +:+ value) = key +:+ "=" +:+ value →
  str_strip py key = key →
  environ !! key = None →
  load_env_file py (Some [key +:+ "=" +:+ value]) environ !! key =
    Some (strip_char single_quote
            (strip_char double_quote (str_strip py value))).
Proof.
  intros Hsplit Hne Hhash Hline Hkey Henv.
  cbn [load_env_file load_env_lines foldl]. unfold load_env_step, parse_env_line.
  rewrite Hline, nonempty_str_app, starts_with_hash_app, Hhash by done.
  cbn [negb orb]. rewrite split_first_eq_app by done. rewrite Hkey, Hne.
  rewrite bool_decide_false by (rewrite Henv; by intros [? ?]).
  cbn [negb andb]. by rewrite lookup_insert_eq.
Qed.

Lemma env_line_sets_key_witness :
  load_env_file python_example (Some [env_line_example]) ∅ !! "API_KEY"%string
    = Some "a=b"%string.
Proof.
  exact (env_line_sets_key python_example "API_KEY"
           (double_quote +:+ "a=b" +:+ double_quote) ∅
           eq_refl eq_refl eq_refl eq_refl eq_refl (lookup_empty _)).
Defined.

(** * [get_db_stats] *)

#[global] Instance ticker_le_total : Total ticker_le.
Proof. intros t1 t2. apply String.leb_total. Qed.

Lemma foldl_min_spec (d : Z) (rest : list Z) :
  foldl Z.min d rest ∈ d :: rest ∧ ∀ x, x ∈ d :: rest → foldl Z.min d rest <= x.
Proof.
  revert d. induction rest as [|y rest IH]; intros d.
  - simpl. split; [apply list_elem_of_here|].
    intros x Hx. apply list_elem_of_singleton in Hx. lia.
  - cbn [foldl]. destruct (IH (Z.min d y)) as [Hin Hle]. split.
    + apply elem_of_cons in Hin as [Heq|Hin]; [|by do 2 apply list_elem_of_further].
      rewrite Heq. destruct (Z.min_spec d y) as [[_ ->]|[_ ->]];
        [apply list_elem_of_here | apply list_elem_of_further, list_elem_of_here].
    + intros x Hx. apply elem_of_cons in Hx as [Hx|Hx].
      * specialize (Hle (Z.min d y) (list_elem_of_here _ _)). lia.
      * apply elem_of_cons in Hx as [Hx|Hx].
        -- specialize (Hle (Z.min d y) (list_elem_of_here _ _)). lia.
        -- apply Hle. by apply list_elem_of_further.
Qed.

Lemma foldl_max_spec (d : Z) (rest : list Z) :
  foldl Z.max d rest ∈ d :: rest ∧ ∀ x, x ∈ d :: rest → x <= foldl Z.max d rest.
Proof.
  revert d. induction rest as [|y rest IH]; intros d.
  - simpl. split; [apply list_elem_of_here|].
    intros x Hx. apply list_elem_of_singleton in Hx. lia.
  - cbn [foldl]. destruct (IH (Z.max d y)) as [Hin Hle]. split.
    + apply elem_of_cons in Hin as [Heq|Hin]; [|by do 2 apply list_elem_of_further].
      rewrite Heq. destruct (Z.max_spec d y) as [[_ ->]|[_ ->]];
        [apply list_elem_of_further, list_elem_of_here | apply list_elem_of_here].
    + intros x Hx. apply elem_of_cons in Hx as [Hx|Hx].
      * specialize (Hle (Z.max d y) (list_elem_of_here _ _)). lia.
      * apply elem_of_cons in Hx as [Hx|Hx].
        -- specialize (Hle (Z.max d y) (list_elem_of_here _ _)). lia.
        -- apply Hle. by apply list_elem_of_further.
Qed.

Lemma filter_all {A} (P : A → Prop) `{!∀ x, Decision (P x)} (l : list A) :
  (∀ x, x ∈ l → P x) → filter P l = l.
Proof.
  induction l as [|x l IH]; intros Hall; [done|].
  rewrite filter_cons_True by apply Hall, list_elem_of_here.
  f_equal. apply IH. intros y Hy. by apply Hall, list_elem_of_further.
Qed.

Lemma elem_of_cached_tickers (db0 : store) (t : string) :
  t ∈ cached_tickers db0 ↔ ∃ d, is_Some (db0 !! (t, d)).
Proof.
  unfold cached_tickers.
  rewrite merge_sort_Permutation, elem_of_remove_dups, list_elem_of_fmap. split.
  - intros ([[t' d] v] & -> & Hin). exists d.
    apply elem_of_map_to_list in Hin. by eexists.
  - intros (d & v & Hv). exists ((t, d), v). split; [done|].
    by apply elem_of_map_to_list.
Qed.

(** X18: [get_db_stats] lists every ticker that has a row, once, in
    ticker order, with the number of its rows and its first and last date:
    both dates are dates of rows of the ticker with every other one between
    them, and the range scan from the first to the last returns exactly as
    many rows as counted.  An empty table gives an empty list. *)
Theorem get_db_stats_summary (db0 : store) :
  let stats := get_db_stats db0 in
  map (fun s : string * nat * date * date => s.1.1.1) stats = cached_tickers db0 ∧
  NoDup (cached_tickers db0) ∧ Sorted ticker_le (cached_tickers db0) ∧
  (∀ t, t ∈ cached_tickers db0 ↔ ∃ d, is_Some (db0 !! (t, d))) ∧
  (∀ t n mn mx, (t, n, mn, mx) ∈ stats →
     (0 < n)%nat ∧ n = length (ticker_rows t db0) ∧
     is_Some (db0 !! (t, mn)) ∧ is_Some (db0 !! (t, mx)) ∧
     (∀ d, is_Some (db0 !! (t, d)) → mn <= d <= mx) ∧
     length (fetch_cached_prices t mn mx db0) = n) ∧
  get_db_stats ∅ = [].
Proof.
  intros stats.
  assert (Hrow : ∀ t, t ∈ cached_tickers db0 →
    ∃ mn mx, cached_min (map fst (ticker_rows t db0)) = Some mn ∧
             cached_max (map fst (ticker_rows t db0)) = Some mx).
  { intros t (d & [c ts] & Hd)%elem_of_cached_tickers.
    assert (Hin : (d, c) ∈ ticker_rows t db0) by (apply elem_of_ticker_rows; eauto).
    destruct (ticker_rows t db0) as [|r rows]; [by apply elem_of_nil in Hin|].
    by eexists _, _. }
  split; [|split; [|split; [|split; [|split]]]].
  - subst stats. unfold get_db_stats.
    induction (cached_tickers db0) as [|t l IH]; [done|].
    cbn [omap list_omap]. destruct (Hrow t (list_elem_of_here _ _)) as (mn & mx & -> & ->).
    cbn. f_equal. apply IH. intros t' Ht'. apply Hrow. by apply list_elem_of_further.
  - unfold cached_tickers. rewrite merge_sort_Permutation. apply NoDup_remove_dups.
  - apply Sorted_merge_sort. apply _.
  - apply elem_of_cached_tickers.
  - intros t n mn mx Hin. subst stats. unfold get_db_stats in Hin.
    apply list_elem_of_omap in Hin as (t' & Ht' & Hstat).
    cbv zeta in Hstat.
    destruct (ticker_rows t' db0) as [|[d0 c0] rows] eqn:Hrows; [done|].
    cbn [map cached_min cached_max fst] in Hstat.
    injection Hstat as -> <- <- <-. rewrite Hrows.
    destruct (foldl_min_spec d0 (map fst rows)) as [Hmin_in Hmin].
    destruct (foldl_max_spec d0 (map fst rows)) as [Hmax_in Hmax].
    assert (Hdates : ∀ d, d ∈ d0 :: map fst rows ↔ is_Some (db0 !! (t, d))).
    { intros d. pose proof (elem_of_ticker_rows t db0 d) as Hmem.
      rewrite Hrows in Hmem.
      change (d0 :: map fst rows) with (fst <$> ((d0, c0) :: rows)).
      rewrite list_elem_of_fmap. split.
      - intros ([d' c] & -> & Hin). apply Hmem in Hin as [ts Hts]. by eexists.
      - intros [[c ts] Hd]. exists (d, c). split; [done|]. apply Hmem. eauto. }
    split; [cbn; lia|]. split; [by rewrite length_map|].
    split; [by apply Hdates|]. split; [by apply Hdates|]. split.
    + intros d Hd%Hdates. split; [by apply Hmin|by apply Hmax].
    + unfold fetch_cached_prices.
      rewrite (Permutation_length (merge_sort_Permutation _ _)).
      rewrite Hrows, filter_all; [cbn [map length]; by rewrite length_map|].
      intros [d c] Hin.
      assert (Hd : d ∈ d0 :: map fst rows).
      { change (d0 :: map fst rows) with (fst <$> ((d0, c0) :: rows)).
        apply list_elem_of_fmap. by exists (d, c). }
      split; [by apply Hmin|by apply Hmax].
  - done.
Qed.

(** * [get_weekly_closing_prices] *)

Lemma first_row_of_absent (name : string) (results : list result_row) :
  name ∉ map row_asset results → first_row_of name results = None.
Proof.
  induction results as [|row rest IH]; [done|]. intros Hnot. cbn.
  destruct (String.eqb_spec (row_asset row) name) as [Heq|_].
  - exfalso. apply Hnot. rewrite <- Heq. apply list_elem_of_here.
  - apply IH. intros Hin. apply Hnot. by apply list_elem_of_further.
Qed.

Lemma asset_lines_skip (row : result_row) (results : list result_row)
    (names : list string) :
  row_asset row ∉ names →
  omap (fun name =>
          (fun r => LineAsset name (row_current r) (row_change r))
            <$> first_row_of name (row :: results)) names =
  omap (fun name =>
          (fun r => LineAsset name (row_current r) (row_change r))
            <$> first_row_of name results) names.
Proof.
  intros Hnot. induction names as [|name names IH]; [done|].
  cbn [omap list_omap first_row_of].
  destruct (String.eqb_spec (row_asset row) name) as [Heq|_].
  { exfalso. apply Hnot. rewrite Heq. apply list_elem_of_here. }
  rewrite <- IH; [done|]. intros Hin. apply Hnot. by apply list_elem_of_further.
Qed.

Lemma asset_lines_of_sublist (names : list string) (results : list result_row) :
  NoDup names →
  map row_asset results `sublist_of` names →
  omap (fun name =>
          (fun r => LineAsset name (row_current r) (row_change r))
            <$> first_row_of name results) names =
  map line_of_row results.
Proof.
  intros Hnd. revert results.
  induction Hnd as [|name names Hname Hnd IH]; intros results Hsub.
  - apply sublist_nil_r in Hsub. by destruct results.
  - apply sublist_cons_r in Hsub as [Hsub|(rest & Heq & Hsub)].
    + cbn [omap list_omap]. rewrite first_row_of_absent; [by apply IH|].
      intros Hin. apply Hname. by eapply sublist_subseteq.
    + destruct results as [|row results]; [done|].
      cbn [map] in Heq. injection Heq as Hrow <-.
      cbn [omap list_omap].
      rewrite (asset_lines_skip row results names) by (by rewrite Hrow).
      rewrite (IH results Hsub).
      cbn [first_row_of]. rewrite Hrow, String.eqb_refl. cbn.
      f_equal. unfold line_of_row. by rewrite Hrow.
Qed.

(** X19: the weekly report asks for the batch of the last seven days over
    the whole asset table, which cannot raise; its nested search over the
    asset names and the result rows prints exactly one line per result row,
    in the order of the rows, with the row's own price and change; and it
    stops after the no-data line exactly when no asset produced a row,
    going on to the table otherwise. *)
Theorem weekly_report_lists_results (w : world) (db0 : store) :
  let run :=
    fetch_asset_history w ASSETS (Some "7d"%string) None None false None false
      db0 in
  ∃ outs,
    run.2 = inr outs ∧
    get_weekly_closing_prices w db0 =
      (run.1,
       inr (LineSearching :: map line_of_row (out_results outs)
              ++ (if bool_decide (out_results outs = []) then [LineNoData] else []),
            negb (bool_decide (out_results outs = [])))).
Proof.
  intros run. subst run. unfold get_weekly_closing_prices.
  rewrite fetch_asset_history_loop.
  destruct (loop_body w (Some "7d"%string) None None false None false)
    as [err|body] eqn:Hbody; [by cbv in Hbody|].
  cbn [fst snd]. eexists. split; [done|].
  pose proof (loop_body_emits _ _ _ _ _ _ _ _ Hbody) as Hemits.
  destruct (for_assets_results_order body ASSETS (initial_state db0) Hemits)
    as (names & Hnames & Hsub).
  cbn [initial_state results map app] in Hnames. rewrite <- Hnames in Hsub.
  assert (Hlines : asset_lines ASSETS
                     (results (for_assets body ASSETS (initial_state db0))) =
                   map line_of_row
                     (results (for_assets body ASSETS (initial_state db0)))).
  { apply asset_lines_of_sublist; [compute_done|done]. }
  cbn [outputs_of out_results]. rewrite Hlines.
  destruct (results (for_assets body ASSETS (initial_state db0))) as [|row rows].
  - done.
  - rewrite bool_decide_eq_false_2 by done. cbn [negb]. by rewrite app_nil_r.
Qed.
